(** * podcast_processor: a shallow embedding of the data-shaping core

    The development follows the Python package [podcast_processor]:
    - [models.py]      the transcript and content records and their derived
                       renderings ([full_text], [timestamp],
                       [to_youtube_format]);
    - [prompts.py]     the three prompt templates;
    - [generators.py]  prompt construction, JSON extraction from the model's
                       answer, chapter normalisation and the orchestration of
                       the three generation calls;
    - [llm.py]         the client of the text-generation service and its
                       three attempts;
    - [cli.py]         the output writer [_save_outputs], the loading of a
                       persisted transcript, the summary and the three
                       commands;
    - [transcriber.py] the transcriber over the speech-recognition library.

    Conventions of the embedding.
    - A Python [str] is a list of Unicode code points ([pystr]); [str "..."]
      injects an ASCII literal.
    - A Python [int] is a [Z]; [//] and [%] on ints are [Z.div] and
      [Z.modulo] (both floor, like Python's).
    - A Python [float] is modelled by the rational it denotes ([Q]): the
      values are finite (no NaN, no infinity) and arithmetic is exact.
    - An exception is a value of [exn]; code that may raise returns a
      [result].  Calls to the text-generation collaborator thread a [World]
      that holds the collaborator's state and the log of the calls made.
    - The file system is a finite map from paths to file contents together
      with the set of existing directories.
    - The libraries behind the code (the text-generation service, the
      speech-recognition library, pathlib) are collaborators: records of
      functions over a state of their own, or variables of a section.
    - What the code prints on the console is left out of the state;
      [_display_summary], which only prints, is the list of what it
      hands to the console. *)

From Stdlib Require Import List ZArith NArith QArith Qround Qabs Lia Lqa Bool.
From Stdlib Require Import Ascii String Sorted Permutation DecimalN.
From stdpp Require Import base gmap.
Import ListNotations.

Set Default Proof Using "Type".
Set Warnings "-register-all".

(* ===================================================================== *)
(** * Python primitives *)
(* ===================================================================== *)

(** ** Strings *)

Abbreviation pystr := (list N).

(** ASCII literal to Python string. *)
Definition str (s : string) : pystr :=
  List.map N_of_ascii (list_ascii_of_string s).

(** The double quote and the line feed, which the literals below cannot
    hold directly. *)
Definition dq : pystr := [34%N].
Definition nl : pystr := [10%N].

(** [str.isspace] on one code point (CPython's [_PyUnicode_IsWhitespace]). *)
Definition isspace (c : N) : bool :=
  ((9 <=? c) && (c <=? 13) || (28 <=? c) && (c <=? 32)
   || (c =? 133) || (c =? 160) || (c =? 5760)
   || (8192 <=? c) && (c <=? 8202)
   || (c =? 8232) || (c =? 8233) || (c =? 8239) || (c =? 8287)
   || (c =? 12288))%N.

Fixpoint lstrip (s : pystr) : pystr :=
  match s with
  | c :: t => if isspace c then lstrip t else s
  | [] => []
  end.

Definition rstrip (s : pystr) : pystr := rev (lstrip (rev s)).

(** [s.strip()] *)
Definition strip (s : pystr) : pystr := rstrip (lstrip s).

(** [sep.join(items)] *)
Fixpoint join (sep : pystr) (items : list pystr) : pystr :=
  match items with
  | [] => []
  | [x] => x
  | x :: rest => x ++ sep ++ join sep rest
  end.

(** [s[:n]] for [n >= 0] *)
Definition slice_to (n : nat) (s : pystr) : pystr := firstn n s.

(** ** Integers and their decimal rendering *)

Definition digit_char (d : N) : N := (48 + d)%N.

Fixpoint uint_chars (u : Decimal.uint) : pystr :=
  match u with
  | Decimal.Nil => []
  | Decimal.D0 u => digit_char 0 :: uint_chars u
  | Decimal.D1 u => digit_char 1 :: uint_chars u
  | Decimal.D2 u => digit_char 2 :: uint_chars u
  | Decimal.D3 u => digit_char 3 :: uint_chars u
  | Decimal.D4 u => digit_char 4 :: uint_chars u
  | Decimal.D5 u => digit_char 5 :: uint_chars u
  | Decimal.D6 u => digit_char 6 :: uint_chars u
  | Decimal.D7 u => digit_char 7 :: uint_chars u
  | Decimal.D8 u => digit_char 8 :: uint_chars u
  | Decimal.D9 u => digit_char 9 :: uint_chars u
  end.

(** Decimal digits of a natural number, most significant first; [0] is
    ["0"]. *)
Definition digits (n : N) : pystr := uint_chars (N.to_uint n).

(** [str(z)] for an int *)
Definition str_int (z : Z) : pystr :=
  if (z <? 0)%Z then str "-" ++ digits (Z.abs_N z) else digits (Z.abs_N z).

(** [format(z, "0<w>d")]: sign, then the digits left-padded with zeros so
    that the whole field is at least [w] characters wide. *)
Definition format_0d (w : nat) (z : Z) : pystr :=
  let d := digits (Z.abs_N z) in
  if (z <? 0)%Z
  then str "-" ++ repeat (digit_char 0) (w - 1 - length d) ++ d
  else repeat (digit_char 0) (w - length d) ++ d.

(** The format spec [:02d] of the f-strings. *)
Definition format_02d (z : Z) : pystr := format_0d 2 z.

(** ** Floats *)

(** [int(x)]: truncation toward zero. *)
Definition py_int (x : Q) : Z := Z.quot (Qnum x) (Z.pos (Qden x)).

(** [x // y] on floats: the floor of the quotient, as a float. *)
Definition float_floordiv (x y : Q) : Q := inject_Z (Qfloor (x / y)).

(** [x % y] on floats: the remainder with the sign of [y]. *)
Definition float_mod (x y : Q) : Q := x - y * inject_Z (Qfloor (x / y)).

(** [x > 0] and friends, as booleans. *)
Definition float_lt (x y : Q) : bool :=
  match Qcompare x y with Lt => true | _ => false end.
Definition float_gt (x y : Q) : bool := float_lt y x.

(* ===================================================================== *)
(** * models.py *)
(* ===================================================================== *)

Module TranscriptSegment.
Record t := mk { start : Q; end_ : Q; text : pystr }.
End TranscriptSegment.

Module WordTimestamp.
Record t := mk { word : pystr; start : Q; end_ : Q; probability : Q }.
End WordTimestamp.

Module Transcript.
Record t := mk {
segments : list TranscriptSegment.t;
words : list WordTimestamp.t;
language : pystr;
duration : Q
}.

(** [" ".join(seg.text.strip() for seg in self.segments)] *)
Definition full_text (self : t) : pystr :=
join (str " ")
  (List.map (fun seg => strip (TranscriptSegment.text seg)) (segments self)).

(** [get_text_at_time]: the first segment whose span contains the time. *)
Fixpoint text_at (segs : list TranscriptSegment.t) (time_seconds : Q)
: option pystr :=
match segs with
| [] => None
| segment :: rest =>
    if negb (float_lt time_seconds (TranscriptSegment.start segment))
       && negb (float_lt (TranscriptSegment.end_ segment) time_seconds)
    then Some (TranscriptSegment.text segment)
    else text_at rest time_seconds
end.
Definition get_text_at_time (self : t) (time_seconds : Q) : option pystr :=
text_at (segments self) time_seconds.
End Transcript.

Module Chapter.
Record t := mk { start_time : Q; title : pystr; description : pystr }.

(** Assignment to the attribute [start_time]. *)
Definition set_start_time (self : t) (v : Q) : t :=
mk v (title self) (description self).

Definition timestamp (self : t) : pystr :=
let total_seconds := py_int (start_time self) in
let hours := (total_seconds / 3600)%Z in
let minutes := ((total_seconds mod 3600) / 60)%Z in
let seconds := (total_seconds mod 60)%Z in
if (hours >? 0)%Z
then format_02d hours ++ str ":" ++ format_02d minutes
     ++ str ":" ++ format_02d seconds
else format_02d minutes ++ str ":" ++ format_02d seconds.

Definition to_youtube_format (self : t) : pystr :=
match description self with
| _ :: _ =>
    timestamp self ++ str " " ++ title self ++ str " - " ++ description self
| [] => timestamp self ++ str " " ++ title self
end.
End Chapter.

Module Title.
Record t := mk { title : pystr; thumbnail_text : pystr; reasoning : pystr }.
End Title.

Module GeneratedContent.
Record t := mk {
description : pystr;
titles : list Title.t;
chapters : list Chapter.t
}.
End GeneratedContent.

(* ===================================================================== *)
(** * The json module of the Python standard library *)
(* ===================================================================== *)

Module Json.

(** The constants [NaN], [Infinity] and [-Infinity], which the decoder
  accepts although they denote no finite float. *)
Inductive nonfinite := NaN | PosInf | NegInf.

(** Decoded JSON documents.  An object is the Python [dict] built by the
  decoder: an association list in insertion order with distinct keys. *)
Inductive value :=
| JNull
| JBool (b : bool)
| JInt (z : Z)
| JFloat (q : Q)
| JNonFinite (k : nonfinite)
| JStr (s : pystr)
| JArr (items : list value)
| JObj (members : list (pystr * value)).

(** [json.JSONDecodeError(msg, doc, pos)] *)
Record JSONDecodeError := mkError { msg : pystr; doc : pystr; pos : nat }.

Definition count_nl (s : pystr) : nat :=
length (List.filter (fun c => (c =? 10)%N) s).

(** The characters after the last line feed of [s]. *)
Fixpoint last_line (s : pystr) (cur : pystr) : pystr :=
match s with
| [] => cur
| c :: t => if (c =? 10)%N then last_line t [] else last_line t (cur ++ [c])
end.

Definition lineno (e : JSONDecodeError) : nat :=
S (count_nl (firstn (pos e) (doc e))).
Definition colno (e : JSONDecodeError) : nat :=
S (length (last_line (firstn (pos e) (doc e)) [])).

(** [str(e)]: ["<msg>: line <l> column <c> (char <pos>)"] *)
Definition error_str (e : JSONDecodeError) : pystr :=
msg e ++ str ": line " ++ str_int (Z.of_nat (lineno e))
++ str " column " ++ str_int (Z.of_nat (colno e))
++ str " (char " ++ str_int (Z.of_nat (pos e)) ++ str ")".

(** *** Scanning *)

(** An error found while scanning: the message and the input that was
  left at the place the error is reported. *)
Definition scan_error : Type := pystr * pystr.
Definition scan_result (A : Type) : Type := scan_error + (A * pystr).

Definition is_ws (c : N) : bool :=
((c =? 32) || (c =? 9) || (c =? 10) || (c =? 13))%N.

Fixpoint skip_ws (s : pystr) : pystr :=
match s with
| c :: t => if is_ws c then skip_ws t else s
| [] => []
end.

Definition is_digit (c : N) : bool := ((48 <=? c) && (c <=? 57))%N.

Fixpoint span_digits (s : pystr) : pystr * pystr :=
match s with
| c :: t =>
    if is_digit c then let (d, r) := span_digits t in (c :: d, r)
    else ([], s)
| [] => ([], [])
end.

Definition digits_value (ds : pystr) : N :=
fold_left (fun acc c => (acc * 10 + (c - 48))%N) ds 0%N.

(** The integer part of a number: an optional minus sign, then either a
  single zero or a non-zero digit followed by any digits. *)
Definition match_integer (s : pystr) : option (bool * pystr * pystr) :=
let (neg, s1) :=
  match s with
  | c :: t => if (c =? 45)%N then (true, t) else (false, s)
  | [] => (false, s)
  end in
match s1 with
| c :: t =>
    if (c =? 48)%N then Some (neg, [c], t)
    else if is_digit c then
      let (d, r) := span_digits s1 in Some (neg, d, r)
    else None
| [] => None
end.

(** The fraction of a number: a dot and at least one digit. *)
Definition match_frac (s : pystr) : option (pystr * pystr) :=
match s with
| c :: t =>
    if (c =? 46)%N then
      match span_digits t with
      | ([], _) => None
      | (d, r) => Some (d, r)
      end
    else None
| [] => None
end.

(** The exponent of a number: [e] or [E], an optional sign and at least
  one digit. *)
Definition match_exp (s : pystr) : option (Z * pystr) :=
match s with
| c :: t =>
    if ((c =? 101) || (c =? 69))%N then
      let (neg, t1) :=
        match t with
        | sign :: u =>
            if (sign =? 45)%N then (true, u)
            else if (sign =? 43)%N then (false, u)
            else (false, t)
        | [] => (false, t)
        end in
      match span_digits t1 with
      | ([], _) => None
      | (d, r) =>
          let e := Z.of_N (digits_value d) in
          Some (if neg then (- e)%Z else e, r)
      end
    else None
| [] => None
end.

(** [float(literal)] for the literal [<-?><int>.<frac>e<exp>], as the
  rational the literal denotes, in lowest terms. *)
Definition float_of_literal (neg : bool) (int frac : pystr) (exp : Z) : Q :=
let mant := Z.of_N (digits_value (int ++ frac)) in
let mant := if neg then (- mant)%Z else mant in
let scale := (exp - Z.of_nat (length frac))%Z in
Qred (if (0 <=? scale)%Z
      then (mant * 10 ^ scale)%Z # 1
      else mant # Z.to_pos (10 ^ (- scale))).

Definition match_number (s : pystr) : option (value * pystr) :=
match match_integer s with
| None => None
| Some (neg, int, r0) =>
    let (frac, r1) :=
      match match_frac r0 with
      | Some (f, r) => (Some f, r)
      | None => (None, r0)
      end in
    let (exp, r2) :=
      match match_exp r1 with
      | Some (e, r) => (Some e, r)
      | None => (None, r1)
      end in
    match frac, exp with
    | None, None =>
        let n := Z.of_N (digits_value int) in
        Some (JInt (if neg then (- n)%Z else n), r2)
    | _, _ =>
        Some (JFloat (float_of_literal neg int
                        (match frac with Some f => f | None => [] end)
                        (match exp with Some e => e | None => 0%Z end)),
              r2)
    end
end.

(** [s.startswith(p)], returning what follows the prefix. *)
Fixpoint strip_prefix (p s : pystr) : option pystr :=
match p, s with
| [], _ => Some s
| a :: p', b :: s' => if (a =? b)%N then strip_prefix p' s' else None
| _ :: _, [] => None
end.

Definition hex_value (c : N) : option N :=
if ((48 <=? c) && (c <=? 57))%N then Some (c - 48)%N
else if ((97 <=? c) && (c <=? 102))%N then Some (c - 87)%N
else if ((65 <=? c) && (c <=? 70))%N then Some (c - 55)%N
else None.

Definition hex4 (a b c d : N) : option N :=
match hex_value a, hex_value b, hex_value c, hex_value d with
| Some a, Some b, Some c, Some d =>
    Some (((a * 16 + b) * 16 + c) * 16 + d)%N
| _, _, _, _ => None
end.

(** The one-character escapes of a JSON string. *)
Definition backslash (c : N) : option N :=
if (c =? 34)%N then Some 34%N            (* quote *)
else if (c =? 92)%N then Some 92%N       (* backslash *)
else if (c =? 47)%N then Some 47%N       (* slash *)
else if (c =? 98)%N then Some 8%N        (* b *)
else if (c =? 102)%N then Some 12%N      (* f *)
else if (c =? 110)%N then Some 10%N      (* n *)
else if (c =? 114)%N then Some 13%N      (* r *)
else if (c =? 116)%N then Some 9%N       (* t *)
else None.

Definition is_high_surrogate (c : N) : bool :=
((55296 <=? c) && (c <=? 56319))%N.
Definition is_low_surrogate (c : N) : bool :=
((56320 <=? c) && (c <=? 57343))%N.
Definition join_surrogates (hi lo : N) : N :=
(65536 + ((hi - 55296) * 1024 + (lo - 56320)))%N.

(** [scanstring]: the input after the opening quote is scanned up to the
  closing quote; [begin] is the input from the opening quote on, where
  an unterminated string is reported.  An escape [\uXXXX] needs a
  character after its four digits; a high surrogate followed by an
  escaped low surrogate (and one more character) is one code point. *)
Fixpoint scanstring (begin : pystr) (s : pystr) (acc : pystr)
: scan_result pystr :=
match s with
| [] => inl (str "Unterminated string starting at", begin)
| c :: t =>
    if (c =? 34)%N then inr (acc, t)
    else if (c =? 92)%N then
      match t with
      | [] => inl (str "Unterminated string starting at", begin)
      | e :: t1 =>
          if (e =? 117)%N then
            match t1 with
            | h1 :: h2 :: h3 :: h4 :: ((_ :: _) as t2) =>
                match hex4 h1 h2 h3 h4 with
                | None => inl (str "Invalid \uXXXX escape", t)
                | Some uni =>
                    if is_high_surrogate uni then
                      match t2 with
                      | 92%N :: 117%N :: g1 :: g2 :: g3 :: g4
                        :: ((_ :: _) as t3) =>
                          match hex4 g1 g2 g3 g4 with
                          | None =>
                              inl (str "Invalid \uXXXX escape",
                                   117%N :: g1 :: g2 :: g3 :: g4 :: t3)
                          | Some uni2 =>
                              if is_low_surrogate uni2
                              then scanstring begin t3
                                     (acc ++ [join_surrogates uni uni2])
                              else scanstring begin t2 (acc ++ [uni])
                          end
                      | _ => scanstring begin t2 (acc ++ [uni])
                      end
                    else scanstring begin t2 (acc ++ [uni])
                end
            | _ => inl (str "Invalid \uXXXX escape", t)
            end
          else
            match backslash e with
            | Some ch => scanstring begin t1 (acc ++ [ch])
            | None => inl (str "Invalid \escape", s)
            end
      end
    else if (c <? 32)%N then inl (str "Invalid control character at", s)
    else scanstring begin t (acc ++ [c])
end.

(** [d[k] = v] on a dict: an existing key keeps its place. *)
Fixpoint dict_set (d : list (pystr * value)) (k : pystr) (v : value)
: list (pystr * value) :=
match d with
| [] => [(k, v)]
| (k', v') :: rest =>
    if decide (k' = k) then (k', v) :: rest
    else (k', v') :: dict_set rest k v
end.

(** [d.get(k, default)] *)
Fixpoint dict_get (d : list (pystr * value)) (k : pystr) (default : value)
: value :=
match d with
| [] => default
| (k', v') :: rest =>
    if decide (k' = k) then v' else dict_get rest k default
end.

Definition expecting_value : pystr := str "Expecting value".
Definition expecting_comma : pystr := str "Expecting ',' delimiter".
Definition expecting_colon : pystr := str "Expecting ':' delimiter".
Definition expecting_name : pystr :=
str "Expecting property name enclosed in double quotes".

(** [scan_once] and the array and object decoders it calls.  The
  functions recurse on [fuel]; [None] means that the fuel ran out,
  which [loads] excludes by the amount it provides. *)
Fixpoint scan_once (fuel : nat) (s : pystr) {struct fuel}
: option (scan_result value) :=
match fuel with
| O => None
| S fuel =>
    match s with
    | [] => Some (inl (expecting_value, s))
    | c :: rest =>
        if (c =? 34)%N then
          Some (match scanstring s rest [] with
                | inl e => inl e
                | inr (x, r) => inr (JStr x, r)
                end)
        else if (c =? 123)%N then JSONObject fuel rest
        else if (c =? 91)%N then JSONArray fuel rest
        else
          match strip_prefix (str "null") s,
                strip_prefix (str "true") s,
                strip_prefix (str "false") s with
          | Some r, _, _ => Some (inr (JNull, r))
          | _, Some r, _ => Some (inr (JBool true, r))
          | _, _, Some r => Some (inr (JBool false, r))
          | None, None, None =>
              match match_number s with
              | Some res => Some (inr res)
              | None =>
                  match strip_prefix (str "NaN") s,
                        strip_prefix (str "Infinity") s,
                        strip_prefix (str "-Infinity") s with
                  | Some r, _, _ => Some (inr (JNonFinite NaN, r))
                  | _, Some r, _ => Some (inr (JNonFinite PosInf, r))
                  | _, _, Some r => Some (inr (JNonFinite NegInf, r))
                  | None, None, None => Some (inl (expecting_value, s))
                  end
              end
          end
    end
end

with JSONArray (fuel : nat) (s : pystr) {struct fuel}
: option (scan_result value) :=
match fuel with
| O => None
| S fuel =>
    let s1 := skip_ws s in
    match s1 with
    | c :: rest =>
        if (c =? 93)%N then Some (inr (JArr [], rest))
        else array_items fuel s1 []
    | [] => array_items fuel s1 []
    end
end

with array_items (fuel : nat) (s : pystr) (values : list value)
     {struct fuel} : option (scan_result value) :=
match fuel with
| O => None
| S fuel =>
    match scan_once fuel s with
    | None => None
    | Some (inl e) => Some (inl e)
    | Some (inr (v, s1)) =>
        let s2 := skip_ws s1 in
        match s2 with
        | c :: rest =>
            if (c =? 93)%N then Some (inr (JArr (values ++ [v]), rest))
            else if (c =? 44)%N
                 then array_items fuel (skip_ws rest) (values ++ [v])
                 else Some (inl (expecting_comma, s2))
        | [] => Some (inl (expecting_comma, s2))
        end
    end
end

with JSONObject (fuel : nat) (s : pystr) {struct fuel}
: option (scan_result value) :=
match fuel with
| O => None
| S fuel =>
    let s1 := skip_ws s in
    match s1 with
    | c :: rest =>
        if (c =? 125)%N then Some (inr (JObj [], rest))
        else object_items fuel s1 []
    | [] => object_items fuel s1 []
    end
end

with object_items (fuel : nat) (s : pystr) (pairs : list (pystr * value))
     {struct fuel} : option (scan_result value) :=
match fuel with
| O => None
| S fuel =>
    match s with
    | c :: after_quote =>
        if (c =? 34)%N then
          match scanstring s after_quote [] with
          | inl e => Some (inl e)
          | inr (key, s1) =>
              let s2 := skip_ws s1 in
              match s2 with
              | c2 :: s3 =>
                  if (c2 =? 58)%N then
                    match scan_once fuel (skip_ws s3) with
                    | None => None
                    | Some (inl e) => Some (inl e)
                    | Some (inr (v, s4)) =>
                        let s5 := skip_ws s4 in
                        match s5 with
                        | c3 :: rest =>
                            if (c3 =? 125)%N
                            then Some (inr (JObj (dict_set pairs key v),
                                            rest))
                            else if (c3 =? 44)%N
                                 then object_items fuel (skip_ws rest)
                                        (dict_set pairs key v)
                                 else Some (inl (expecting_comma, s5))
                        | [] => Some (inl (expecting_comma, s5))
                        end
                    end
                  else Some (inl (expecting_colon, s2))
              | [] => Some (inl (expecting_colon, s2))
              end
          end
        else Some (inl (expecting_name, s))
    | [] => Some (inl (expecting_name, s))
    end
end.

Definition fuel_for (s : pystr) : nat := 3 * length s + 3.

(** [json.loads(s)] with an explicit amount of fuel: one value,
  surrounded by optional white space. *)
Definition loads_fuel (fuel : nat) (s : pystr)
: option (JSONDecodeError + value) :=
let at_ (rest : pystr) := length s - length rest in
match scan_once fuel (skip_ws s) with
| None => None
| Some (inl (m, rest)) => Some (inl (mkError m s (at_ rest)))
| Some (inr (v, rest)) =>
    match skip_ws rest with
    | [] => Some (inr v)
    | extra => Some (inl (mkError (str "Extra data") s (at_ extra)))
    end
end.

(** [json.loads(s)].  The fuel [fuel_for s] always suffices (lemma
  [loads_fuel_enough] below), so the last branch is never taken. *)
Definition loads (s : pystr) : JSONDecodeError + value :=
match loads_fuel (fuel_for s) s with
| Some r => r
| None => inl (mkError expecting_value s 0)
end.

(** *** Encoding ([json.dumps] with [indent=2]) *)

Definition hex_digit (d : N) : N :=
if (d <? 10)%N then (48 + d)%N else (87 + d)%N.

(** [format(n, "04x")] for [n < 65536] *)
Definition hex4_chars (n : N) : pystr :=
[hex_digit ((n / 4096) mod 16); hex_digit ((n / 256) mod 16);
 hex_digit ((n / 16) mod 16); hex_digit (n mod 16)]%N.

(** The replacement of one character by [encode_basestring_ascii]. *)
Definition escape_char (c : N) : pystr :=
if (c =? 34)%N then [92; 34]%N
else if (c =? 92)%N then [92; 92]%N
else if ((32 <=? c) && (c <=? 126))%N then [c]
else if (c =? 8)%N then [92; 98]%N
else if (c =? 12)%N then [92; 102]%N
else if (c =? 10)%N then [92; 110]%N
else if (c =? 13)%N then [92; 114]%N
else if (c =? 9)%N then [92; 116]%N
else if (c <? 65536)%N then [92; 117]%N ++ hex4_chars c
else
  let n := (c - 65536)%N in
  let s1 := N.lor 55296 (N.land (N.shiftr n 10) 1023) in
  let s2 := N.lor 56320 (N.land n 1023) in
  [92; 117]%N ++ hex4_chars s1 ++ [92; 117]%N ++ hex4_chars s2.

Definition encode_string (s : pystr) : pystr :=
dq ++ flat_map escape_char s ++ dq.

(** Decimal digits and decimal-point position of a non-negative
  rational [n/d] with a finite decimal expansion: the value is
  [0.d1d2...dn * 10^decpt], without trailing zeros. *)
Fixpoint decimal_places (fuel k : nat) (den : Z) : option nat :=
if (10 ^ Z.of_nat k mod den =? 0)%Z then Some k
else match fuel with
     | O => None
     | S fuel => decimal_places fuel (S k) den
     end.

Fixpoint strip_zeros (rev_digits : pystr) (dropped : nat) : pystr * nat :=
match rev_digits with
| c :: t =>
    if (c =? 48)%N
    then match t with
         | [] => (rev_digits, dropped)
         | _ => strip_zeros t (S dropped)
         end
    else (rev_digits, dropped)
| [] => ([], dropped)
end.

Definition float_digits (q : Q) : pystr * Z :=
let q := Qred q in
let num := Z.abs (Qnum q) in
let den := Z.pos (Qden q) in
let k := match decimal_places (Pos.size_nat (Qden q)) 0 den with
         | Some k => k
         | None => 17
         end in
let m := (num * 10 ^ Z.of_nat k / den)%Z in
let (rd, zeros) := strip_zeros (rev (digits (Z.to_N m))) 0 in
if (m =? 0)%Z then (str "0", 1%Z)
else (rev rd, (Z.of_nat (length rd) + Z.of_nat zeros - Z.of_nat k)%Z).

(** [float.__repr__]: fixed notation when the decimal point lies within
  [-4 < decpt <= 16], scientific notation otherwise.  A rational
  without a finite decimal expansion denotes no float; it is rendered
  from its first 17 decimal places. *)
Definition float_repr (q : Q) : pystr :=
let (ds, decpt) := float_digits q in
let n := Z.of_nat (length ds) in
let sign := if float_lt q 0 then str "-" else [] in
sign ++
if ((decpt <=? -4) || (16 <? decpt))%Z then
  let e := (decpt - 1)%Z in
  firstn 1 ds
  ++ (match skipn 1 ds with [] => [] | more => str "." ++ more end)
  ++ str "e" ++ (if (e <? 0)%Z then str "-" else str "+")
  ++ format_02d (Z.abs e)
else if (decpt <=? 0)%Z then
  str "0." ++ repeat 48%N (Z.to_nat (- decpt)) ++ ds
else if (n <=? decpt)%Z then
  ds ++ repeat 48%N (Z.to_nat (decpt - n)) ++ str ".0"
else
  firstn (Z.to_nat decpt) ds ++ str "." ++ skipn (Z.to_nat decpt) ds.

(** A line feed followed by the indentation of the given level. *)
Definition newline_indent (level : nat) : pystr :=
nl ++ repeat 32%N (2 * level).

(** [json.dumps(v, indent=2)] at the given nesting level. *)
Fixpoint dumps_at (level : nat) (v : value) : pystr :=
match v with
| JNull => str "null"
| JBool true => str "true"
| JBool false => str "false"
| JInt z => str_int z
| JFloat q => float_repr q
| JNonFinite NaN => str "NaN"
| JNonFinite PosInf => str "Infinity"
| JNonFinite NegInf => str "-Infinity"
| JStr s => encode_string s
| JArr [] => str "[]"
| JArr items =>
    str "[" ++ newline_indent (S level)
    ++ join (str "," ++ newline_indent (S level))
         (List.map (dumps_at (S level)) items)
    ++ newline_indent level ++ str "]"
| JObj [] => str "{}"
| JObj members =>
    str "{" ++ newline_indent (S level)
    ++ join (str "," ++ newline_indent (S level))
         (List.map (fun kv => encode_string (fst kv) ++ str ": "
                              ++ dumps_at (S level) (snd kv)) members)
    ++ newline_indent level ++ str "}"
end.

Definition dumps (v : value) : pystr := dumps_at 0 v.

End Json.

(* ===================================================================== *)
(** * Exceptions and the monad of the generation code *)
(* ===================================================================== *)

Inductive exn :=
| LLMError (msg : pystr)
| GenerationError (msg : pystr)
| JSONDecodeError (e : Json.JSONDecodeError)
| TypeError (msg : pystr)
| AttributeError (msg : pystr)
| ValidationError (model : pystr)
| OtherException (name msg : pystr).

(** The outcome of code that may raise: [inl e] is [raise e]. *)
Definition result (A : Type) : Type := exn + A.

Fixpoint mapM {A B : Type} (f : A -> result B) (l : list A) : result (list B) :=
  match l with
  | [] => inr []
  | x :: rest =>
      match f x with
      | inl e => inl e
      | inr y =>
          match mapM f rest with
          | inl e => inl e
          | inr ys => inr (y :: ys)
          end
      end
  end.

(** One call [client.generate(prompt, max_tokens, temperature)]. *)
Record Call := mkCall {
  call_prompt : pystr;
  call_max_tokens : Z;
  call_temperature : Q
}.

(** The text-generation collaborator ([llm.ClaudeClient.generate], with its
    retries): from its own state [S], a call returns text or raises. *)
Record ClaudeClient (S : Type) := mkClient {
  generate : pystr -> Z -> Q -> S -> result pystr * S
}.
Arguments generate {S} _ _ _ _ _.

(** What a run of the generation code can observe and change: the state
    of the collaborator and the calls made so far, oldest first. *)
Record World (S : Type) := mkWorld { llm_state : S; calls : list Call }.
Arguments mkWorld {S} _ _.
Arguments llm_state {S} _.
Arguments calls {S} _.

Definition M (S A : Type) : Type := World S -> result A * World S.

Definition ret {S A : Type} (x : A) : M S A := fun w => (inr x, w).
Definition raise {S A : Type} (e : exn) : M S A := fun w => (inl e, w).
Definition bind {S A B : Type} (m : M S A) (k : A -> M S B) : M S B :=
  fun w =>
    match m w with
    | (inl e, w') => (inl e, w')
    | (inr x, w') => k x w'
    end.
Definition lift {S A : Type} (r : result A) : M S A := fun w => (r, w).

Declare Scope gen_scope.
Delimit Scope gen_scope with gen.
Notation "'let*' x := m 'in' k" := (bind m (fun x => k))
  (at level 10, x name, m at level 100, k at level 200) : gen_scope.

(** [client.generate(prompt, temperature=t)], with the default
    [max_tokens=4096]. *)
Definition client_generate {S : Type} (client : ClaudeClient S)
    (prompt : pystr) (temperature : Q) : M S pystr :=
  fun w =>
    let (r, s') := generate client prompt 4096%Z temperature (llm_state w) in
    (r, mkWorld s' (calls w ++ [mkCall prompt 4096%Z temperature])).

(* ===================================================================== *)
(** * pydantic: construction of the models from decoded JSON *)
(* ===================================================================== *)

Module Pydantic.
Import Json.

(** A [str] field takes a string and nothing else. *)
Definition validate_str (v : value) : option pystr :=
match v with
| JStr s => Some s
| _ => None
end.

(** A string that spells a number: an optional sign and a JSON number,
  with surrounding white space. *)
Definition float_of_str (s : pystr) : option Q :=
let body := strip s in
let unsigned :=
  match body with
  | c :: t => if (c =? 43)%N then t else body
  | [] => body
  end in
match match_number unsigned with
| Some (JInt z, []) => Some (inject_Z z)
| Some (JFloat q, []) => Some q
| _ => None
end.

(** A [float] field takes a number, a boolean or a string that spells a
  number.  The non-finite constants are outside this model of floats
  and are refused here. *)
Definition validate_float (v : value) : option Q :=
match v with
| JInt z => Some (inject_Z z)
| JFloat q => Some q
| JBool b => Some (if b then 1%Q else 0%Q)
| JStr s => float_of_str s
| _ => None
end.

(** The Python type name of a decoded value, for error messages. *)
Definition type_name (v : value) : pystr :=
match v with
| JNull => str "NoneType"
| JBool _ => str "bool"
| JInt _ => str "int"
| JFloat _ | JNonFinite _ => str "float"
| JStr _ => str "str"
| JArr _ => str "list"
| JObj _ => str "dict"
end.

(** [for x in v]: the elements of a list, the keys of a dict, the
  characters of a string. *)
Definition iterate (v : value) : result (list value) :=
match v with
| JArr items => inr items
| JObj members => inr (List.map (fun kv => JStr (fst kv)) members)
| JStr s => inr (List.map (fun c => JStr [c]) s)
| _ => inl (TypeError (str "'" ++ type_name v ++ str "' object is not iterable"))
end.

(** [x.get(key, default)] *)
Definition get (x : value) (key : pystr) (default : value) : result value :=
match x with
| JObj members => inr (dict_get members key default)
| _ => inl (AttributeError
              (str "'" ++ type_name x ++ str "' object has no attribute 'get'"))
end.
End Pydantic.

(* ===================================================================== *)
(** * prompts.py *)
(* ===================================================================== *)

(** [DESCRIPTION_PROMPT.format(transcript=...)] *)
Definition DESCRIPTION_PROMPT (transcript : pystr) : pystr :=
  str "You are an expert YouTube content strategist. Create an engaging YouTube description for this podcast episode.

TRANSCRIPT:
"
  ++ transcript
  ++ str "

Create a YouTube description with these sections:
1. **Hook** (2-3 compelling sentences that grab attention and create curiosity)
2. **Summary** (3-5 bullet points covering the main topics/takeaways)
3. **Call to Action** (subscribe, like, comment prompt)

Guidelines:
- Write in an engaging, conversational tone
- Include relevant keywords naturally for SEO
- Keep the total description under 500 words
- Use line breaks for readability
- Don't use hashtags (those go separately)

Output ONLY the description text, no additional commentary.".

(** [TITLES_PROMPT.format(transcript=...)] *)
Definition TITLES_PROMPT (transcript : pystr) : pystr :=
  str "You are a viral YouTube title expert. Generate 10 compelling title variations for this podcast episode.

TRANSCRIPT:
"
  ++ transcript
  ++ str "

For each title, provide:
1. The title (under 60 characters for full display)
2. Thumbnail text (2-4 words that would overlay on a thumbnail)
3. Brief reasoning for why this title works

Use these proven title formulas:
- Curiosity gap (" ++ dq ++ str "I Tried X for 30 Days..." ++ dq ++ str ")
- Contrarian take (" ++ dq ++ str "Why X is Actually Wrong" ++ dq ++ str ")
- How-to with benefit (" ++ dq ++ str "How to X (Without Y)" ++ dq ++ str ")
- List format (" ++ dq ++ str "5 Things..." ++ dq ++ str ")
- Story hook (" ++ dq ++ str "The Day I Realized..." ++ dq ++ str ")
- Question format (" ++ dq ++ str "Is X Really Worth It?" ++ dq ++ str ")
- Urgency/Warning (" ++ dq ++ str "Stop Doing X Before..." ++ dq ++ str ")

Output as valid JSON array with this structure:
[
  {
    " ++ dq ++ str "title" ++ dq ++ str ": " ++ dq ++ str "The video title here" ++ dq ++ str ",
    " ++ dq ++ str "thumbnail_text" ++ dq ++ str ": " ++ dq ++ str "SHORT TEXT" ++ dq ++ str ",
    " ++ dq ++ str "reasoning" ++ dq ++ str ": " ++ dq ++ str "Why this works" ++ dq ++ str "
  }
]

Generate exactly 10 unique titles with different approaches. Output ONLY the JSON array.".

(** [CHAPTERS_PROMPT.format(transcript_with_timestamps=..., chapter_count=...)];
    the count is passed already rendered by [str_int] *)
Definition CHAPTERS_PROMPT (transcript_with_timestamps chapter_count : pystr) : pystr :=
  str "You are a podcast editor creating YouTube chapters. Analyze this transcript and identify the major topic transitions.

TRANSCRIPT WITH TIMESTAMPS:
"
  ++ transcript_with_timestamps
  ++ str "

REQUIREMENTS:
- Create "
  ++ chapter_count
  ++ str " chapters that cover the full episode
- First chapter must start at 00:00
- Each chapter should represent a distinct topic or segment
- Titles should be concise (2-6 words) and descriptive
- Align chapter starts to natural topic transitions in the transcript

Output as valid JSON array with this structure:
[
  {
    " ++ dq ++ str "start_time" ++ dq ++ str ": 0.0,
    " ++ dq ++ str "title" ++ dq ++ str ": " ++ dq ++ str "Introduction" ++ dq ++ str ",
    " ++ dq ++ str "description" ++ dq ++ str ": " ++ dq ++ str "Welcome and episode overview" ++ dq ++ str "
  },
  {
    " ++ dq ++ str "start_time" ++ dq ++ str ": 154.5,
    " ++ dq ++ str "title" ++ dq ++ str ": " ++ dq ++ str "Main Topic" ++ dq ++ str ",
    " ++ dq ++ str "description" ++ dq ++ str ": " ++ dq ++ str "Discussion of the core subject" ++ dq ++ str "
  }
]

Use the actual timestamps from the transcript. Output ONLY the JSON array.".

(* ===================================================================== *)
(** * generators.py *)
(* ===================================================================== *)

(** The loop body of [_format_transcript_with_timestamps]: the line of
    one segment. *)
Definition timestamp_line (segment : TranscriptSegment.t) : pystr :=
  let minutes := py_int (float_floordiv (TranscriptSegment.start segment) 60) in
  let seconds := py_int (float_mod (TranscriptSegment.start segment) 60) in
  let timestamp :=
    str "[" ++ format_02d minutes ++ str ":" ++ format_02d seconds ++ str "]" in
  timestamp ++ str " " ++ strip (TranscriptSegment.text segment).

(** [lines = []; for segment in ...: lines.append(...)]; then the lines
    are joined by line feeds. *)
Definition _format_transcript_with_timestamps (transcript : Transcript.t)
  : pystr :=
  let lines :=
    fold_left (fun lines segment => lines ++ [timestamp_line segment])
      (Transcript.segments transcript) [] in
  join nl lines.

(** The regular expression of [_extract_json]: an opening bracket, any
    characters (greedy), a closing bracket. *)

(** The greedy tail: the star first tries to take one more character and
    only when the rest then fails to match does it stop, where a closing
    bracket must follow. *)
Fixpoint match_tail (s : pystr) : option pystr :=
  match s with
  | [] => None
  | c :: t =>
      match match_tail t with
      | Some m => Some (c :: m)
      | None => if (c =? 93)%N then Some [c] else None
      end
  end.

(** The pattern anchored at the head of [s]. *)
Definition match_here (s : pystr) : option pystr :=
  match s with
  | c :: t =>
      if (c =? 91)%N
      then match match_tail t with
           | Some m => Some (c :: m)
           | None => None
           end
      else None
  | [] => None
  end.

(** [re.search]: the match at the leftmost position that has one;
    [match.group(0)] is the text matched. *)
Fixpoint re_search (s : pystr) : option pystr :=
  match match_here s with
  | Some m => Some m
  | None =>
      match s with
      | [] => None
      | _ :: t => re_search t
      end
  end.

Definition _extract_json (text : pystr) : pystr :=
  match re_search text with
  | Some m => m
  | None => text
  end.

Definition truncation_marker : pystr :=
  nl ++ nl ++ str "[... transcript truncated for length ...]".

Definition _truncate_transcript (transcript : Transcript.t) (max_chars : N)
  : pystr :=
  let full_text := Transcript.full_text transcript in
  if (N.of_nat (length full_text) <=? max_chars)%N then full_text
  else slice_to (N.to_nat max_chars) full_text ++ truncation_marker.

(** [Title(title=..., thumbnail_text=..., reasoning=...)] *)
Definition make_Title (title thumbnail_text reasoning : Json.value)
  : result Title.t :=
  match Pydantic.validate_str title, Pydantic.validate_str thumbnail_text,
        Pydantic.validate_str reasoning with
  | Some a, Some b, Some c => inr (Title.mk a b c)
  | _, _, _ => inl (ValidationError (str "Title"))
  end.

(** [Chapter(start_time=..., title=..., description=...)] *)
Definition make_Chapter (start_time title description : Json.value)
  : result Chapter.t :=
  match Pydantic.validate_float start_time, Pydantic.validate_str title,
        Pydantic.validate_str description with
  | Some a, Some b, Some c => inr (Chapter.mk a b c)
  | _, _, _ => inl (ValidationError (str "Chapter"))
  end.

(** One element of the list comprehension of [generate_titles]. *)
Definition title_of (t : Json.value) : result Title.t :=
  match Pydantic.get t (str "title") (Json.JStr []) with
  | inl e => inl e
  | inr a =>
      match Pydantic.get t (str "thumbnail_text") (Json.JStr []) with
      | inl e => inl e
      | inr b =>
          match Pydantic.get t (str "reasoning") (Json.JStr []) with
          | inl e => inl e
          | inr c => make_Title a b c
          end
      end
  end.

(** One element of the list comprehension of [generate_chapters]. *)
Definition chapter_of (c : Json.value) : result Chapter.t :=
  match Pydantic.get c (str "start_time") (Json.JFloat 0) with
  | inl e => inl e
  | inr a =>
      match Pydantic.get c (str "title") (Json.JStr []) with
      | inl e => inl e
      | inr b =>
          match Pydantic.get c (str "description") (Json.JStr []) with
          | inl e => inl e
          | inr d => make_Chapter a b d
          end
      end
  end.

Definition titles_of_data (titles_data : Json.value) : result (list Title.t) :=
  match Pydantic.iterate titles_data with
  | inl e => inl e
  | inr items => mapM title_of items
  end.

Definition chapters_of_data (chapters_data : Json.value)
  : result (list Chapter.t) :=
  match Pydantic.iterate chapters_data with
  | inl e => inl e
  | inr items => mapM chapter_of items
  end.

(** [list.sort(key=...)]: a stable sort that compares the keys with [<].
    An element is put before the first element of the sorted rest whose
    key is not smaller, so equal keys keep their order. *)
Fixpoint insert_by {A : Type} (key : A -> Q) (x : A) (l : list A) : list A :=
  match l with
  | [] => [x]
  | y :: rest =>
      if float_lt (key y) (key x) then y :: insert_by key x rest
      else x :: l
  end.

Definition sort_by {A : Type} (key : A -> Q) (l : list A) : list A :=
  fold_right (insert_by key) [] l.

(** [if chapters and chapters[0].start_time > 0:
       chapters[0].start_time = 0.0] *)
Definition clamp_first (chapters : list Chapter.t) : list Chapter.t :=
  match chapters with
  | first :: rest =>
      if float_gt (Chapter.start_time first) 0
      then Chapter.set_start_time first 0 :: rest
      else chapters
  | [] => []
  end.

(** The post-processing of [generate_chapters]: sort by start time, then
    make the first chapter start at zero. *)
Definition normalize_chapters (chapters : list Chapter.t) : list Chapter.t :=
  clamp_first (sort_by Chapter.start_time chapters).

(** The message of the [GenerationError] raised for undecodable JSON. *)
Definition parse_failure (what : pystr) (e : Json.JSONDecodeError)
    (response : pystr) : pystr :=
  str "Failed to parse " ++ what ++ str " JSON: " ++ Json.error_str e
  ++ nl ++ str "Response: " ++ response.

Section Generators.
Context {S : Type}.
Local Open Scope gen_scope.

Definition generate_description (client : ClaudeClient S)
  (transcript : Transcript.t) : M S pystr :=
let prompt := DESCRIPTION_PROMPT (_truncate_transcript transcript 50000) in
let* description := client_generate client prompt (7 # 10) in
ret (strip description).

Definition generate_titles (client : ClaudeClient S)
  (transcript : Transcript.t) : M S (list Title.t) :=
let prompt := TITLES_PROMPT (_truncate_transcript transcript 50000) in
let* response := client_generate client prompt (8 # 10) in
let json_str := _extract_json response in
match Json.loads json_str with
| inr titles_data => lift (titles_of_data titles_data)
| inl e => raise (GenerationError (parse_failure (str "titles") e response))
end.

(** The prompt of the chapters call. *)
Definition chapters_prompt (transcript : Transcript.t) (chapter_count : Z)
: pystr :=
let transcript_with_ts := _format_transcript_with_timestamps transcript in
let transcript_with_ts :=
  if (50000 <? N.of_nat (length transcript_with_ts))%N
  then slice_to (N.to_nat 50000) transcript_with_ts ++ truncation_marker
  else transcript_with_ts in
CHAPTERS_PROMPT transcript_with_ts (str_int chapter_count).

Definition generate_chapters (client : ClaudeClient S)
  (transcript : Transcript.t) (chapter_count : Z)
: M S (list Chapter.t) :=
let prompt := chapters_prompt transcript chapter_count in
let* response := client_generate client prompt (5 # 10) in
let json_str := _extract_json response in
match Json.loads json_str with
| inr chapters_data =>
    let* chapters := lift (chapters_of_data chapters_data) in
    (* Sort by start time *)
    let chapters := sort_by Chapter.start_time chapters in
    (* Ensure first chapter starts at 0 *)
    let chapters := clamp_first chapters in
    ret chapters
| inl e =>
    raise (GenerationError (parse_failure (str "chapters") e response))
end.

Definition generate_all_content (client : ClaudeClient S)
  (transcript : Transcript.t) (chapter_count : Z)
: M S GeneratedContent.t :=
let* description := generate_description client transcript in
let* titles := generate_titles client transcript in
let* chapters := generate_chapters client transcript chapter_count in
ret (GeneratedContent.mk description titles chapters).
End Generators.

(* ===================================================================== *)
(** * pydantic: [model_dump] and [model_validate] of the models *)
(* ===================================================================== *)

Module Dump.
Import Json.

Definition segment (seg : TranscriptSegment.t) : value :=
JObj [(str "start", JFloat (TranscriptSegment.start seg));
      (str "end", JFloat (TranscriptSegment.end_ seg));
      (str "text", JStr (TranscriptSegment.text seg))].

Definition word (w : WordTimestamp.t) : value :=
JObj [(str "word", JStr (WordTimestamp.word w));
      (str "start", JFloat (WordTimestamp.start w));
      (str "end", JFloat (WordTimestamp.end_ w));
      (str "probability", JFloat (WordTimestamp.probability w))].

(** [transcript.model_dump()] *)
Definition transcript (t : Transcript.t) : value :=
JObj [(str "segments", JArr (List.map segment (Transcript.segments t)));
      (str "words", JArr (List.map word (Transcript.words t)));
      (str "language", JStr (Transcript.language t));
      (str "duration", JFloat (Transcript.duration t))].

(** [t.model_dump()] for a title *)
Definition title (t : Title.t) : value :=
JObj [(str "title", JStr (Title.title t));
      (str "thumbnail_text", JStr (Title.thumbnail_text t));
      (str "reasoning", JStr (Title.reasoning t))].
End Dump.

Module Validate.
Import Json.

(** The value of a key of a dict, if present. *)
Fixpoint lookup_key (members : list (pystr * value)) (k : pystr)
: option value :=
match members with
| [] => None
| (k', v) :: rest => if decide (k' = k) then Some v else lookup_key rest k
end.

(** A field with a default: absent means the default, present means
  validated. *)
Definition with_default {A : Type} (validate : value -> option A)
  (default : A) (field : option value) : option A :=
match field with
| None => Some default
| Some v => validate v
end.

(** A required field. *)
Definition required {A : Type} (validate : value -> option A)
  (field : option value) : option A :=
match field with
| None => None
| Some v => validate v
end.

Fixpoint all_some {A : Type} (l : list (option A)) : option (list A) :=
match l with
| [] => Some []
| Some x :: rest =>
    match all_some rest with
    | Some xs => Some (x :: xs)
    | None => None
    end
| None :: _ => None
end.

(** A field of type [list[X]]. *)
Definition list_of {A : Type} (validate : value -> option A) (v : value)
: option (list A) :=
match v with
| JArr items => all_some (List.map validate items)
| _ => None
end.

Definition segment (v : value) : option TranscriptSegment.t :=
match v with
| JObj members =>
    match required Pydantic.validate_float (lookup_key members (str "start")),
          required Pydantic.validate_float (lookup_key members (str "end")),
          required Pydantic.validate_str (lookup_key members (str "text")) with
    | Some a, Some b, Some c => Some (TranscriptSegment.mk a b c)
    | _, _, _ => None
    end
| _ => None
end.

Definition word (v : value) : option WordTimestamp.t :=
match v with
| JObj members =>
    match required Pydantic.validate_str (lookup_key members (str "word")),
          required Pydantic.validate_float (lookup_key members (str "start")),
          required Pydantic.validate_float (lookup_key members (str "end")),
          required Pydantic.validate_float
            (lookup_key members (str "probability")) with
    | Some a, Some b, Some c, Some d => Some (WordTimestamp.mk a b c d)
    | _, _, _, _ => None
    end
| _ => None
end.

(** [Transcript.model_validate(data)] *)
Definition transcript (data : value) : result Transcript.t :=
match data with
| JObj members =>
    match with_default (list_of segment) []
            (lookup_key members (str "segments")),
          with_default (list_of word) []
            (lookup_key members (str "words")),
          with_default Pydantic.validate_str (str "en")
            (lookup_key members (str "language")),
          with_default Pydantic.validate_float 0%Q
            (lookup_key members (str "duration")) with
    | Some a, Some b, Some c, Some d => inr (Transcript.mk a b c d)
    | _, _, _, _ => inl (ValidationError (str "Transcript"))
    end
| _ => inl (ValidationError (str "Transcript"))
end.
End Validate.

(* ===================================================================== *)
(** * cli.py *)
(* ===================================================================== *)

(** A path is the list of its components; [p / name] appends one. *)
Abbreviation Path := (list pystr).

Definition path_join (p : Path) (name : pystr) : Path := p ++ [name].

(** The part of the file system the writer touches: the directories that
    exist and the contents of the regular files.  Failures of the
    operating system are not modelled. *)
Record FileSystem := mkFS {
  dirs : gset (list pystr);
  files : gmap (list pystr) pystr
}.

(** The path itself and all its ancestors. *)
Definition ancestors (p : Path) : list Path :=
  List.map (fun n => firstn n p) (seq 0 (S (length p))).

(** [p.mkdir(parents=True, exist_ok=True)] *)
Definition mkdir_parents (p : Path) (fs : FileSystem) : FileSystem :=
  mkFS (list_to_set (ancestors p) ∪ dirs fs) (files fs).

(** [with open(p, "w") as f: f.write(contents)] *)
Definition write_file (p : Path) (contents : pystr) (fs : FileSystem)
  : FileSystem :=
  mkFS (dirs fs) (<[p := contents]> (files fs)).

(** The lines written to [chapters.txt]. *)
Definition chapters_text (chapters : list Chapter.t) : pystr :=
  flat_map (fun chapter => Chapter.to_youtube_format chapter ++ nl) chapters.

Definition _save_outputs (output_dir : Path) (transcript : Transcript.t)
    (content : option GeneratedContent.t) (fs : FileSystem) : FileSystem :=
  let fs := mkdir_parents output_dir fs in
  (* Save transcript JSON *)
  let transcript_json := path_join output_dir (str "transcript.json") in
  let fs := write_file transcript_json
              (Json.dumps (Dump.transcript transcript)) fs in
  (* Save transcript plain text *)
  let transcript_txt := path_join output_dir (str "transcript.txt") in
  let fs := write_file transcript_txt (Transcript.full_text transcript) fs in
  match content with
  | Some content =>
      (* Save description *)
      let fs :=
        match GeneratedContent.description content with
        | _ :: _ =>
            write_file (path_join output_dir (str "description.md"))
              (GeneratedContent.description content) fs
        | [] => fs
        end in
      (* Save titles *)
      let fs :=
        match GeneratedContent.titles content with
        | _ :: _ =>
            write_file (path_join output_dir (str "titles.json"))
              (Json.dumps
                 (Json.JArr (List.map Dump.title (GeneratedContent.titles content))))
              fs
        | [] => fs
        end in
      (* Save chapters *)
      match GeneratedContent.chapters content with
      | _ :: _ =>
          write_file (path_join output_dir (str "chapters.txt"))
            (chapters_text (GeneratedContent.chapters content)) fs
      | [] => fs
      end
  | None => fs
  end.

(** The loading of a persisted transcript in the [generate] command:
    [json.load] of the file, then [Transcript.model_validate].  The
    command checks beforehand that the file exists. *)
Definition load_transcript (transcript_file : Path) (fs : FileSystem)
  : option (result Transcript.t) :=
  match files fs !! transcript_file with
  | None => None
  | Some text =>
      Some (match Json.loads text with
            | inl e => inl (JSONDecodeError e)
            | inr transcript_data => Validate.transcript transcript_data
            end)
  end.

(* ===================================================================== *)
(** * llm.py *)
(* ===================================================================== *)

Module Anthropic.

(** The keyword arguments of [client.messages.create]; the messages are
    the single user message that holds the prompt. *)
Record Request := mkRequest {
  model : pystr;
  max_tokens : Z;
  temperature : Q;
  user_content : pystr
}.

(** What a request does: it returns a message, given by the texts of its
    content blocks, or raises.  The exceptions that [generate] handles
    are told apart and carry [str(e)]; [RateLimitError] is a subclass of
    [APIStatusError], so [APIStatusError] stands here for the status
    errors that are not rate limits. *)
Inductive Outcome :=
| Message (content : list pystr)
| APIConnectionError (e : pystr)
| RateLimitError (e : pystr)
| APIStatusError (e : pystr)
| Raises (e : exn).

(** The service behind [anthropic.Anthropic(api_key=...)]: from its own
    state, a request made with a key has an outcome. *)
Record Service (B : Type) := mkService {
  messages_create : pystr -> Request -> B -> Outcome * B
}.
Arguments messages_create {B} _ _ _ _.
End Anthropic.

Module Llm.

(** The attributes of a [ClaudeClient]: the model and the key its
    [anthropic.Anthropic] client was made with. *)
Record ClaudeClient := mkClaudeClient {
  self_model : pystr;
  self_api_key : pystr
}.

(** [ClaudeClient(api_key, model)] *)
Definition __init__ (api_key model : pystr) : result ClaudeClient :=
  match api_key with
  | [] =>
      inl (LLMError
             (str "Anthropic API key not provided. "
              ++ str "Set ANTHROPIC_API_KEY environment variable or pass --api-key."))
  | _ :: _ => inr (mkClaudeClient model api_key)
  end.

(** The state of the service and the requests made so far, oldest
    first, each with the key it was made with. *)
Record Backend (B : Type) := mkBackend {
  service_state : B;
  requests : list (pystr * Anthropic.Request)
}.
Arguments mkBackend {B} _ _.
Arguments service_state {B} _.
Arguments requests {B} _.

(** The body of [generate]: one request and the reading of its
    outcome. *)
Definition attempt {B : Type} (service : Anthropic.Service B)
    (self : ClaudeClient) (prompt : pystr) (max_tokens : Z) (temperature : Q)
    (b : Backend B) : result pystr * Backend B :=
  let request :=
    Anthropic.mkRequest (self_model self) max_tokens temperature prompt in
  let (message, s') :=
    Anthropic.messages_create service (self_api_key self) request
      (service_state b) in
  let b' := mkBackend s' (requests b ++ [(self_api_key self, request)]) in
  match message with
  | Anthropic.Message (block :: _) => (inr block, b')
  | Anthropic.Message [] =>
      (inl (LLMError (str "Empty response from Claude API")), b')
  | Anthropic.APIConnectionError e =>
      (inl (LLMError (str "Failed to connect to Anthropic API: " ++ e)), b')
  | Anthropic.RateLimitError e =>
      (inl (LLMError (str "Rate limit exceeded: " ++ e)), b')
  | Anthropic.APIStatusError e =>
      (inl (LLMError (str "API error: " ++ e)), b')
  | Anthropic.Raises e => (inl e, b')
  end.

(** tenacity's [retry(stop=stop_after_attempt(n), reraise=True)] around
    a call: an attempt that raises is followed by another one, until the
    last, whose exception is raised as it is.  [more] counts the attempts
    allowed after this one.  The waits between attempts take time and
    change nothing else; they are not modelled. *)
Fixpoint retrying {B A : Type} (more : nat) (call : B -> result A * B)
    (b : B) : result A * B :=
  match call b with
  | (inr x, b') => (inr x, b')
  | (inl e, b') =>
      match more with
      | O => (inl e, b')
      | Datatypes.S fewer => retrying fewer call b'
      end
  end.

(** [generate], under [stop_after_attempt(3)]: a first attempt and at
    most two more. *)
Definition generate {B : Type} (service : Anthropic.Service B)
    (self : ClaudeClient) (prompt : pystr) (max_tokens : Z) (temperature : Q)
  : Backend B -> result pystr * Backend B :=
  retrying 2 (attempt service self prompt max_tokens temperature).

End Llm.

(** The client as the collaborator of the generation code. *)
Definition client_of {B : Type} (service : Anthropic.Service B)
    (self : Llm.ClaudeClient) : ClaudeClient (Llm.Backend B) :=
  mkClient (Llm.Backend B) (Llm.generate service self).

(* ===================================================================== *)
(** * cli.py: the summary *)
(* ===================================================================== *)

(** What is handed to [console.print]: text, a panel or a table, with
    the arguments they are built from.  Their rendering is rich's. *)
Module Rich.
Record Column := mkColumn {
  header : pystr;
  style : pystr;
  width : option Z
}.
Record Table := mkTable {
  title : pystr;
  show_header : bool;
  header_style : pystr;
  columns : list Column;
  rows : list (list pystr)
}.
Definition add_column (table : Table) (column : Column) : Table :=
  mkTable (title table) (show_header table) (header_style table)
    (columns table ++ [column]) (rows table).
Definition add_row (table : Table) (row : list pystr) : Table :=
  mkTable (title table) (show_header table) (header_style table)
    (columns table) (rows table ++ [row]).
End Rich.

(** [enumerate(l, start)] *)
Fixpoint enumerate {A : Type} (start : Z) (l : list A) : list (Z * A) :=
  match l with
  | [] => []
  | x :: rest => (start, x) :: enumerate (start + 1) rest
  end.

(** The table of the titles: the first five, numbered from one, and a
    last row that counts the others. *)
Definition titles_table (titles : list Title.t) : Rich.Table :=
  let table := Rich.mkTable (str "Generated Titles") true (str "bold") [] [] in
  let table := Rich.add_column table (Rich.mkColumn (str "#") (str "dim") (Some 3%Z)) in
  let table := Rich.add_column table (Rich.mkColumn (str "Title") (str "cyan") None) in
  let table := Rich.add_column table (Rich.mkColumn (str "Thumbnail") (str "yellow") None) in
  let table :=
    fold_left
      (fun table (numbered : Z * Title.t) =>
         let (i, title) := numbered in
         Rich.add_row table
           [str_int i; Title.title title; Title.thumbnail_text title])
      (enumerate 1 (firstn 5 titles)) table in
  if (5 <? Z.of_nat (length titles))%Z
  then Rich.add_row table
         [str "...";
          str "(+" ++ str_int (Z.of_nat (length titles) - 5)
          ++ str " more in titles.json)";
          []]
  else table.



(* ===================================================================== *)
(** * cli.py: the commands *)
(* ===================================================================== *)

(** The fields of [config.Settings], as [get_settings()] returns them. *)
Module Settings.
Record t := mk {
  anthropic_api_key : pystr;
  whisper_model : pystr;
  claude_model : pystr;
  default_output_dir : Path;
  default_chapter_count : Z
}.
End Settings.

(** The transcriber the commands use ([WhisperLocalTranscriber]): from
    the name of the model, the path of the audio file, the file system
    and its own state, it returns a transcript or raises. *)
Module Transcriber.
Inductive Outcome :=
| Transcribed (transcript : Transcript.t)
| TranscriptionError (msg : pystr)
| Raises (e : exn).
Record t (W : Type) := mk {
  transcribe : pystr -> Path -> FileSystem -> W -> Outcome * W
}.
Arguments transcribe {W} _ _ _ _ _.
End Transcriber.

(** [p.exists()] *)
Definition path_exists (p : Path) (fs : FileSystem) : bool :=
  bool_decide (is_Some (files fs !! p) \/ p ∈ dirs fs).

(** [p / name] for a name that is a single component or empty; joining
    the empty string changes nothing. *)
Definition path_div (p : Path) (name : pystr) : Path :=
  match name with
  | [] => p
  | _ :: _ => path_join p name
  end.

Module Cli.

(** How a command ends: it returns, it raises [typer.Exit(code)], or
    another exception leaves it. *)
Inductive Finished :=
| Returned
| Exit (code : Z)
| Uncaught (e : exn).

(** What the commands read and change: the file system, the generation
    calls with the service behind them, and the transcriber's state.
    What they print, the summary included, is left out. *)
Record State (B W : Type) := mkState {
  fs : FileSystem;
  generation : World (Llm.Backend B);
  whisper : W
}.
Arguments mkState {B W} _ _ _.
Arguments fs {B W} _.
Arguments generation {B W} _.
Arguments whisper {B W} _.

(** [api_key or settings.anthropic_api_key] *)
Definition resolved_api_key (api_key : option pystr) (settings : Settings.t)
  : pystr :=
  match api_key with
  | Some (c :: key) => c :: key
  | Some [] | None => Settings.anthropic_api_key settings
  end.

Section Commands.
Context {B W : Type}.
Variable service : Anthropic.Service B.
Variable transcriber : Transcriber.t W.
(** [Path.stem] and [Path.parent] of pathlib. *)
Variable stem : Path -> pystr.
Variable parent : Path -> Path.

(** The handlers of [process]: [except LLMError]; the transcription
    error has its own, below. *)
Definition process_handler (e : exn) : Finished :=
  match e with
  | LLMError _ => Exit 1
  | _ => Uncaught e
  end.

Definition process (audio_file : Path) (output : option Path)
  (whisper_model : pystr) (chapters : Z) (api_key : option pystr)
  (settings : Settings.t) (st : State B W) : Finished * State B W :=
(* Resolve API key *)
match resolved_api_key api_key settings with
| [] => (Exit 1, st)
| (_ :: _) as resolved_api_key =>
    (* Resolve output directory *)
    let output_dir :=
      match output with
      | Some output => output
      | None =>
          path_div (Settings.default_output_dir settings) (stem audio_file)
      end in
    (* Transcribe *)
    let (transcription, whisper') :=
      Transcriber.transcribe transcriber whisper_model audio_file (fs st)
        (whisper st) in
    match transcription with
    | Transcriber.TranscriptionError _ =>
        (Exit 1, mkState (fs st) (generation st) whisper')
    | Transcriber.Raises e =>
        (process_handler e, mkState (fs st) (generation st) whisper')
    | Transcriber.Transcribed transcript =>
        (* Generate content *)
        match Llm.__init__ resolved_api_key (Settings.claude_model settings) with
        | inl e => (process_handler e, mkState (fs st) (generation st) whisper')
        | inr client =>
            let (content, generation') :=
              generate_all_content (client_of service client)
                transcript chapters (generation st) in
            match content with
            | inl e => (process_handler e, mkState (fs st) generation' whisper')
            | inr content =>
                (* Save outputs *)
                let fs' :=
                  _save_outputs output_dir transcript (Some content) (fs st) in
                (Returned, mkState fs' generation' whisper')
            end
        end
    end
end.

Definition transcribe (audio_file : Path) (output : option Path)
  (whisper_model : pystr) (settings : Settings.t) (st : State B W)
: Finished * State B W :=
(* Resolve output directory *)
let output_dir :=
  match output with
  | Some output => output
  | None => path_div (Settings.default_output_dir settings) (stem audio_file)
  end in
(* Transcribe *)
let (transcription, whisper') :=
  Transcriber.transcribe transcriber whisper_model audio_file (fs st)
    (whisper st) in
match transcription with
| Transcriber.TranscriptionError _ =>
    (Exit 1, mkState (fs st) (generation st) whisper')
| Transcriber.Raises e => (Uncaught e, mkState (fs st) (generation st) whisper')
| Transcriber.Transcribed transcript =>
    (* Save outputs (transcript only) *)
    let fs' := _save_outputs output_dir transcript None (fs st) in
    (Returned, mkState fs' (generation st) whisper')
end.

(** The handlers of [generate]: [except json.JSONDecodeError] and
    [except LLMError]. *)
Definition generate_handler (e : exn) : Finished :=
  match e with
  | JSONDecodeError _ => Exit 1
  | LLMError _ => Exit 1
  | _ => Uncaught e
  end.

Definition generate (transcript_file : Path) (output : option Path)
  (chapters : Z) (api_key : option pystr) (settings : Settings.t)
  (st : State B W) : Finished * State B W :=
(* Resolve API key *)
match resolved_api_key api_key settings with
| [] => (Exit 1, st)
| (_ :: _) as resolved_api_key =>
    if negb (path_exists transcript_file (fs st)) then (Exit 1, st)
    else
      (* Resolve output directory *)
      let output_dir :=
        match output with
        | Some output => output
        | None => parent transcript_file
        end in
      (* Load transcript *)
      match load_transcript transcript_file (fs st) with
      | None =>
          (* the path is a directory: [open] raises; the text of the
             operating system's message is left out *)
          (generate_handler (OtherException (str "IsADirectoryError") []), st)
      | Some (inl e) => (generate_handler e, st)
      | Some (inr transcript) =>
          (* Generate content *)
          match Llm.__init__ resolved_api_key (Settings.claude_model settings) with
          | inl e => (generate_handler e, st)
          | inr client =>
              let (content, generation') :=
                generate_all_content (client_of service client)
                  transcript chapters (generation st) in
              match content with
              | inl e =>
                  (generate_handler e, mkState (fs st) generation' (whisper st))
              | inr content =>
                  (* Save outputs *)
                  let fs' :=
                    _save_outputs output_dir transcript (Some content) (fs st) in
                  (Returned, mkState fs' generation' (whisper st))
              end
          end
      end
end.
End Commands.
End Cli.

(* ===================================================================== *)
(** * transcriber.py *)
(* ===================================================================== *)

(** What faster-whisper hands over: segments with their words, and the
    information on the audio. *)
Module FasterWhisper.
Module Word.
Record t := mk { start : Q; end_ : Q; word : pystr; probability : Q }.
End Word.
Module Segment.
Record t := mk {
  start : Q;
  end_ : Q;
  text : pystr;
  words : option (list Word.t)
}.
End Segment.
Module TranscriptionInfo.
Record t := mk { language : pystr; duration : Q }.
End TranscriptionInfo.

(** [WhisperModel(model_name, device=..., compute_type=...)] gives a
    model or raises. *)
Inductive Loading (H : Type) :=
| Loaded (model : H)
| LoadingRaises (e : exn).
Arguments Loaded {H} _.
Arguments LoadingRaises {H} _.

(** [model.transcribe(path, language=..., word_timestamps=True,
    vad_filter=True)], with the segments iterated to the end: the
    segments and the information, or an exception on the way. *)
Inductive Transcribing :=
| Segments (segments : list Segment.t) (info : TranscriptionInfo.t)
| TranscribingRaises (e : exn).

(** The library, with its own state [L] and its models [H]. *)
Record Library (L H : Type) := mkLibrary {
  WhisperModel : pystr -> pystr -> pystr -> L -> Loading H * L;
  transcribe : H -> pystr -> option pystr -> L -> Transcribing * L
}.
Arguments WhisperModel {L H} _ _ _ _ _.
Arguments transcribe {L H} _ _ _ _ _.
End FasterWhisper.

Definition SUPPORTED_FORMATS : list pystr :=
  [str ".mp3"; str ".wav"; str ".m4a"; str ".flac"; str ".ogg"; str ".webm"].

Module WhisperLocalTranscriber.

(** The attributes of a transcriber. *)
Record t (H : Type) := mk {
  model_name : pystr;
  device : pystr;
  compute_type : pystr;
  _model : option H
}.
Arguments mk {H} _ _ _ _.
Arguments model_name {H} _.
Arguments device {H} _.
Arguments compute_type {H} _.
Arguments _model {H} _.

(** [WhisperLocalTranscriber(model_name, device, compute_type)] *)
Definition __init__ {H : Type} (model_name device compute_type : pystr)
  : t H :=
  mk model_name device compute_type None.

Section Transcribe.
Context {L H : Type}.
Variable library : FasterWhisper.Library L H.
(** [str(path)], [path.suffix] and [str.lower] of the standard library,
    and the order in which the set [SUPPORTED_FORMATS] is iterated. *)
Variable path_str : Path -> pystr.
Variable suffix : Path -> pystr.
Variable lower : pystr -> pystr.
Variable formats_in_order : list pystr.

(** [_load_model]: the model is loaded at the first use and kept. *)
Definition _load_model (self : t H) (l : L)
  : (exn + H) * t H * L :=
  match _model self with
  | None =>
      let (loading, l') :=
        FasterWhisper.WhisperModel library (model_name self) (device self)
          (compute_type self) l in
      match loading with
      | FasterWhisper.Loaded model =>
          (inr model,
           mk (model_name self) (device self) (compute_type self) (Some model),
           l')
      | FasterWhisper.LoadingRaises e => (inl e, self, l')
      end
  | Some model => (inr model, self, l)
  end.

(** The body of the loop over the segments: the segment is appended to
    the list of segments and its words, if it has any, to the list of
    words. *)
Definition collect_segment
    (lists : list TranscriptSegment.t * list WordTimestamp.t)
    (segment : FasterWhisper.Segment.t)
  : list TranscriptSegment.t * list WordTimestamp.t :=
  let (segments_list, words_list) := lists in
  let segments_list :=
    segments_list
    ++ [TranscriptSegment.mk (FasterWhisper.Segment.start segment)
          (FasterWhisper.Segment.end_ segment)
          (FasterWhisper.Segment.text segment)] in
  let words_list :=
    match FasterWhisper.Segment.words segment with
    | Some ((_ :: _) as words) =>
        fold_left
          (fun words_list word =>
             words_list
             ++ [WordTimestamp.mk (FasterWhisper.Word.word word)
                   (FasterWhisper.Word.start word)
                   (FasterWhisper.Word.end_ word)
                   (FasterWhisper.Word.probability word)])
          words words_list
    | Some [] | None => words_list
    end in
  (segments_list, words_list).

Definition transcribe (self : t H) (audio_path : Path)
    (language : option pystr) (fs : FileSystem) (l : L)
  : Transcriber.Outcome * t H * L :=
  if negb (path_exists audio_path fs) then
    (Transcriber.TranscriptionError
       (str "Audio file not found: " ++ path_str audio_path), self, l)
  else if negb (bool_decide (lower (suffix audio_path) ∈ SUPPORTED_FORMATS)) then
    (Transcriber.TranscriptionError
       (str "Unsupported audio format: " ++ suffix audio_path ++ str ". "
        ++ str "Supported formats: " ++ join (str ", ") formats_in_order),
     self, l)
  else
    match _load_model self l with
    | (inl e, self, l) => (Transcriber.Raises e, self, l)
    | (inr model, self, l) =>
        let (transcribing, l) :=
          FasterWhisper.transcribe library model (path_str audio_path)
            language l in
        match transcribing with
        | FasterWhisper.TranscribingRaises e => (Transcriber.Raises e, self, l)
        | FasterWhisper.Segments segments info =>
            let detected_language :=
              FasterWhisper.TranscriptionInfo.language info in
            let duration := FasterWhisper.TranscriptionInfo.duration info in
            let (segments_list, words_list) :=
              fold_left collect_segment segments ([], []) in
            (Transcriber.Transcribed
               (Transcript.mk segments_list words_list detected_language
                  duration),
             self, l)
        end
    end.

(** The transcriber as the commands use it: made for the call with the
    name of the model, [device] and [compute_type] being ["auto"], and
    asked for a transcript with no language given. *)
Definition for_commands : Transcriber.t L :=
  Transcriber.mk L
    (fun model_name audio_file fs l =>
       let transcriber := __init__ model_name (str "auto") (str "auto") in
       let '(outcome, _, l') := transcribe transcriber audio_file None fs l in
       (outcome, l')).
End Transcribe.
End WhisperLocalTranscriber.

(* ===================================================================== *)
(** * Notions used in the statements and proofs *)
(* ===================================================================== *)
(* ===================================================================== *)
(** * Specification-side notions *)
(* ===================================================================== *)

(** [t] begins with no white space. *)
Definition starts_clean (t : pystr) : Prop :=
  match t with
  | c :: _ => isspace c = false
  | [] => True
  end.

(** [t] is [s] with the leading and trailing white space removed. *)
Definition Trimmed (s t : pystr) : Prop :=
  exists l r,
    s = l ++ t ++ r
    /\ Forall (fun c => isspace c = true) l
    /\ Forall (fun c => isspace c = true) r
    /\ starts_clean t /\ starts_clean (rev t).

(** [out] is the concatenation of the parts, in order, with one space
    between two neighbours. *)
Inductive SpaceJoined : list pystr -> pystr -> Prop :=
| SpaceJoined_nil : SpaceJoined [] []
| SpaceJoined_one p : SpaceJoined [p] p
| SpaceJoined_more p q rest out :
    SpaceJoined (q :: rest) out ->
    SpaceJoined (p :: q :: rest) (p ++ [32%N] ++ out).

(** A natural number written with at least two decimal digits. *)
Definition two_digits (n : N) : pystr :=
  if (n <? 10)%N then [digit_char 0; digit_char n] else digits n.

(** [x] is a substring of [s]. *)
Definition Contains (s x : pystr) : Prop := exists pre post, s = pre ++ x ++ post.

(** Non-decreasing keys, pairwise. *)
Definition key_le {A : Type} (key : A -> Q) (a b : A) : Prop :=
  (key a <= key b)%Q.


(** Chapters in non-decreasing order of start time. *)
Abbreviation start_le := (key_le Chapter.start_time).

(** [m] is the widest bracketed span of [text]: it starts at the first
    opening bracket and ends at the last closing bracket. *)
Definition WidestSpan (text m : pystr) : Prop :=
  exists pre mid post,
    text = pre ++ [91%N] ++ mid ++ [93%N] ++ post
    /\ ~ In 91%N pre /\ ~ In 93%N post
    /\ m = [91%N] ++ mid ++ [93%N].

(** [text] has no opening bracket with a closing bracket after it. *)
Definition NoSpan (text : pystr) : Prop :=
  forall pre mid post, text <> pre ++ [91%N] ++ mid ++ [93%N] ++ post.

(** The response of the example of the specification. *)
Definition prose_response : pystr :=
  str "Here you go:" ++ nl
  ++ str "[{" ++ dq ++ str "title" ++ dq ++ str ":" ++ dq ++ str "A" ++ dq
  ++ str "}]" ++ nl ++ str "Hope that helps".

(** A collaborator without state that answers every call with the same
    text. *)
Definition constant_client (answer : pystr) : ClaudeClient unit :=
  mkClient unit (fun _ _ _ s => (inr answer, s)).

Definition empty_transcript : Transcript.t :=
  Transcript.mk [] [] (str "en") 0.

Definition fresh_world : World unit := mkWorld tt [].

(** The three calls of a run, in the order of the source. *)
Definition description_call (transcript : Transcript.t) : Call :=
  mkCall (DESCRIPTION_PROMPT (_truncate_transcript transcript 50000))
    4096%Z (7 # 10).

Definition titles_call (transcript : Transcript.t) : Call :=
  mkCall (TITLES_PROMPT (_truncate_transcript transcript 50000))
    4096%Z (8 # 10).

Definition chapters_call (transcript : Transcript.t) (chapter_count : Z)
  : Call :=
  mkCall (CHAPTERS_PROMPT
            (let text := _format_transcript_with_timestamps transcript in
             if (50000 <? N.of_nat (length text))%N
             then firstn (N.to_nat 50000) text ++ truncation_marker
             else text)
            (str_int chapter_count))
    4096%Z (5 # 10).

(** What the collaborator answers to a call in a given state. *)
Definition answer {S : Type} (client : ClaudeClient S) (c : Call) (s : S)
  : result pystr * S :=
  generate client (call_prompt c) (call_max_tokens c) (call_temperature c) s.

(** The outcome of each step as a function of the collaborator's answer. *)
Definition description_outcome (r : result pystr) : result pystr :=
  match r with
  | inl e => inl e
  | inr text => inr (strip text)
  end.

Definition titles_outcome (r : result pystr) : result (list Title.t) :=
  match r with
  | inl e => inl e
  | inr response =>
      match Json.loads (_extract_json response) with
      | inl e => inl (GenerationError (parse_failure (str "titles") e response))
      | inr data => titles_of_data data
      end
  end.

Definition chapters_outcome (r : result pystr) : result (list Chapter.t) :=
  match r with
  | inl e => inl e
  | inr response =>
      match Json.loads (_extract_json response) with
      | inl e =>
          inl (GenerationError (parse_failure (str "chapters") e response))
      | inr data =>
          match chapters_of_data data with
          | inl e => inl e
          | inr parsed => inr (normalize_chapters parsed)
          end
      end
  end.





Definition empty_fs : FileSystem := mkFS ∅ ∅.

(** Unicode scalar values: the code points below 0x110000 that are no
    surrogates. *)
Definition is_scalar (c : N) : bool :=
  ((c <? 55296) || (57343 <? c) && (c <? 1114112))%N.

(** Text made of scalar values. *)
Definition ValidText (s : pystr) : Prop := Forall (fun c => is_scalar c = true) s.

(** A check of [k] consecutive numbers from [i] on, for proofs by
    enumeration. *)
Fixpoint all_from (k : nat) (i : N) (P : N -> bool) : bool :=
  match k with
  | O => true
  | S k => P i && all_from k (N.succ i) P
  end.

(** [hex4] on a list of four characters. *)
Definition hex4_list (l : pystr) : option N :=
  match l with
  | [a; b; c; d] => Json.hex4 a b c d
  | _ => None
  end.

(** What may follow a value in an encoded document: nothing, a comma or
    a line feed. *)
Definition Delimited (rest : pystr) : Prop :=
  match rest with
  | [] => True
  | c :: _ => c = 44%N \/ c = 10%N
  end.

(** Strings of decimal digits. *)
Definition AllDigits (ds : pystr) : Prop :=
  Forall (fun c => Json.is_digit c = true) ds.

(** Text that no digit continues. *)
Definition StopsDigits (rest : pystr) : Prop :=
  match rest with
  | c :: _ => Json.is_digit c = false
  | [] => True
  end.

(** Rationals in lowest terms with a finite decimal expansion: the
    values that number literals denote. *)
Definition Decimal (q : Q) : Prop :=
  Qred q = q
  /\ exists k,
       Json.decimal_places (Pos.size_nat (Qden q)) 0 (Z.pos (Qden q)) = Some k.

(** The integer part of a number literal: a single zero, or digits that
    begin with a digit other than zero. *)
Definition IntPart (int : pystr) : Prop :=
  int = [48%N]
  \/ (AllDigits int /\ exists c t, int = c :: t /\ c <> 48%N).

(** The sign of a literal. *)
Definition sign_text (neg : bool) : pystr := if neg then [45%N] else [].

(** The exponent of a literal, with its sign written out. *)
Definition exponent_text (negative : bool) (ds : pystr) : pystr :=
  101%N :: (if negative then 45%N else 43%N) :: ds.

(** The number scanner reads the float back from its [repr]. *)
Definition FloatRoundTrips (q : Q) : Prop :=
  forall rest,
    Delimited rest ->
    Json.match_number (Json.float_repr q ++ rest) = Some (Json.JFloat q, rest).

(** Documents whose encoding is decoded to the same document: floats
    that are decimals, text made of scalar values, objects with distinct
    keys. *)
Inductive Printable : Json.value -> Prop :=
| Printable_null : Printable Json.JNull
| Printable_bool b : Printable (Json.JBool b)
| Printable_int z : Printable (Json.JInt z)
| Printable_float q : Decimal q -> Printable (Json.JFloat q)
| Printable_nonfinite k : Printable (Json.JNonFinite k)
| Printable_str s : ValidText s -> Printable (Json.JStr s)
| Printable_arr items :
    Forall Printable items -> Printable (Json.JArr items)
| Printable_obj members :
    List.NoDup (List.map fst members) ->
    Forall (fun kv => ValidText (fst kv)) members ->
    Forall (fun kv => Printable (snd kv)) members ->
    Printable (Json.JObj members).

(** Structural induction on documents, through the lists of an array and
    of an object. *)
Section ValueInduction.
Variable P : Json.value -> Prop.
Hypothesis Hnull : P Json.JNull.
Hypothesis Hbool : forall b, P (Json.JBool b).
Hypothesis Hint : forall z, P (Json.JInt z).
Hypothesis Hfloat : forall q, P (Json.JFloat q).
Hypothesis Hnonfinite : forall k, P (Json.JNonFinite k).
Hypothesis Hstr : forall s, P (Json.JStr s).
Hypothesis Harr : forall items, Forall P items -> P (Json.JArr items).
Hypothesis Hobj :
forall members,
Forall (fun kv => P (snd kv)) members -> P (Json.JObj members).

Fixpoint value_induction (v : Json.value) : P v :=
match v with
| Json.JNull => Hnull
| Json.JBool b => Hbool b
| Json.JInt z => Hint z
| Json.JFloat q => Hfloat q
| Json.JNonFinite k => Hnonfinite k
| Json.JStr s => Hstr s
| Json.JArr items =>
  Harr items
    ((fix go (l : list Json.value) : Forall P l :=
        match l with
        | [] => @List.Forall_nil _ P
        | x :: t => @List.Forall_cons _ P x t (value_induction x) (go t)
        end) items)
| Json.JObj members =>
  Hobj members
    ((fix go (l : list (pystr * Json.value))
        : Forall (fun kv => P (snd kv)) l :=
        match l with
        | [] => @List.Forall_nil _ _
        | (k, x) :: t =>
            @List.Forall_cons _ (fun kv => P (snd kv)) (k, x) t
              (value_induction x) (go t)
        end) members)
end.
End ValueInduction.

(** The text of one member of an encoded object. *)
Definition member_text (level : nat) (kv : pystr * Json.value) : pystr :=
  Json.encode_string (fst kv) ++ str ": " ++ Json.dumps_at level (snd kv).

(** The separator between the items of an encoded array or object. *)
Definition item_separator (level : nat) : pystr :=
  str "," ++ Json.newline_indent level.

(** The first character of an encoded value: no white space and no
    closing bracket or brace. *)
Definition ValueStart (s : pystr) : Prop :=
  match s with
  | c :: _ => Json.is_ws c = false /\ c <> 93%N /\ c <> 125%N
  | [] => False
  end.

(** The scanner reads the encoding of [x] back, whatever the nesting
    level and the delimited rest of the input, given fuel in proportion
    to the input. *)
Definition ScansBack (x : Json.value) : Prop :=
  forall level rest fuel,
    Delimited rest ->
    3 * length (Json.dumps_at level x ++ rest) + 1 <= fuel ->
    Json.scan_once fuel (Json.dumps_at level x ++ rest) = Some (inr (x, rest)).

(** A scanner result on the input [s]: the fuel did not run out, and a
    value was read only by consuming input. *)
Definition Progress (s : pystr) (r : option (Json.scan_result Json.value))
  : Prop :=
  match r with
  | None => False
  | Some (inl _) => True
  | Some (inr (_, rest)) => length rest < length s
  end.

(** Transcripts that pydantic accepts and whose floats are finite: every
    string is made of scalar values and every float is a decimal. *)
Definition SegmentSafe (seg : TranscriptSegment.t) : Prop :=
  Decimal (TranscriptSegment.start seg)
  /\ Decimal (TranscriptSegment.end_ seg)
  /\ ValidText (TranscriptSegment.text seg).

Definition WordSafe (w : WordTimestamp.t) : Prop :=
  ValidText (WordTimestamp.word w)
  /\ Decimal (WordTimestamp.start w)
  /\ Decimal (WordTimestamp.end_ w)
  /\ Decimal (WordTimestamp.probability w).

Definition RoundTripSafe (T : Transcript.t) : Prop :=
  Forall SegmentSafe (Transcript.segments T)
  /\ Forall WordSafe (Transcript.words T)
  /\ ValidText (Transcript.language T)
  /\ Decimal (Transcript.duration T).

(** The transcript of the end-to-end example of the specification. *)
Definition hello_world_transcript : Transcript.t :=
  Transcript.mk
    [TranscriptSegment.mk 0 30 (str "Hello");
     TranscriptSegment.mk 30 65 (str "World")]
    [] (str "en") 65.


(* ===================================================================== *)
(** * Further notions used in the statements *)
(* ===================================================================== *)

(** The segment is being spoken at the time: the time lies between its
    start and its end, both included. *)
Definition Spans (segment : TranscriptSegment.t) (time_seconds : Q) : Prop :=
  (TranscriptSegment.start segment <= time_seconds)%Q
  /\ (time_seconds <= TranscriptSegment.end_ segment)%Q.

(** The entry of a decoded array from which the title [t] is made: a
    dict whose three fields, each absent or present, are the strings of
    [t], an absent field standing for the empty string. *)
Definition TitleEntry (item : Json.value) (t : Title.t) : Prop :=
  exists members,
    item = Json.JObj members
    /\ Json.dict_get members (str "title") (Json.JStr [])
       = Json.JStr (Title.title t)
    /\ Json.dict_get members (str "thumbnail_text") (Json.JStr [])
       = Json.JStr (Title.thumbnail_text t)
    /\ Json.dict_get members (str "reasoning") (Json.JStr [])
       = Json.JStr (Title.reasoning t).


(** The exceptions that a decoded answer of the wrong shape raises. *)
Definition ShapeError (e : exn) : Prop :=
  match e with
  | TypeError _ | AttributeError _ | ValidationError _ => True
  | _ => False
  end.

(** The timestamp as a function of the whole seconds. *)
Definition clock (total : Z) : pystr :=
  (if (0 <? total / 3600)%Z
   then two_digits (Z.to_N (total / 3600)) ++ [58%N] else [])
  ++ two_digits (Z.to_N ((total mod 3600) / 60)) ++ [58%N]
  ++ two_digits (Z.to_N (total mod 60)).


(** What [_save_outputs] writes at a path, if it writes there.  The
    tests run from the last write to the first. *)
Definition saved_file (output_dir : Path) (transcript : Transcript.t)
    (content : option GeneratedContent.t) (q : Path) : option pystr :=
  let optional {A : Type} (value : list A) (contents : pystr) :=
    match value with
    | _ :: _ => Some contents
    | [] => None
    end in
  let of_content (f : GeneratedContent.t -> option pystr) :=
    match content with
    | Some content => f content
    | None => None
    end in
  if decide (q = path_join output_dir (str "chapters.txt")) then
    of_content (fun content =>
      optional (GeneratedContent.chapters content)
        (chapters_text (GeneratedContent.chapters content)))
  else if decide (q = path_join output_dir (str "titles.json")) then
    of_content (fun content =>
      optional (GeneratedContent.titles content)
        (Json.dumps
           (Json.JArr (List.map Dump.title (GeneratedContent.titles content)))))
  else if decide (q = path_join output_dir (str "description.md")) then
    of_content (fun content =>
      optional (GeneratedContent.description content)
        (GeneratedContent.description content))
  else if decide (q = path_join output_dir (str "transcript.txt")) then
    Some (Transcript.full_text transcript)
  else if decide (q = path_join output_dir (str "transcript.json")) then
    Some (Json.dumps (Dump.transcript transcript))
  else None.

(** Text of the ASCII range. *)
Definition IsAscii (s : pystr) : Prop := Forall (fun c => (c < 128)%N) s.

(** Titles whose strings are made of scalar values. *)
Definition TitleSafe (t : Title.t) : Prop :=
  ValidText (Title.title t)
  /\ ValidText (Title.thumbnail_text t)
  /\ ValidText (Title.reasoning t).

(** A content with one title and nothing else. *)
Definition one_title_content : GeneratedContent.t :=
  GeneratedContent.mk []
    [Title.mk (str "Why X is Actually Wrong") (str "WRONG") (str "Contrarian")]
    [].

(** What [generate] makes of the outcome of one request. *)
Definition outcome_answer (outcome : Anthropic.Outcome) : result pystr :=
  match outcome with
  | Anthropic.Message (block :: _) => inr block
  | Anthropic.Message [] => inl (LLMError (str "Empty response from Claude API"))
  | Anthropic.APIConnectionError e =>
      inl (LLMError (str "Failed to connect to Anthropic API: " ++ e))
  | Anthropic.RateLimitError e =>
      inl (LLMError (str "Rate limit exceeded: " ++ e))
  | Anthropic.APIStatusError e => inl (LLMError (str "API error: " ++ e))
  | Anthropic.Raises e => inl e
  end.

(** The outcome of the request made after [k] earlier requests of the
    same kind, and the state of the service after it. *)
Fixpoint later_outcome {B : Type} (service : Anthropic.Service B)
    (key : pystr) (request : Anthropic.Request) (k : nat) (s : B)
  : Anthropic.Outcome * B :=
  match k with
  | O => Anthropic.messages_create service key request s
  | Datatypes.S k' =>
      later_outcome service key request k'
        (snd (Anthropic.messages_create service key request s))
  end.

(** The requests of one client: its key, its model. *)
Definition RequestOf (self : Llm.ClaudeClient)
    (made : pystr * Anthropic.Request) : Prop :=
  fst made = Llm.self_api_key self
  /\ Anthropic.model (snd made) = Llm.self_model self.

(** A service that counts its requests and is over capacity for the
    first [failures] of them. *)
Definition busy_service (failures : nat) (text : pystr)
  : Anthropic.Service nat :=
  Anthropic.mkService nat
    (fun _ _ served =>
       (if served <? failures
        then Anthropic.RateLimitError (str "429")
        else Anthropic.Message [text],
        Datatypes.S served)).

Definition example_client : Llm.ClaudeClient :=
  Llm.mkClaudeClient (str "claude-sonnet-4-5") (str "sk-test").

(** The request that the client makes for a call of the generation
    code. *)
Definition request_of_call (self : Llm.ClaudeClient) (c : Call)
  : pystr * Anthropic.Request :=
  (Llm.self_api_key self,
   Anthropic.mkRequest (Llm.self_model self) (call_max_tokens c)
     (call_temperature c) (call_prompt c)).

(** The directory that [process] and [transcribe] write to. *)
Definition audio_output_dir (stem : Path -> pystr) (audio_file : Path)
    (output : option Path) (settings : Settings.t) : Path :=
  match output with
  | Some output => output
  | None => path_div (Settings.default_output_dir settings) (stem audio_file)
  end.

(** A service whose every request ends in an [LLMError] of the client:
    an empty message or one of the three errors it handles. *)
Definition AlwaysFails {B : Type} (service : Anthropic.Service B) : Prop :=
  forall key request s,
    exists msg,
      outcome_answer (fst (Anthropic.messages_create service key request s))
      = inl (LLMError msg).


(** Examples: a service that cannot be reached, a service that answers
    with a fixed text, a transcriber that returns a fixed transcript. *)
Definition unreachable_service : Anthropic.Service unit :=
  Anthropic.mkService unit
    (fun _ _ s => (Anthropic.APIConnectionError (str "Connection error."), s)).

Definition fixed_service (text : pystr) : Anthropic.Service unit :=
  Anthropic.mkService unit (fun _ _ s => (Anthropic.Message [text], s)).

Definition fixed_transcriber (transcript : Transcript.t)
  : Transcriber.t unit :=
  Transcriber.mk unit
    (fun _ _ _ s => (Transcriber.Transcribed transcript, s)).

Definition example_settings : Settings.t :=
  Settings.mk (str "sk-test") (str "medium") (str "claude-sonnet-4-5")
    [str "output"] 10.

Definition fresh_state : Cli.State unit unit :=
  Cli.mkState empty_fs (mkWorld (Llm.mkBackend tt []) []) tt.


(** The segment and the words of the transcript that a segment of the
    library becomes. *)
Definition segment_of (segment : FasterWhisper.Segment.t)
  : TranscriptSegment.t :=
  TranscriptSegment.mk (FasterWhisper.Segment.start segment)
    (FasterWhisper.Segment.end_ segment)
    (FasterWhisper.Segment.text segment).

Definition word_of (word : FasterWhisper.Word.t) : WordTimestamp.t :=
  WordTimestamp.mk (FasterWhisper.Word.word word)
    (FasterWhisper.Word.start word) (FasterWhisper.Word.end_ word)
    (FasterWhisper.Word.probability word).

Definition words_of (segment : FasterWhisper.Segment.t)
  : list WordTimestamp.t :=
  match FasterWhisper.Segment.words segment with
  | Some words => List.map word_of words
  | None => []
  end.

(** A library that has one model and hears two segments in every
    file. *)
Definition example_library : FasterWhisper.Library unit unit :=
  FasterWhisper.mkLibrary unit unit
    (fun _ _ _ l => (FasterWhisper.Loaded tt, l))
    (fun _ _ _ l =>
       (FasterWhisper.Segments
          [FasterWhisper.Segment.mk 0 30 (str " Hello")
             (Some [FasterWhisper.Word.mk 0 1 (str " Hello") (9 # 10)]);
           FasterWhisper.Segment.mk 30 65 (str " World") None]
          (FasterWhisper.TranscriptionInfo.mk (str "en") 65),
        l)).

(** A file system with one audio file. *)
Definition audio_fs : FileSystem :=
  write_file [str "episode.mp3"] [] empty_fs.


(* ===================================================================== *)
(** * Strings *)
(* ===================================================================== *)

Lemma lstrip_split (s : pystr) :
  exists l, s = l ++ lstrip s /\ Forall (fun c => isspace c = true) l.
Proof.
  induction s as [|c t [l [Ht Hl]]]; simpl.
  - exists []. split; [reflexivity | constructor].
  - destruct (isspace c) eqn:Hc.
    + exists (c :: l). split; [simpl; congruence | constructor; assumption].
    + exists []. split; [reflexivity | constructor].
Qed.

Lemma lstrip_clean (s : pystr) : starts_clean (lstrip s).
Proof.
  induction s as [|c t IH]; simpl; [exact I |].
  destruct (isspace c) eqn:Hc; [exact IH | exact Hc].
Qed.

Lemma starts_clean_app (a b : pystr) :
  starts_clean (a ++ b) -> starts_clean a.
Proof. destruct a; simpl; auto. Qed.

Lemma strip_trimmed (s : pystr) : Trimmed s (strip s).
Proof.
  unfold Trimmed, strip, rstrip.
  destruct (lstrip_split s) as [l [Hs Hl]].
  destruct (lstrip_split (rev (lstrip s))) as [r [Hr Hrs]].
  pose proof (lstrip_clean s) as Hclean.
  set (t := lstrip s) in *.
  set (u := lstrip (rev t)) in *.
  assert (Ht : t = rev u ++ rev r).
  { rewrite <- (rev_involutive t), Hr, rev_app_distr. reflexivity. }
  exists l, (rev r). repeat split.
  - rewrite Hs at 1. rewrite Ht at 1. reflexivity.
  - exact Hl.
  - apply Forall_rev. exact Hrs.
  - rewrite Ht in Hclean. destruct (rev u) eqn:E; simpl in *; auto.
  - rewrite rev_involutive. apply lstrip_clean.
Qed.

Lemma join_space_joined (parts : list pystr) :
  SpaceJoined parts (join (str " ") parts).
Proof.
  induction parts as [|p rest IH]; [constructor |].
  destruct rest as [|q rest]; [constructor |].
  change (join (str " ") (p :: q :: rest))
    with (p ++ [32%N] ++ join (str " ") (q :: rest)).
  constructor. exact IH.
Qed.

(** C5.  For every transcript, [full_text] is the concatenation, in
    segment order, of the segment texts, each with its leading and
    trailing white space removed, joined by single spaces; with no
    segments it is the empty string. *)
Theorem full_text_spec (T : Transcript.t) :
  (exists parts,
      Forall2 Trimmed
        (List.map TranscriptSegment.text (Transcript.segments T)) parts
      /\ SpaceJoined parts (Transcript.full_text T))
  /\ (forall words language duration,
         Transcript.full_text (Transcript.mk [] words language duration) = []).
Proof.
  split; [| reflexivity].
  exists (List.map (fun seg => strip (TranscriptSegment.text seg))
            (Transcript.segments T)).
  split; [| apply join_space_joined].
  induction (Transcript.segments T) as [|seg rest IH]; simpl; constructor.
  - apply strip_trimmed.
  - exact IH.
Qed.

(* ===================================================================== *)
(** * Numbers and their rendering *)
(* ===================================================================== *)

Lemma digits_small (n : N) : (n < 10)%N -> digits n = [digit_char n].
Proof.
  intros H. rewrite <- (N2Nat.id n).
  assert (Hk : N.to_nat n < 10) by lia. revert Hk.
  generalize (N.to_nat n) as k. intros k Hk.
  do 10 (destruct k as [|k]; [reflexivity |]). lia.
Qed.

Lemma uint_short_or_long (u : Decimal.uint) :
  (N.of_uint u < 10)%N \/ 2 <= length (uint_chars u).
Proof.
  destruct u as [|u|u|u|u|u|u|u|u|u|u];
    try (left; reflexivity);
    (destruct u; [left; reflexivity | (right; simpl; lia) ..]).
Qed.

Lemma digits_long (n : N) : (10 <= n)%N -> 2 <= length (digits n).
Proof.
  intros H. unfold digits.
  destruct (uint_short_or_long (N.to_uint n)) as [Hs | Hl]; [| exact Hl].
  rewrite DecimalN.Unsigned.of_to in Hs. lia.
Qed.

Lemma format_02d_two_digits (n : N) : format_02d (Z.of_N n) = two_digits n.
Proof.
  unfold format_02d, format_0d, two_digits.
  replace (Z.of_N n <? 0)%Z with false by (symmetry; apply Z.ltb_ge; lia).
  rewrite Zabs2N.id.
  destruct (N.ltb_spec n 10) as [Hlt | Hge].
  - rewrite (digits_small n Hlt). reflexivity.
  - pose proof (digits_long n Hge) as Hl.
    replace (2 - length (digits n)) with 0 by lia. reflexivity.
Qed.

Lemma format_02d_nonneg (z : Z) :
  (0 <= z)%Z -> format_02d z = two_digits (Z.to_N z).
Proof.
  intros H. rewrite <- (Z2N.id z H) at 1. apply format_02d_two_digits.
Qed.

Lemma two_digits_small (n : N) : (n < 100)%N -> length (two_digits n) = 2.
Proof.
  intros H. unfold two_digits.
  destruct (N.ltb_spec n 10) as [Hlt | Hge]; [reflexivity |].
  assert (E : exists k, (k < 90)%nat /\ n = N.of_nat (10 + k)).
  { exists (N.to_nat n - 10). lia. }
  destruct E as [k [Hk ->]].
  do 90 (destruct k as [|k]; [reflexivity |]). lia.
Qed.

Lemma two_digits_length (n : N) : 2 <= length (two_digits n).
Proof.
  unfold two_digits.
  destruct (N.ltb_spec n 10) as [Hlt | Hge]; [simpl; lia |].
  apply digits_long. exact Hge.
Qed.

(** [int(x)] truncates toward zero: the sign of [x] times the floor of
    its absolute value. *)
Lemma py_int_truncates (x : Q) :
  py_int x = (Z.sgn (Qnum x) * Qfloor (Qabs x))%Z.
Proof.
  destruct x as [n d]. unfold py_int, Qfloor, Qabs. simpl.
  rewrite Z.quot_div by lia.
  replace (Z.sgn (Z.pos d)) with 1%Z by reflexivity.
  replace (Z.abs (Z.pos d)) with (Z.pos d) by reflexivity.
  lia.
Qed.

Lemma py_int_nonneg (x : Q) : (0 <= x)%Q -> py_int x = Qfloor x.
Proof.
  destruct x as [n d]. unfold Qle, py_int, Qfloor. simpl. intros H.
  apply Z.quot_div_nonneg; lia.
Qed.

Lemma py_int_inject (z : Z) : py_int (inject_Z z) = z.
Proof. unfold py_int, inject_Z. simpl. apply Z.quot_1_r. Qed.

Lemma float_mod_60_range (x : Q) :
  (0 <= float_mod x 60 /\ float_mod x 60 < 60)%Q.
Proof.
  unfold float_mod.
  assert (E : (x == 60 * (x / 60))%Q) by field.
  pose proof (Qfloor_le (x / 60)) as Hlo.
  pose proof (Qlt_floor (x / 60)) as Hhi.
  rewrite inject_Z_plus in Hhi. change (inject_Z 1) with 1%Q in Hhi.
  set (f := inject_Z (Qfloor (x / 60))) in *.
  set (y := (x / 60)%Q) in *.
  split; lra.
Qed.

Lemma seconds_of_float_mod (x : Q) :
  py_int (float_mod x 60) = Qfloor (float_mod x 60)
  /\ (0 <= Qfloor (float_mod x 60) < 60)%Z.
Proof.
  destruct (float_mod_60_range x) as [Hlo Hhi].
  split; [apply py_int_nonneg; exact Hlo |].
  split.
  - change 0%Z with (Qfloor 0). apply Qfloor_resp_le. exact Hlo.
  - assert (H : (Qfloor (float_mod x 60) <= 59)%Z \/ (60 <= Qfloor (float_mod x 60))%Z) by lia.
    destruct H as [H | H]; [lia |].
    exfalso. pose proof (Qfloor_le (float_mod x 60)) as Hf.
    assert (H60 : (inject_Z 60 <= inject_Z (Qfloor (float_mod x 60)))%Q).
    { rewrite <- Zle_Qle. exact H. }
    change (inject_Z 60) with 60%Q in H60. lra.
Qed.

Lemma minutes_of_floordiv (x : Q) :
  py_int (float_floordiv x 60) = Qfloor (x / 60).
Proof. apply py_int_inject. Qed.

Lemma fold_left_append {A B : Type} (f : A -> B) (l : list A) (acc : list B) :
  fold_left (fun lines x => lines ++ [f x]) l acc = acc ++ List.map f l.
Proof.
  revert acc. induction l as [|x l IH]; intros acc; simpl.
  - rewrite app_nil_r. reflexivity.
  - rewrite IH, <- app_assoc. reflexivity.
Qed.

(** C7.  The timestamp of a chapter is computed from [start_time]
    truncated to an integer (the sign times the floor of the absolute
    value): [HH:MM:SS] when the hours are positive and [MM:SS] otherwise,
    every field written with at least two digits, minutes and seconds
    with exactly two.  [65.9] gives [01:05], [3725.0] gives [01:02:05],
    [0.0] gives [00:00].  The line of a chapter is the timestamp, a
    space and the title, followed by [" - "] and the description when
    the description is not empty. *)
Theorem chapter_timestamp_format :
  (forall c : Chapter.t,
      let total := py_int (Chapter.start_time c) in
      let h := (total / 3600)%Z in
      let m := ((total mod 3600) / 60)%Z in
      let s := (total mod 60)%Z in
      total = (Z.sgn (Qnum (Chapter.start_time c))
               * Qfloor (Qabs (Chapter.start_time c)))%Z
      /\ (0 <= m < 60)%Z /\ (0 <= s < 60)%Z
      /\ total = (h * 3600 + m * 60 + s)%Z
      /\ Chapter.timestamp c =
           (if (0 <? h)%Z then two_digits (Z.to_N h) ++ str ":" else [])
           ++ two_digits (Z.to_N m) ++ str ":" ++ two_digits (Z.to_N s)
      /\ 2 <= length (two_digits (Z.to_N h))
      /\ length (two_digits (Z.to_N m)) = 2
      /\ length (two_digits (Z.to_N s)) = 2
      /\ Chapter.to_youtube_format c =
           Chapter.timestamp c ++ str " " ++ Chapter.title c
           ++ match Chapter.description c with
              | [] => []
              | _ :: _ => str " - " ++ Chapter.description c
              end)
  /\ (forall title description,
         Chapter.timestamp (Chapter.mk (659 # 10) title description)
           = str "01:05"
         /\ Chapter.timestamp (Chapter.mk 3725 title description)
           = str "01:02:05"
         /\ Chapter.timestamp (Chapter.mk 0 title description)
           = str "00:00").
Proof.
  split; [| intros; repeat split; reflexivity].
  intros c total h m s.
  assert (Hm : (0 <= m < 60)%Z).
  { subst m. pose proof (Z.mod_pos_bound total 3600 ltac:(lia)).
    split; [apply Z.div_pos; lia | apply Z.div_lt_upper_bound; lia]. }
  assert (Hs : (0 <= s < 60)%Z) by (subst s; apply Z.mod_pos_bound; lia).
  assert (Hsum : total = (h * 3600 + m * 60 + s)%Z).
  { subst h m s.
    pose proof (Z.div_mod total 3600 ltac:(lia)).
    pose proof (Z.div_mod (total mod 3600) 60 ltac:(lia)).
    assert ((total mod 3600) mod 60 = total mod 60)%Z.
    { apply Z.mod_mod_divide. exists 60%Z. reflexivity. }
    lia. }
  repeat split; try tauto.
  - apply py_int_truncates.
  - unfold Chapter.timestamp. fold total. fold h. fold m. fold s.
    rewrite (format_02d_nonneg m), (format_02d_nonneg s) by lia.
    rewrite Z.gtb_ltb.
    destruct (Z.ltb_spec 0 h) as [Hh | Hh].
    + rewrite (format_02d_nonneg h) by lia.
      rewrite <- !app_assoc. reflexivity.
    + reflexivity.
  - apply two_digits_length.
  - apply two_digits_small. lia.
  - apply two_digits_small. lia.
  - unfold Chapter.to_youtube_format.
    destruct (Chapter.description c); [| reflexivity].
    rewrite app_nil_r. reflexivity.
Qed.



(* ===================================================================== *)
(** * Sorting by a float key *)
(* ===================================================================== *)

Lemma float_lt_spec (x y : Q) :
  BoolSpec (x < y)%Q (y <= x)%Q (float_lt x y).
Proof.
  unfold float_lt. destruct (Qcompare x y) eqn:E; constructor.
  - apply Qeq_alt in E. rewrite E. apply Qle_refl.
  - apply Qlt_alt. exact E.
  - apply Qlt_le_weak. apply Qgt_alt. exact E.
Qed.

Section SortBy.
Context {A : Type} (key : A -> Q).


Lemma insert_by_perm (x : A) (l : list A) :
Permutation (x :: l) (insert_by key x l).
Proof.
induction l as [|y rest IH]; simpl; [reflexivity |].
destruct (float_lt (key y) (key x)); [| reflexivity].
rewrite perm_swap. constructor. exact IH.
Qed.


Lemma insert_by_sorted (x : A) (l : list A) :
StronglySorted (key_le key) l -> StronglySorted (key_le key) (insert_by key x l).
Proof.
induction 1 as [|y rest Hs IH Hall]; simpl.
- repeat constructor.
- destruct (float_lt_spec (key y) (key x)) as [Hlt | Hle].
+ constructor; [exact IH |].
  rewrite <- insert_by_perm. constructor; [| exact Hall].
  apply Qlt_le_weak. exact Hlt.
+ constructor; [constructor; assumption |].
  constructor; [exact Hle |].
  eapply List.Forall_impl; [| exact Hall].
  intros z Hz. unfold key_le in *. eapply Qle_trans; eassumption.
Qed.

Lemma sort_by_sorted (l : list A) : StronglySorted (key_le key) (sort_by key l).
Proof.
induction l as [|x l IH]; simpl; [constructor |].
apply insert_by_sorted. exact IH.
Qed.



Lemma sort_by_sorted_id (l : list A) :
StronglySorted (key_le key) l -> sort_by key l = l.
Proof.
induction 1 as [|x rest Hs IH Hall]; [reflexivity |].
cbn [sort_by fold_right]. fold (sort_by key rest). rewrite IH.
destruct rest as [|y rest']; [reflexivity |].
cbn [insert_by]. inversion Hall as [|? ? Hxy _]; subst.
destruct (float_lt_spec (key y) (key x)) as [Hlt | Hle]; [| reflexivity].
exfalso. unfold key_le in Hxy. apply (Qlt_irrefl (key y)).
eapply Qlt_le_trans; eassumption.
Qed.
End SortBy.

(* ===================================================================== *)
(** * Chapter normalisation *)
(* ===================================================================== *)


Lemma clamp_first_sorted (l : list Chapter.t) :
  StronglySorted start_le l -> StronglySorted start_le (clamp_first l).
Proof.
  intros Hs. destruct l as [|c rest]; [constructor |].
  unfold clamp_first, float_gt.
  destruct (float_lt_spec 0 (Chapter.start_time c)) as [Hpos | Hle]; [| exact Hs].
  inversion Hs as [|? ? Hrest Hall]; subst.
  constructor; [exact Hrest |].
  eapply List.Forall_impl; [| exact Hall].
  intros d Hd. unfold key_le in *. simpl.
  apply Qlt_le_weak. eapply Qlt_le_trans; eassumption.
Qed.


Lemma clamp_first_nonpositive (l : list Chapter.t) :
  match clamp_first l with
  | c :: _ => (Chapter.start_time c <= 0)%Q
  | [] => True
  end.
Proof.
  destruct l as [|c rest]; [exact I |].
  unfold clamp_first, float_gt.
  destruct (float_lt_spec 0 (Chapter.start_time c)) as [Hpos | Hle]; simpl.
  - apply Qle_refl.
  - exact Hle.
Qed.

Lemma clamp_first_id (l : list Chapter.t) :
  match l with
  | c :: _ => (Chapter.start_time c <= 0)%Q
  | [] => True
  end ->
  clamp_first l = l.
Proof.
  destruct l as [|c rest]; [reflexivity |]. intros H.
  unfold clamp_first, float_gt.
  destruct (float_lt_spec 0 (Chapter.start_time c)) as [Hpos | Hle]; [| reflexivity].
  exfalso. apply (Qlt_irrefl 0). eapply Qlt_le_trans; eassumption.
Qed.

Lemma normalize_sorted (l : list Chapter.t) :
  StronglySorted start_le (normalize_chapters l).
Proof. apply clamp_first_sorted, sort_by_sorted. Qed.

(** C6.  Chapter normalisation -- the stable sort by [start_time]
    followed by the clamp of a positive first [start_time] to [0.0] -- is
    idempotent: normalising a normalised list of chapters changes
    nothing. *)
Theorem normalize_chapters_idempotent (l : list Chapter.t) :
  normalize_chapters (normalize_chapters l) = normalize_chapters l.
Proof.
  unfold normalize_chapters at 1.
  rewrite (sort_by_sorted_id _ _ (normalize_sorted l)).
  apply clamp_first_id. apply clamp_first_nonpositive.
Qed.

(* ===================================================================== *)
(** * JSON extraction *)
(* ===================================================================== *)

Lemma match_tail_spec (s : pystr) :
  match match_tail s with
  | Some m =>
      exists mid post,
        s = mid ++ [93%N] ++ post /\ m = mid ++ [93%N] /\ ~ In 93%N post
  | None => ~ In 93%N s
  end.
Proof.
  induction s as [|c t IH]; simpl; [tauto |].
  destruct (match_tail t) as [m |].
  - destruct IH as [mid [post [Ht [Hm Hpost]]]].
    exists (c :: mid), post. simpl. rewrite Ht, Hm. auto.
  - destruct (N.eqb_spec c 93) as [-> | Hc].
    + exists [], t. simpl. auto.
    + intros [H | H]; [congruence | exact (IH H)].
Qed.

Lemma re_search_no_closing (s : pystr) : ~ In 93%N s -> re_search s = None.
Proof.
  induction s as [|c t IH]; intros Hs; [reflexivity |].
  assert (Ht : ~ In 93%N t) by (intros H; apply Hs; right; exact H).
  cbn [re_search match_here].
  pose proof (match_tail_spec t) as Hm.
  destruct (match_tail t) as [m |].
  - destruct Hm as [mid [post [Heq _]]]. exfalso. apply Ht.
    rewrite Heq. apply in_or_app. right. left. reflexivity.
  - destruct (c =? 91)%N; apply IH; exact Ht.
Qed.

Lemma span_needs_closing (s pre mid post : pystr) :
  s = pre ++ [91%N] ++ mid ++ [93%N] ++ post -> In 93%N s.
Proof.
  intros ->. apply in_or_app. right. simpl. right.
  apply in_or_app. right. left. reflexivity.
Qed.

Lemma re_search_spec (s : pystr) :
  match re_search s with
  | Some m => WidestSpan s m
  | None => NoSpan s
  end.
Proof.
  induction s as [|c t IH].
  - simpl. intros pre mid post H. destruct pre; discriminate.
  - cbn [re_search match_here].
    destruct (N.eqb_spec c 91) as [-> | Hc].
    + pose proof (match_tail_spec t) as Hm.
      destruct (match_tail t) as [m |].
      * destruct Hm as [mid [post [Ht [Hm Hpost]]]].
        exists [], mid, post. subst t m. repeat split; auto.
      * rewrite (re_search_no_closing t Hm).
        intros pre mid post H.
        pose proof (span_needs_closing _ _ _ _ H) as Hin.
        destruct Hin as [Hin | Hin]; [discriminate | exact (Hm Hin)].
    + destruct (re_search t) as [m |].
      * destruct IH as [pre [mid [post [Ht [Hpre [Hpost Hm]]]]]].
        exists (c :: pre), mid, post. simpl. rewrite Ht.
        repeat split; auto.
        intros [H | H]; [congruence | exact (Hpre H)].
      * intros pre mid post H. destruct pre as [|p pre]; simpl in H.
        -- injection H as H _. congruence.
        -- injection H as _ H. exact (IH _ _ _ H).
Qed.


(** C3.  [_extract_json] returns the widest bracketed span of the
    response -- from the first opening bracket to the last closing
    bracket -- and the whole response when no opening bracket is followed
    by a closing one.  On the example response, prose around a one-element
    array, the extracted text is the array and it decodes to that
    array. *)
Theorem extract_json_widest_span :
  (forall text : pystr,
      WidestSpan text (_extract_json text)
      \/ (NoSpan text /\ _extract_json text = text))
  /\ _extract_json prose_response
     = str "[{" ++ dq ++ str "title" ++ dq ++ str ":" ++ dq ++ str "A" ++ dq
       ++ str "}]"
  /\ Json.loads (_extract_json prose_response)
     = inr (Json.JArr [Json.JObj [(str "title", Json.JStr (str "A"))]]).
Proof.
  split; [| split; vm_compute; reflexivity].
  intros text. unfold _extract_json.
  pose proof (re_search_spec text) as H.
  destruct (re_search text) as [m |]; [left | right]; auto.
Qed.

(* ===================================================================== *)
(** * Failures of the generation steps *)
(* ===================================================================== *)





(* ===================================================================== *)
(** * The orchestration of the three steps *)
(* ===================================================================== *)


Section Orchestration.
Context {S : Type} (client : ClaudeClient S).
Context (transcript : Transcript.t) (chapter_count : Z).

Lemma generate_description_run (w : World S) :
generate_description client transcript w
= (description_outcome
   (fst (answer client (description_call transcript) (llm_state w))),
 mkWorld (snd (answer client (description_call transcript) (llm_state w)))
   (calls w ++ [description_call transcript])).
Proof.
unfold generate_description, bind, client_generate, answer,
description_call.
cbn [call_prompt call_max_tokens call_temperature].
destruct (generate client _ _ _ _) as [[e | text] s']; reflexivity.
Qed.

Lemma generate_titles_run (w : World S) :
generate_titles client transcript w
= (titles_outcome
   (fst (answer client (titles_call transcript) (llm_state w))),
 mkWorld (snd (answer client (titles_call transcript) (llm_state w)))
   (calls w ++ [titles_call transcript])).
Proof.
unfold generate_titles, bind, client_generate, answer, titles_call.
cbn [call_prompt call_max_tokens call_temperature].
destruct (generate client _ _ _ _) as [[e | response] s'];
cbn [fst snd titles_outcome]; [reflexivity |].
destruct (Json.loads (_extract_json response)); reflexivity.
Qed.

Lemma generate_chapters_run (w : World S) :
generate_chapters client transcript chapter_count w
= (chapters_outcome
   (fst (answer client (chapters_call transcript chapter_count)
           (llm_state w))),
 mkWorld (snd (answer client (chapters_call transcript chapter_count)
                 (llm_state w)))
   (calls w ++ [chapters_call transcript chapter_count])).
Proof.
unfold generate_chapters, bind, client_generate, answer, chapters_prompt,
chapters_call, slice_to.
cbn [call_prompt call_max_tokens call_temperature].
destruct (generate client _ _ _ _) as [[e | response] s'];
cbn [fst snd chapters_outcome]; [reflexivity |].
destruct (Json.loads (_extract_json response)) as [e | data];
[reflexivity |].
unfold lift. destruct (chapters_of_data data); reflexivity.
Qed.

(** C4.  [generate_all_content] calls the collaborator for the
    description (temperature 0.7), then for the titles (0.8), then for
    the chapters (0.5, with the timestamped prompt and the requested
    count).  The first step that fails -- by an error of the collaborator
    or of the parser -- ends the run with that error: the log of calls
    shows that no later call is made, and no content is returned.  When
    the three steps succeed the content is assembled from their
    results. *)
Theorem generate_all_content_sequencing (w : World S) :
let c1 := description_call transcript in
let c2 := titles_call transcript in
let c3 := chapters_call transcript chapter_count in
let a1 := answer client c1 (llm_state w) in
let a2 := answer client c2 (snd a1) in
let a3 := answer client c3 (snd a2) in
call_temperature c1 = 7 # 10
/\ call_temperature c2 = 8 # 10
/\ call_temperature c3 = 5 # 10
/\ call_prompt c3 = chapters_prompt transcript chapter_count
/\ generate_all_content client transcript chapter_count w =
 match description_outcome (fst a1) with
 | inl e => (inl e, mkWorld (snd a1) (calls w ++ [c1]))
 | inr description =>
     match titles_outcome (fst a2) with
     | inl e => (inl e, mkWorld (snd a2) (calls w ++ [c1; c2]))
     | inr titles =>
         match chapters_outcome (fst a3) with
         | inl e => (inl e, mkWorld (snd a3) (calls w ++ [c1; c2; c3]))
         | inr chapters =>
             (inr (GeneratedContent.mk description titles chapters),
              mkWorld (snd a3) (calls w ++ [c1; c2; c3]))
         end
     end
 end.
Proof.
intros c1 c2 c3 a1 a2 a3.
repeat (split; [reflexivity |]).
unfold generate_all_content, bind.
rewrite generate_description_run. fold c1. fold a1.
destruct (description_outcome (fst a1)) as [e | description];
[reflexivity |].
rewrite generate_titles_run. cbn [llm_state calls]. fold c2. fold a2.
rewrite <- app_assoc. cbn [app].
destruct (titles_outcome (fst a2)) as [e | titles]; [reflexivity |].
rewrite generate_chapters_run. cbn [llm_state calls]. fold c3. fold a3.
rewrite <- app_assoc. cbn [app].
destruct (chapters_outcome (fst a3)) as [e | chapters]; reflexivity.
Qed.
End Orchestration.

(* ===================================================================== *)
(** * What [generate_chapters] returns *)
(* ===================================================================== *)







(* ===================================================================== *)
(** * The output writer *)
(* ===================================================================== *)

Lemma path_join_inj (d : Path) (a b : pystr) :
  path_join d a = path_join d b -> a = b.
Proof.
  unfold path_join. intros H. apply app_inv_head in H. congruence.
Qed.

(** Distinct literal names give distinct paths. *)
Ltac names_differ :=
  let H := fresh in
  intros H; apply path_join_inj in H; vm_compute in H; discriminate H.

Lemma lookup_write_same (p : Path) (c : pystr) (fs : FileSystem) :
  files (write_file p c fs) !! p = Some c.
Proof. apply lookup_insert_eq. Qed.

Lemma lookup_write_other (p q : Path) (c : pystr) (fs : FileSystem) :
  p <> q -> files (write_file p c fs) !! q = files fs !! q.
Proof. intros H. apply lookup_insert_ne. exact H. Qed.








(* ===================================================================== *)
(** * JSON strings: decoding an encoded string *)
(* ===================================================================== *)

Lemma all_from_spec (k : nat) (i : N) (P : N -> bool) :
  all_from k i P = true ->
  forall n, (i <= n < i + N.of_nat k)%N -> P n = true.
Proof.
  revert i. induction k as [|k IH]; intros i H n Hn; [lia |].
  cbn [all_from] in H. apply andb_true_iff in H as [Hi Hrest].
  destruct (N.eq_dec n i) as [-> | Hne]; [exact Hi |].
  apply (IH (N.succ i) Hrest). lia.
Qed.

Lemma hex4_chars_decoded (n : N) :
  (n < 65536)%N -> hex4_list (Json.hex4_chars n) = Some n.
Proof.
  intros Hn.
  assert (H : all_from (N.to_nat 65536) 0
                (fun n => match hex4_list (Json.hex4_chars n) with
                          | Some m => (m =? n)%N
                          | None => false
                          end) = true) by (vm_compute; reflexivity).
  pose proof (all_from_spec _ _ _ H n ltac:(lia)) as Hc. cbv beta in Hc.
  destruct (hex4_list (Json.hex4_chars n)) as [m |]; [| discriminate].
  apply N.eqb_eq in Hc. congruence.
Qed.

Lemma lor_surrogate_base (base k : N) :
  base = 55296%N \/ base = 56320%N ->
  (k < 1024)%N -> N.lor base k = (base + k)%N.
Proof.
  intros Hb Hk.
  assert (H : forall b, (b = 55296 \/ b = 56320)%N ->
                all_from (N.to_nat 1024) 0
                  (fun k => (N.lor b k =? b + k)%N) = true)
    by (intros b [-> | ->]; vm_compute; reflexivity).
  apply N.eqb_eq.
  exact (all_from_spec _ _ _ (H base Hb) k ltac:(lia)).
Qed.

(** The surrogate pair written for a code point above the basic plane is
    read back as that code point. *)
Lemma surrogate_pair_joined (c : N) :
  (65536 <= c < 1114112)%N ->
  let n := (c - 65536)%N in
  let s1 := N.lor 55296 (N.land (N.shiftr n 10) 1023) in
  let s2 := N.lor 56320 (N.land n 1023) in
  (s1 < 65536)%N /\ (s2 < 65536)%N
  /\ Json.is_high_surrogate s1 = true /\ Json.is_low_surrogate s2 = true
  /\ Json.join_surrogates s1 s2 = c.
Proof.
  intros Hc n s1 s2.
  assert (Hn : (n < 1048576)%N) by (subst n; lia).
  assert (Hhi : (N.land (N.shiftr n 10) 1023 = n / 1024)%N).
  { change 1023%N with (N.ones 10). rewrite N.land_ones, N.shiftr_div_pow2.
    change (2 ^ 10)%N with 1024%N. apply N.mod_small.
    apply N.Div0.div_lt_upper_bound. lia. }
  assert (Hlo : (N.land n 1023 = n mod 1024)%N).
  { change 1023%N with (N.ones 10). apply N.land_ones. }
  assert (Hq : (n / 1024 < 1024)%N) by (apply N.Div0.div_lt_upper_bound; lia).
  assert (Hr : (n mod 1024 < 1024)%N) by (apply N.mod_upper_bound; lia).
  assert (E1 : s1 = (55296 + n / 1024)%N).
  { subst s1. rewrite Hhi. apply lor_surrogate_base; auto. }
  assert (E2 : s2 = (56320 + n mod 1024)%N).
  { subst s2. rewrite Hlo. apply lor_surrogate_base; auto. }
  pose proof (N.div_mod n 1024 ltac:(lia)) as Hdm.
  unfold Json.is_high_surrogate, Json.is_low_surrogate, Json.join_surrogates.
  rewrite E1, E2.
  repeat split; try lia.
  - apply andb_true_iff. split; apply N.leb_le; lia.
  - apply andb_true_iff. split; apply N.leb_le; lia.
Qed.

Lemma scalar_not_high_surrogate (c : N) :
  is_scalar c = true -> Json.is_high_surrogate c = false.
Proof.
  unfold is_scalar, Json.is_high_surrogate. intros H.
  apply orb_true_iff in H as [H | H].
  - apply N.ltb_lt in H. apply andb_false_iff. left. apply N.leb_gt. lia.
  - apply andb_true_iff in H as [H _]. apply N.ltb_lt in H.
    apply andb_false_iff. right. apply N.leb_gt. lia.
Qed.

(** Reading one [\uXXXX] escape of a code point that is no high
    surrogate. *)
Lemma scanstring_u_escape (begin acc rest : pystr) (h1 h2 h3 h4 r0 uni : N) :
  Json.hex4 h1 h2 h3 h4 = Some uni ->
  Json.is_high_surrogate uni = false ->
  Json.scanstring begin (92 :: 117 :: h1 :: h2 :: h3 :: h4 :: r0 :: rest)%N acc
  = Json.scanstring begin (r0 :: rest) (acc ++ [uni]).
Proof.
  intros Hhex Hsur. cbn -[Json.hex4 Json.is_high_surrogate].
  rewrite Hhex, Hsur. reflexivity.
Qed.

(** Reading an escaped surrogate pair. *)
Lemma scanstring_pair_escape (begin acc rest : pystr)
    (h1 h2 h3 h4 g1 g2 g3 g4 r0 hi lo : N) :
  Json.hex4 h1 h2 h3 h4 = Some hi ->
  Json.hex4 g1 g2 g3 g4 = Some lo ->
  Json.is_high_surrogate hi = true ->
  Json.is_low_surrogate lo = true ->
  Json.scanstring begin
    (92 :: 117 :: h1 :: h2 :: h3 :: h4
     :: 92 :: 117 :: g1 :: g2 :: g3 :: g4 :: r0 :: rest)%N acc
  = Json.scanstring begin (r0 :: rest) (acc ++ [Json.join_surrogates hi lo]).
Proof.
  intros Hh Hg Hhi Hlo.
  cbn -[Json.hex4 Json.is_high_surrogate Json.is_low_surrogate
        Json.join_surrogates].
  rewrite Hh, Hhi, Hg, Hlo. reflexivity.
Qed.

Lemma hex4_chars_shape (n : N) :
  exists a b c d, Json.hex4_chars n = [a; b; c; d].
Proof. unfold Json.hex4_chars. eauto. Qed.

(** One encoded character is decoded to itself. *)
Lemma scanstring_escape_char (c : N) (begin acc : pystr) (r0 : N)
    (rest : pystr) :
  is_scalar c = true ->
  Json.scanstring begin (Json.escape_char c ++ r0 :: rest) acc
  = Json.scanstring begin (r0 :: rest) (acc ++ [c]).
Proof.
  intros Hc. unfold Json.escape_char.
  destruct (N.eqb_spec c 34) as [-> | H34]; [reflexivity |].
  destruct (N.eqb_spec c 92) as [-> | H92]; [reflexivity |].
  destruct ((32 <=? c) && (c <=? 126))%N eqn:Hprint.
  - apply andb_true_iff in Hprint as [Hlo Hhi].
    apply N.leb_le in Hlo. cbn [app Json.scanstring].
    rewrite (proj2 (N.eqb_neq c 34) H34), (proj2 (N.eqb_neq c 92) H92).
    replace (c <? 32)%N with false by (symmetry; apply N.ltb_ge; exact Hlo).
    reflexivity.
  - destruct (N.eqb_spec c 8) as [-> | H8]; [reflexivity |].
    destruct (N.eqb_spec c 12) as [-> | H12]; [reflexivity |].
    destruct (N.eqb_spec c 10) as [-> | H10]; [reflexivity |].
    destruct (N.eqb_spec c 13) as [-> | H13]; [reflexivity |].
    destruct (N.eqb_spec c 9) as [-> | H9]; [reflexivity |].
    destruct (N.ltb_spec c 65536) as [Hbmp | Hastral].
    + pose proof (hex4_chars_decoded c Hbmp) as Hdec.
      destruct (hex4_chars_shape c) as [a [b [d [e Hshape]]]].
      rewrite Hshape in *. cbn [app hex4_list] in *.
      apply scanstring_u_escape; [exact Hdec |].
      apply scalar_not_high_surrogate. exact Hc.
    + assert (Hrange : (65536 <= c < 1114112)%N).
      { split; [exact Hastral |]. unfold is_scalar in Hc.
        apply orb_true_iff in Hc as [H | H].
        - apply N.ltb_lt in H. lia.
        - apply andb_true_iff in H as [_ H]. apply N.ltb_lt. exact H. }
      destruct (surrogate_pair_joined c Hrange)
        as [Hs1 [Hs2 [Hhi [Hlo Hjoin]]]].
      cbv zeta in *.
      set (s1 := N.lor 55296 (N.land (N.shiftr (c - 65536) 10) 1023)) in *.
      set (s2 := N.lor 56320 (N.land (c - 65536) 1023)) in *.
      pose proof (hex4_chars_decoded s1 Hs1) as Hd1.
      pose proof (hex4_chars_decoded s2 Hs2) as Hd2.
      destruct (hex4_chars_shape s1) as [a1 [b1 [c1 [d1 Hsh1]]]].
      destruct (hex4_chars_shape s2) as [a2 [b2 [c2 [d2 Hsh2]]]].
      rewrite Hsh1, Hsh2 in *. cbn [app hex4_list] in *.
      replace (acc ++ [c]) with (acc ++ [Json.join_surrogates s1 s2])
        by (rewrite Hjoin; reflexivity).
      apply scanstring_pair_escape; assumption.
Qed.

Lemma scanstring_encoded (s : pystr) :
  ValidText s ->
  forall begin acc rest,
    Json.scanstring begin (flat_map Json.escape_char s ++ 34%N :: rest) acc
    = inr (acc ++ s, rest).
Proof.
  induction 1 as [|c s Hc Hs IH]; intros begin acc rest.
  - cbn. rewrite app_nil_r. reflexivity.
  - cbn [flat_map]. rewrite <- app_assoc.
    destruct (flat_map Json.escape_char s ++ 34%N :: rest) as [|r0 tail] eqn:E.
    { destruct (flat_map Json.escape_char s); discriminate. }
    rewrite scanstring_escape_char by exact Hc.
    rewrite <- E, IH, <- app_assoc. reflexivity.
Qed.

(* ===================================================================== *)
(** * Floats: reading back a [repr] *)
(* ===================================================================== *)

(** ** Digit strings and their values *)

Lemma digits_value_from (acc : N) (ds : pystr) :
  fold_left (fun acc c => (acc * 10 + (c - 48))%N) ds acc
  = (acc * 10 ^ N.of_nat (length ds) + Json.digits_value ds)%N.
Proof.
  unfold Json.digits_value. revert acc.
  induction ds as [|c ds IH]; intros acc.
  - simpl. lia.
  - cbn [fold_left length]. rewrite IH, (IH (0 * 10 + (c - 48))%N).
    rewrite Nat2N.inj_succ, N.pow_succ_r'. lia.
Qed.

Lemma digits_value_app (a b : pystr) :
  Json.digits_value (a ++ b)
  = (Json.digits_value a * 10 ^ N.of_nat (length b) + Json.digits_value b)%N.
Proof.
  unfold Json.digits_value at 1. rewrite fold_left_app.
  fold (Json.digits_value a). apply digits_value_from.
Qed.

Lemma digits_value_zeros (n : nat) : Json.digits_value (repeat 48%N n) = 0%N.
Proof.
  induction n as [|n IH]; [reflexivity |].
  change (repeat 48%N (S n)) with ([48%N] ++ repeat 48%N n).
  rewrite digits_value_app, IH. reflexivity.
Qed.

Lemma all_digits_zeros (n : nat) : AllDigits (repeat 48%N n).
Proof. induction n; constructor; [reflexivity | assumption]. Qed.

Lemma span_digits_app (ds rest : pystr) :
  AllDigits ds -> StopsDigits rest ->
  Json.span_digits (ds ++ rest) = (ds, rest).
Proof.
  intros Hds Hrest. induction Hds as [|c ds Hc _ IH].
  - destruct rest as [|c r]; [reflexivity |].
    cbn [app Json.span_digits]. rewrite Hrest. reflexivity.
  - cbn [app Json.span_digits]. rewrite Hc, IH. reflexivity.
Qed.

Lemma uint_chars_digits (u : Decimal.uint) : AllDigits (uint_chars u).
Proof. induction u; constructor; (reflexivity || assumption). Qed.

Lemma of_uint_acc_value (u : Decimal.uint) (acc : positive) :
  N.pos (Pos.of_uint_acc u acc)
  = fold_left (fun acc c => (acc * 10 + (c - 48))%N) (uint_chars u) (N.pos acc).
Proof.
  revert acc. induction u as [|u IH|u IH|u IH|u IH|u IH|u IH|u IH|u IH|u IH|u IH];
    intros acc; [reflexivity | ..];
    cbn [Pos.of_uint_acc uint_chars fold_left]; rewrite IH; f_equal;
    unfold digit_char; lia.
Qed.

Lemma of_uint_value (u : Decimal.uint) :
  N.of_uint u = Json.digits_value (uint_chars u).
Proof.
  unfold Json.digits_value, N.of_uint.
  induction u as [|u IH|u IH|u IH|u IH|u IH|u IH|u IH|u IH|u IH|u IH];
    [reflexivity | exact IH | ..];
    cbn [Pos.of_uint uint_chars fold_left]; rewrite of_uint_acc_value;
    reflexivity.
Qed.

Lemma digits_value_digits (n : N) : Json.digits_value (digits n) = n.
Proof.
  unfold digits. rewrite <- of_uint_value. apply DecimalN.Unsigned.of_to.
Qed.

Lemma digits_all_digits (n : N) : AllDigits (digits n).
Proof. apply uint_chars_digits. Qed.

(** The digits of a positive number begin with a digit that is not
    zero. *)
Lemma digits_head (n : N) :
  (0 < n)%N ->
  exists c tail,
    digits n = c :: tail /\ Json.is_digit c = true /\ c <> 48%N.
Proof.
  intros Hn. unfold digits.
  pose proof (DecimalN.Unsigned.to_of (N.to_uint n)) as Hnorm.
  rewrite DecimalN.Unsigned.of_to in Hnorm.
  assert (Hnz : Decimal.nzhead (N.to_uint n) <> Decimal.Nil).
  { intros H. apply DecimalFacts.unorm_0 in H. rewrite <- Hnorm in H.
    pose proof (DecimalN.Unsigned.of_to n) as Hof. rewrite H in Hof.
    cbn in Hof. lia. }
  rewrite (DecimalFacts.unorm_nzhead _ Hnz) in Hnorm.
  pose proof (DecimalFacts.nzhead_nonzero (N.to_uint n)) as Hhead.
  rewrite <- Hnorm in Hhead.
  destruct (N.to_uint n) as [|u|u|u|u|u|u|u|u|u|u];
    [congruence | exfalso; exact (Hhead u eq_refl) | ..];
    (eexists _, _; split; [reflexivity |]; split;
     [reflexivity | discriminate]).
Qed.

(** ** Scanning a literal *)

Lemma delimited_stops (rest : pystr) :
  Delimited rest ->
  StopsDigits rest /\ Json.match_frac rest = None /\ Json.match_exp rest = None.
Proof.
  destruct rest as [|c r]; [repeat split |].
  intros [-> | ->]; repeat split.
Qed.

Lemma match_integer_literal (neg : bool) (int rest : pystr) :
  IntPart int -> StopsDigits rest ->
  Json.match_integer (sign_text neg ++ int ++ rest) = Some (neg, int, rest).
Proof.
  intros Hint Hrest.
  assert (Hbody : forall s,
             match int ++ rest with
             | c :: t =>
                 if (c =? 48)%N then Some (neg, [c], t)
                 else if Json.is_digit c then
                        let (d, r) := Json.span_digits (int ++ rest) in
                        Some (neg, d, r)
                      else None
             | [] => s
             end = Some (neg, int, rest)).
  { intros s. destruct Hint as [-> | [Hd [c [t [-> Hc]]]]]; [reflexivity |].
    cbn [app]. rewrite (proj2 (N.eqb_neq c 48) Hc).
    inversion Hd as [|? ? Hcd Htd]; subst. rewrite Hcd.
    change (c :: t ++ rest) with ((c :: t) ++ rest).
    rewrite (span_digits_app (c :: t) rest Hd Hrest). reflexivity. }
  unfold Json.match_integer. destruct neg; cbn [sign_text app].
  - rewrite N.eqb_refl. apply Hbody.
  - assert (Hhead : exists c t, int ++ rest = c :: t /\ (c =? 45)%N = false).
    { destruct Hint as [-> | [Hd [c [t [-> Hc]]]]]; [eexists _, _; split; reflexivity |].
      exists c, (t ++ rest). split; [reflexivity |].
      inversion Hd as [|? ? Hcd _]; subst.
      unfold Json.is_digit in Hcd. apply andb_true_iff in Hcd as [Hlo _].
      apply N.leb_le in Hlo. apply N.eqb_neq. lia. }
    destruct Hhead as [c [t [E Hc]]]. rewrite E at 1. rewrite Hc.
    apply Hbody.
Qed.

Lemma match_frac_literal (frac rest : pystr) :
  AllDigits frac -> frac <> [] -> StopsDigits rest ->
  Json.match_frac (46%N :: frac ++ rest) = Some (frac, rest).
Proof.
  intros Hd Hne Hrest. unfold Json.match_frac. rewrite N.eqb_refl.
  rewrite (span_digits_app frac rest Hd Hrest).
  destruct frac; [congruence | reflexivity].
Qed.

Lemma match_exp_literal (negative : bool) (ds rest : pystr) :
  AllDigits ds -> ds <> [] -> StopsDigits rest ->
  Json.match_exp (exponent_text negative ds ++ rest)
  = Some (if negative
          then (- Z.of_N (Json.digits_value ds))%Z
          else Z.of_N (Json.digits_value ds), rest).
Proof.
  intros Hd Hne Hrest. unfold Json.match_exp, exponent_text.
  cbn [app]. change ((101 =? 101) || (101 =? 69))%N with true. cbv iota.
  destruct negative.
  - rewrite N.eqb_refl. rewrite (span_digits_app ds rest Hd Hrest).
    destruct ds; [congruence | reflexivity].
  - change (43 =? 45)%N with false. rewrite N.eqb_refl.
    rewrite (span_digits_app ds rest Hd Hrest).
    destruct ds; [congruence | reflexivity].
Qed.

Lemma match_exp_after_dot (s : pystr) : Json.match_exp (46%N :: s) = None.
Proof. reflexivity. Qed.

Lemma match_frac_after_e (negative : bool) (ds rest : pystr) :
  Json.match_frac (exponent_text negative ds ++ rest) = None.
Proof. reflexivity. Qed.

(** A literal with a fraction and no exponent. *)
Lemma match_number_fixed (neg : bool) (int frac rest : pystr) :
  IntPart int -> AllDigits frac -> frac <> [] -> Delimited rest ->
  Json.match_number (sign_text neg ++ int ++ 46%N :: frac ++ rest)
  = Some (Json.JFloat (Json.float_of_literal neg int frac 0), rest).
Proof.
  intros Hint Hfrac Hne Hrest.
  destruct (delimited_stops rest Hrest) as [Hstop [_ Hexp]].
  unfold Json.match_number.
  rewrite (match_integer_literal neg int (46%N :: frac ++ rest) Hint)
    by reflexivity.
  rewrite (match_frac_literal frac rest Hfrac Hne Hstop), Hexp.
  reflexivity.
Qed.

(** A literal with a fraction and an exponent. *)
Lemma match_number_scientific (neg negative : bool) (int frac ds rest : pystr) :
  IntPart int -> AllDigits frac -> frac <> [] ->
  AllDigits ds -> ds <> [] -> Delimited rest ->
  Json.match_number
    (sign_text neg ++ int ++ 46%N :: frac ++ exponent_text negative ds ++ rest)
  = Some (Json.JFloat
            (Json.float_of_literal neg int frac
               (if negative
                then (- Z.of_N (Json.digits_value ds))%Z
                else Z.of_N (Json.digits_value ds))), rest).
Proof.
  intros Hint Hfrac Hne Hds Hdne Hrest.
  destruct (delimited_stops rest Hrest) as [Hstop _].
  unfold Json.match_number.
  rewrite (match_integer_literal neg int _ Hint) by reflexivity.
  rewrite (match_frac_literal frac _ Hfrac Hne) by reflexivity.
  rewrite (match_exp_literal negative ds rest Hds Hdne Hstop).
  reflexivity.
Qed.

(** A literal with an exponent and no fraction. *)
Lemma match_number_exponent (neg negative : bool) (int ds rest : pystr) :
  IntPart int -> AllDigits ds -> ds <> [] -> Delimited rest ->
  Json.match_number (sign_text neg ++ int ++ exponent_text negative ds ++ rest)
  = Some (Json.JFloat
            (Json.float_of_literal neg int []
               (if negative
                then (- Z.of_N (Json.digits_value ds))%Z
                else Z.of_N (Json.digits_value ds))), rest).
Proof.
  intros Hint Hds Hdne Hrest.
  destruct (delimited_stops rest Hrest) as [Hstop _].
  unfold Json.match_number.
  rewrite (match_integer_literal neg int _ Hint) by reflexivity.
  rewrite match_frac_after_e.
  rewrite (match_exp_literal negative ds rest Hds Hdne Hstop).
  reflexivity.
Qed.

(** ** The value of a literal *)

Lemma float_of_literal_decimal (q : Q) (neg : bool) (int frac : pystr)
    (exp : Z) (a b : nat) :
  Qred q = q ->
  neg = (Qnum q <? 0)%Z ->
  (exp - Z.of_nat (length frac) = Z.of_nat a - Z.of_nat b)%Z ->
  (Z.of_N (Json.digits_value (int ++ frac)) * 10 ^ Z.of_nat a * Z.pos (Qden q)
   = Z.abs (Qnum q) * 10 ^ Z.of_nat b)%Z ->
  Json.float_of_literal neg int frac exp = q.
Proof.
  intros Hcanon Hneg Hscale Hvalue.
  unfold Json.float_of_literal.
  set (V := Z.of_N (Json.digits_value (int ++ frac))) in *.
  set (mant := if neg then (- V)%Z else V).
  transitivity (Qred q); [| exact Hcanon]. apply Qred_complete.
  assert (Hmant : (mant * 10 ^ Z.of_nat a * Z.pos (Qden q)
                   = Qnum q * 10 ^ Z.of_nat b)%Z).
  { subst mant. destruct neg.
    - symmetry in Hneg. apply Z.ltb_lt in Hneg.
      rewrite Z.abs_neq in Hvalue by lia. lia.
    - symmetry in Hneg. apply Z.ltb_ge in Hneg.
      rewrite Z.abs_eq in Hvalue by lia. lia. }
  assert (Ha : (0 < 10 ^ Z.of_nat a)%Z) by (apply Z.pow_pos_nonneg; lia).
  assert (Hb : (0 < 10 ^ Z.of_nat b)%Z) by (apply Z.pow_pos_nonneg; lia).
  destruct (Z.leb_spec 0 (exp - Z.of_nat (length frac))) as [Hpos | Hnegs].
  - unfold Qeq. cbn [Qnum Qden].
    replace (Z.of_nat a)
      with (exp - Z.of_nat (length frac) + Z.of_nat b)%Z in Hmant by lia.
    rewrite Z.pow_add_r in Hmant by lia.
    apply (Z.mul_cancel_r _ _ (10 ^ Z.of_nat b)%Z); [lia |].
    lia.
  - unfold Qeq. cbn [Qnum Qden].
    assert (Hp : (0 < 10 ^ (- (exp - Z.of_nat (length frac))))%Z)
      by (apply Z.pow_pos_nonneg; lia).
    rewrite Z2Pos.id by exact Hp.
    replace (Z.of_nat b)
      with (Z.of_nat a + - (exp - Z.of_nat (length frac)))%Z in Hmant by lia.
    rewrite Z.pow_add_r in Hmant by lia.
    apply (Z.mul_cancel_r _ _ (10 ^ Z.of_nat a)%Z); [lia |].
    lia.
Qed.

(** ** The digits of a float *)

Lemma decimal_places_divides (fuel k0 k : nat) (den : Z) :
  Json.decimal_places fuel k0 den = Some k ->
  (10 ^ Z.of_nat k mod den = 0)%Z.
Proof.
  revert k0. induction fuel as [|fuel IH]; intros k0; cbn [Json.decimal_places];
    destruct (Z.eqb_spec (10 ^ Z.of_nat k0 mod den) 0) as [E | _];
    intros H; try discriminate; try (injection H as <-; exact E).
  exact (IH _ H).
Qed.

Lemma strip_zeros_spec (rd0 : pystr) (d0 : nat) :
  exists j,
    snd (Json.strip_zeros rd0 d0) = d0 + j
    /\ rd0 = repeat 48%N j ++ fst (Json.strip_zeros rd0 d0)
    /\ (rd0 <> [] -> fst (Json.strip_zeros rd0 d0) <> []).
Proof.
  revert d0. induction rd0 as [|c t IH]; intros d0.
  - exists 0. cbn. repeat split; [lia | congruence].
  - cbn [Json.strip_zeros]. destruct (N.eqb_spec c 48) as [-> | Hc].
    + destruct t as [|c' t'].
      * exists 0. cbn. repeat split; [lia | congruence].
      * destruct (IH (S d0)) as [j [Hj [Ht Hne]]].
        exists (S j). repeat split.
        -- rewrite Hj. lia.
        -- cbn [repeat app]. rewrite <- Ht. reflexivity.
        -- intros _. apply Hne. discriminate.
    + exists 0. cbn. repeat split; [lia | congruence].
Qed.

Lemma float_digits_spec (q : Q) :
  Decimal q ->
  let D := fst (Json.float_digits q) in
  let decpt := snd (Json.float_digits q) in
  AllDigits D
  /\ ((D = [48%N] /\ decpt = 1%Z) \/ exists c t, D = c :: t /\ c <> 48%N)
  /\ exists z k : nat,
       (decpt = Z.of_nat (length D) + Z.of_nat z - Z.of_nat k)%Z
       /\ (Z.of_N (Json.digits_value D) * 10 ^ Z.of_nat z * Z.pos (Qden q)
           = Z.abs (Qnum q) * 10 ^ Z.of_nat k)%Z.
Proof.
  intros [Hcanon [k Hk]]. unfold Json.float_digits. rewrite Hcanon, Hk.
  pose proof (decimal_places_divides _ _ _ _ Hk) as Hdiv.
  set (num := Z.abs (Qnum q)) in *. set (den := Z.pos (Qden q)) in *.
  assert (Hc : exists c, (10 ^ Z.of_nat k = c * den)%Z).
  { exists (10 ^ Z.of_nat k / den)%Z.
    rewrite Z.mul_comm. apply Z.div_exact; [subst den; lia | exact Hdiv]. }
  destruct Hc as [c Hc].
  assert (Hm : (num * 10 ^ Z.of_nat k / den = num * c)%Z).
  { rewrite Hc, Z.mul_assoc. apply Z.div_mul. subst den. lia. }
  rewrite Hm. set (m := (num * c)%Z) in *.
  assert (Hmden : (m * den = num * 10 ^ Z.of_nat k)%Z) by (subst m; lia).
  assert (Hm0 : (0 <= m)%Z).
  { assert (0 < 10 ^ Z.of_nat k)%Z by (apply Z.pow_pos_nonneg; lia).
    subst num den. nia. }
  destruct (strip_zeros_spec (rev (digits (Z.to_N m))) 0) as [j [Hj [Hrev Hne]]].
  destruct (Json.strip_zeros (rev (digits (Z.to_N m))) 0) as [rd zeros].
  cbn [fst snd] in Hj, Hrev, Hne. cbv zeta.
  destruct (Z.eqb_spec m 0) as [E0 | Hnz]; cbn [fst snd].
  - split; [repeat constructor |]. split; [left; split; reflexivity |].
    exists 0, 0. split; [reflexivity |].
    assert (num = 0)%Z.
    { assert (0 < 10 ^ Z.of_nat k)%Z by (apply Z.pow_pos_nonneg; lia).
      subst den. nia. }
    subst num. rewrite H. reflexivity.
  - assert (Hdig : digits (Z.to_N m) = rev rd ++ repeat 48%N j).
    { rewrite <- (rev_involutive (digits (Z.to_N m))), Hrev, rev_app_distr,
        rev_repeat. reflexivity. }
    pose proof (digits_all_digits (Z.to_N m)) as Hall.
    rewrite Hdig in Hall. apply List.Forall_app in Hall as [HallD _].
    destruct (digits_head (Z.to_N m) ltac:(lia)) as [c0 [t0 [Hd0 [_ Hc0]]]].
    assert (HD : exists t, rev rd = c0 :: t).
    { destruct (rev rd) as [|c1 t1] eqn:E.
      - exfalso. apply Hne.
        + intros H. apply (f_equal (@length N)) in H.
          rewrite length_rev, Hd0 in H. discriminate.
        + rewrite <- (rev_involutive rd), E. reflexivity.
      - rewrite Hdig in Hd0. injection Hd0 as -> _. eauto. }
    destruct HD as [t HD].
    split; [exact HallD |]. split; [right; eauto |].
    exists j, k. split.
    + rewrite length_rev. lia.
    + pose proof (digits_value_digits (Z.to_N m)) as Hv.
      rewrite Hdig, digits_value_app, digits_value_zeros, repeat_length in Hv.
      rewrite N.add_0_r in Hv.
      assert (Hz : (Z.of_N (Json.digits_value (rev rd)) * 10 ^ Z.of_nat j = m)%Z).
      { rewrite <- (Z2N.id m Hm0), <- Hv, N2Z.inj_mul, N2Z.inj_pow, nat_N_Z.
        reflexivity. }
      rewrite Hz. exact Hmden.
Qed.

(** ** Every decimal is read back from its [repr] *)

Lemma two_digits_exponent (n : N) :
  AllDigits (two_digits n) /\ two_digits n <> []
  /\ Json.digits_value (two_digits n) = n.
Proof.
  unfold two_digits. destruct (N.ltb_spec n 10) as [Hlt | Hge].
  - repeat split; [| discriminate |].
    + repeat constructor. unfold Json.is_digit, digit_char.
      apply andb_true_iff. split; apply N.leb_le; lia.
    + unfold Json.digits_value, digit_char. cbn [fold_left]. lia.
  - repeat split; [apply digits_all_digits | | apply digits_value_digits].
    pose proof (digits_long n Hge) as Hl. intros E. rewrite E in Hl.
    simpl in Hl. lia.
Qed.

Lemma float_lt_zero (q : Q) : float_lt q 0 = (Qnum q <? 0)%Z.
Proof.
  destruct (float_lt_spec q 0) as [H | H]; symmetry.
  - apply Z.ltb_lt. unfold Qlt in H. simpl in H. lia.
  - apply Z.ltb_ge. unfold Qle in H. simpl in H. lia.
Qed.

Lemma int_part_head (c : N) (t : pystr) :
  AllDigits (c :: t) -> IntPart [c].
Proof.
  intros Hd. destruct (N.eq_dec c 48%N) as [-> | Hc]; [left; reflexivity |].
  right. split; [| eauto].
  inversion Hd; subst. repeat constructor. assumption.
Qed.

Theorem decimal_round_trips (q : Q) : Decimal q -> FloatRoundTrips q.
Proof.
  intros Hq rest Hrest.
  pose proof (float_digits_spec q Hq) as Hspec. cbv zeta in Hspec.
  destruct Hq as [Hcanon _].
  unfold Json.float_repr.
  destruct (Json.float_digits q) as [D decpt]. cbn [fst snd] in Hspec.
  destruct Hspec as [HD [Hhead [z [k [Hdec Hval]]]]].
  pose proof (float_lt_zero q) as Hneg.
  change (if float_lt q 0 then str "-" else [])
    with (sign_text (float_lt q 0)).
  set (neg := float_lt q 0) in *.
  rewrite <- app_assoc.
  assert (HDne : exists c t, D = c :: t).
  { destruct Hhead as [[-> _] | [c [t [-> _]]]]; eauto. }
  destruct HDne as [c [t HDeq]].
  destruct ((decpt <=? -4) || (16 <? decpt))%Z eqn:Hsci.
  - (* scientific notation *)
    subst D. cbn [firstn skipn].
    destruct (two_digits_exponent (Z.to_N (Z.abs (decpt - 1))))
      as [HE [HEne HEval]].
    rewrite format_02d_nonneg by lia.
    set (E := two_digits (Z.to_N (Z.abs (decpt - 1)))) in *.
    assert (Hexp : forall negative : bool,
               negative = (decpt - 1 <? 0)%Z ->
               (if negative
                then (- Z.of_N (Json.digits_value E))%Z
                else Z.of_N (Json.digits_value E)) = (decpt - 1)%Z).
    { intros negative ->. rewrite HEval.
      destruct (Z.ltb_spec (decpt - 1) 0); lia. }
    assert (Hlit : forall frac,
               frac = t ->
               Json.float_of_literal neg [c] frac (decpt - 1) = q).
    { intros frac ->.
      apply (float_of_literal_decimal q neg [c] t (decpt - 1) z k);
        [exact Hcanon | exact Hneg | | exact Hval].
      cbn [length] in Hdec. lia. }
    destruct t as [|c1 t1].
    + (* one digit: no fraction *)
      destruct (decpt - 1 <? 0)%Z eqn:He.
      * change (Json.match_number
                  (sign_text neg ++ [c] ++ exponent_text true E ++ rest)
                = Some (Json.JFloat q, rest)).
        rewrite (match_number_exponent neg true [c] E rest
                   (int_part_head c [] HD) HE HEne Hrest).
        rewrite (Hexp true eq_refl), (Hlit [] eq_refl). reflexivity.
      * change (Json.match_number
                  (sign_text neg ++ [c] ++ exponent_text false E ++ rest)
                = Some (Json.JFloat q, rest)).
        rewrite (match_number_exponent neg false [c] E rest
                   (int_part_head c [] HD) HE HEne Hrest).
        rewrite (Hexp false eq_refl), (Hlit [] eq_refl). reflexivity.
    + assert (Hfrac : AllDigits (c1 :: t1)) by (inversion HD; assumption).
      destruct (decpt - 1 <? 0)%Z eqn:He.
      * cbn [firstn skipn].
        replace (([c] ++ (str "." ++ c1 :: t1) ++ str "e" ++ str "-" ++ E)
                 ++ rest)
          with ([c] ++ 46%N :: (c1 :: t1) ++ exponent_text true E ++ rest)
          by (change (str ".") with [46%N]; cbn [app];
              rewrite <- !app_assoc; reflexivity).
        rewrite (match_number_scientific neg true [c] (c1 :: t1) E rest
                   (int_part_head c _ HD) Hfrac ltac:(discriminate)
                   HE HEne Hrest).
        rewrite (Hexp true eq_refl), (Hlit _ eq_refl). reflexivity.
      * cbn [firstn skipn].
        replace (([c] ++ (str "." ++ c1 :: t1) ++ str "e" ++ str "+" ++ E)
                 ++ rest)
          with ([c] ++ 46%N :: (c1 :: t1) ++ exponent_text false E ++ rest)
          by (change (str ".") with [46%N]; cbn [app];
              rewrite <- !app_assoc; reflexivity).
        rewrite (match_number_scientific neg false [c] (c1 :: t1) E rest
                   (int_part_head c _ HD) Hfrac ltac:(discriminate)
                   HE HEne Hrest).
        rewrite (Hexp false eq_refl), (Hlit _ eq_refl). reflexivity.
  - apply orb_false_iff in Hsci as [Hlo Hhi].
    apply Z.leb_gt in Hlo. apply Z.ltb_ge in Hhi.
    destruct (Z.leb_spec decpt 0) as [Hsmall | Hpos].
    + (* 0.000ddd *)
      set (zeros := repeat 48%N (Z.to_nat (- decpt))).
      replace ((str "0." ++ zeros ++ D) ++ rest)
        with ([48%N] ++ 46%N :: (zeros ++ D) ++ rest)
        by (change (str "0.") with [48%N; 46%N]; cbn [app];
            rewrite <- !app_assoc; reflexivity).
      assert (Hfrac : AllDigits (zeros ++ D)).
      { apply List.Forall_app. split; [apply all_digits_zeros | exact HD]. }
      rewrite (match_number_fixed neg [48%N] (zeros ++ D) rest
                 ltac:(left; reflexivity) Hfrac
                 ltac:(subst D; destruct zeros; discriminate) Hrest).
      rewrite (float_of_literal_decimal q neg [48%N] (zeros ++ D) 0 z k);
        [reflexivity | exact Hcanon | exact Hneg | |].
      * subst zeros. rewrite length_app, repeat_length. lia.
      * replace (Json.digits_value ([48%N] ++ zeros ++ D))
          with (Json.digits_value D); [exact Hval |].
        subst zeros.
        change ([48%N] ++ repeat 48%N (Z.to_nat (- decpt)) ++ D)
          with (repeat 48%N (S (Z.to_nat (- decpt))) ++ D).
        rewrite digits_value_app, digits_value_zeros. lia.
    + destruct (Z.leb_spec (Z.of_nat (length D)) decpt) as [Hbig | Hmid].
      * (* ddd000.0 *)
        set (j := Z.to_nat (decpt - Z.of_nat (length D))).
        set (zeros := repeat 48%N j).
        replace ((D ++ zeros ++ str ".0") ++ rest)
          with ((D ++ zeros) ++ 46%N :: [48%N] ++ rest)
          by (change (str ".0") with [46%N; 48%N]; cbn [app];
              rewrite <- !app_assoc; reflexivity).
        assert (Hint : IntPart (D ++ zeros)).
        { destruct Hhead as [[-> Hone] | [c0 [t0 [E0 Hc0]]]].
          - left. subst zeros j. rewrite Hone. reflexivity.
          - right. split.
            + apply List.Forall_app. split; [exact HD | apply all_digits_zeros].
            + exists c0, (t0 ++ zeros). rewrite E0. split; [reflexivity | exact Hc0]. }
        rewrite (match_number_fixed neg (D ++ zeros) [48%N] rest Hint
                   ltac:(repeat constructor) ltac:(discriminate) Hrest).
        rewrite (float_of_literal_decimal q neg (D ++ zeros) [48%N] 0 0 1);
          [reflexivity | exact Hcanon | exact Hneg | reflexivity |].
        subst zeros.
        rewrite <- app_assoc, !digits_value_app, digits_value_zeros.
        rewrite length_app, repeat_length.
        change (Json.digits_value [48%N]) with 0%N.
        change (length [48%N]) with 1.
        assert (Hzk : (Z.of_nat z = Z.of_nat k + Z.of_nat j)%Z) by lia.
        rewrite Hzk, Z.pow_add_r in Hval by lia.
        assert (Hk : (0 < 10 ^ Z.of_nat k)%Z) by (apply Z.pow_pos_nonneg; lia).
        rewrite !N2Z.inj_add, !N2Z.inj_mul, !N2Z.inj_pow, !nat_N_Z.
        rewrite Nat2Z.inj_add, Z.pow_add_r by lia.
        change (Z.of_N 10) with 10%Z. change (Z.of_N 0) with 0%Z.
        change (10 ^ Z.of_nat 1)%Z with 10%Z.
        change (10 ^ Z.of_nat 0)%Z with 1%Z.
        apply (Z.mul_cancel_r _ _ (10 ^ Z.of_nat k)%Z); [lia |].
        nia.
      * (* ddd.ddd *)
        set (p := Z.to_nat decpt).
        replace ((firstn p D ++ str "." ++ skipn p D) ++ rest)
          with (firstn p D ++ 46%N :: skipn p D ++ rest)
          by (change (str ".") with [46%N]; cbn [app];
              rewrite <- !app_assoc; reflexivity).
        assert (Hp : 0 < p < length D) by (subst p; lia).
        assert (Hint : IntPart (firstn p D)).
        { right. split.
          - apply Forall_take. exact HD.
          - destruct Hhead as [[E0 _] | [c0 [t0 [E0 Hc0]]]].
            + rewrite E0 in Hp. simpl in Hp. lia.
            + exists c0, (firstn (p - 1) t0). rewrite E0.
              destruct p as [|p']; [lia |]. cbn [firstn].
              replace (S p' - 1) with p' by lia.
              split; [reflexivity | exact Hc0]. }
        assert (Hfrac : AllDigits (skipn p D)) by (apply Forall_drop; exact HD).
        assert (Hfne : skipn p D <> []).
        { intros E0. apply (f_equal (@length N)) in E0.
          rewrite length_skipn in E0. simpl in E0. lia. }
        rewrite (match_number_fixed neg (firstn p D) (skipn p D) rest
                   Hint Hfrac Hfne Hrest).
        rewrite (float_of_literal_decimal q neg (firstn p D) (skipn p D) 0 z k);
          [reflexivity | exact Hcanon | exact Hneg | |].
        -- rewrite length_skipn. lia.
        -- rewrite firstn_skipn. exact Hval.
Qed.

(** An int is read back from its decimal rendering. *)
Lemma match_number_int (z : Z) (rest : pystr) :
  Delimited rest ->
  Json.match_number (str_int z ++ rest) = Some (Json.JInt z, rest).
Proof.
  intros Hrest.
  destruct (delimited_stops rest Hrest) as [Hstop [Hfrac Hexp]].
  assert (Hint : IntPart (digits (Z.abs_N z))).
  { destruct (N.eq_dec (Z.abs_N z) 0%N) as [E | E].
    - left. rewrite E. reflexivity.
    - right. split; [apply digits_all_digits |].
      destruct (digits_head (Z.abs_N z) ltac:(lia)) as [c [t [Hd [_ Hc]]]].
      eauto. }
  assert (Htext : str_int z ++ rest
                  = sign_text (z <? 0)%Z ++ digits (Z.abs_N z) ++ rest).
  { unfold str_int, sign_text. destruct (z <? 0)%Z; [| reflexivity].
    change (str "-") with [45%N]. rewrite <- app_assoc. reflexivity. }
  rewrite Htext. unfold Json.match_number.
  rewrite (match_integer_literal _ _ _ Hint Hstop), Hfrac, Hexp.
  rewrite digits_value_digits, N2Z.inj_abs_N.
  destruct (Z.ltb_spec z 0); do 3 f_equal; lia.
Qed.

(* ===================================================================== *)
(** * JSON documents: decoding an encoded document *)
(* ===================================================================== *)

Lemma skip_ws_start (s : pystr) : ValueStart s -> Json.skip_ws s = s.
Proof.
  destruct s as [|c t]; [contradiction |]. intros [H _].
  cbn [Json.skip_ws]. rewrite H. reflexivity.
Qed.

Lemma skip_ws_indent (n : nat) (s : pystr) :
  Json.skip_ws (repeat 32%N n ++ s) = Json.skip_ws s.
Proof. induction n as [|n IH]; [reflexivity | exact IH]. Qed.

Lemma skip_ws_newline_indent (level : nat) (s : pystr) :
  Json.skip_ws (Json.newline_indent level ++ s) = Json.skip_ws s.
Proof.
  unfold Json.newline_indent, nl. rewrite <- app_assoc.
  cbn [app Json.skip_ws]. change (Json.is_ws 10) with true. cbv iota.
  apply skip_ws_indent.
Qed.

Lemma newline_indent_delimited (level : nat) (s : pystr) :
  Delimited (Json.newline_indent level ++ s).
Proof. right. reflexivity. Qed.

Lemma item_separator_delimited (level : nat) (s : pystr) :
  Delimited (item_separator level ++ s).
Proof. left. reflexivity. Qed.

Lemma match_number_head (s : pystr) (r : Json.value * pystr) :
  Json.match_number s = Some r ->
  match s with
  | c :: _ => c = 45%N \/ Json.is_digit c = true
  | [] => False
  end.
Proof.
  unfold Json.match_number.
  destruct (Json.match_integer s) as [[[neg int] r0] |] eqn:E; [| discriminate].
  intros _. unfold Json.match_integer in E.
  destruct s as [|c t]; [discriminate |].
  destruct (N.eqb_spec c 45) as [-> | Hc]; [left; reflexivity |].
  right. destruct (N.eqb_spec c 48) as [-> | H48]; [reflexivity |].
  destruct (Json.is_digit c); [reflexivity | discriminate].
Qed.

Lemma number_head_start (c : N) :
  c = 45%N \/ Json.is_digit c = true ->
  Json.is_ws c = false
  /\ c <> 93%N /\ c <> 125%N /\ c <> 34%N /\ c <> 123%N /\ c <> 91%N
  /\ c <> 110%N /\ c <> 116%N /\ c <> 102%N.
Proof.
  intros [-> | H]; [repeat split; (reflexivity || discriminate) |].
  unfold Json.is_digit in H. apply andb_true_iff in H as [Hlo Hhi].
  apply N.leb_le in Hlo, Hhi.
  repeat split; try lia.
  unfold Json.is_ws.
  repeat (apply orb_false_iff; split); apply N.eqb_neq; lia.
Qed.

Lemma strip_prefix_mismatch (p : string) (c : N) (t : pystr) :
  match str p with
  | p0 :: _ => p0 <> c
  | [] => False
  end ->
  Json.strip_prefix (str p) (c :: t) = None.
Proof.
  destruct (str p) as [|p0 p']; [contradiction |]. intros H.
  cbn [Json.strip_prefix]. rewrite (proj2 (N.eqb_neq p0 c) H). reflexivity.
Qed.

Lemma scan_once_number (s : pystr) (r : Json.value * pystr) (fuel : nat) :
  Json.match_number s = Some r ->
  Json.scan_once (S fuel) s = Some (inr r).
Proof.
  intros H. pose proof (match_number_head s r H) as Hhead.
  destruct s as [|c t]; [contradiction |].
  destruct (number_head_start c Hhead)
    as [_ [_ [_ [H34 [H123 [H91 [Hn [Ht Hf]]]]]]]].
  cbn -[Json.match_number Json.strip_prefix str].
  rewrite (proj2 (N.eqb_neq c 34) H34), (proj2 (N.eqb_neq c 123) H123),
    (proj2 (N.eqb_neq c 91) H91).
  rewrite (strip_prefix_mismatch "null" c t) by (change (110%N <> c); lia).
  rewrite (strip_prefix_mismatch "true" c t) by (change (116%N <> c); lia).
  rewrite (strip_prefix_mismatch "false" c t) by (change (102%N <> c); lia).
  rewrite H. reflexivity.
Qed.

Lemma dumps_start (v : Json.value) (level : nat) (rest : pystr) :
  Printable v -> ValueStart (Json.dumps_at level v ++ rest).
Proof.
  intros Hv.
  inversion Hv as [|b|z|q Hq|k|s Hs|items Hi|members Hn Hk Hm]; subst.
  - repeat split; discriminate.
  - destruct b; repeat split; discriminate.
  - pose proof (match_number_head _ _ (match_number_int z [] I)) as Hhead.
    rewrite app_nil_r in Hhead. cbn [Json.dumps_at].
    destruct (str_int z) as [|c t]; [contradiction |].
    destruct (number_head_start c Hhead) as [Hws [H93 [H125 _]]].
    repeat split; assumption.
  - pose proof (match_number_head _ _ (decimal_round_trips q Hq [] I))
      as Hhead.
    rewrite app_nil_r in Hhead. cbn [Json.dumps_at].
    destruct (Json.float_repr q) as [|c t]; [contradiction |].
    destruct (number_head_start c Hhead) as [Hws [H93 [H125 _]]].
    repeat split; assumption.
  - destruct k; repeat split; discriminate.
  - repeat split; discriminate.
  - destruct items; repeat split; discriminate.
  - destruct members; repeat split; discriminate.
Qed.

Lemma dumps_nonempty (v : Json.value) (level : nat) :
  Printable v -> 1 <= length (Json.dumps_at level v).
Proof.
  intros Hv. pose proof (dumps_start v level [] Hv) as H.
  rewrite app_nil_r in H.
  destruct (Json.dumps_at level v); [contradiction | simpl; lia].
Qed.

Lemma dumps_at_arr (level : nat) (x : Json.value) (xs : list Json.value) :
  Json.dumps_at level (Json.JArr (x :: xs))
  = 91%N :: Json.newline_indent (S level)
    ++ join (item_separator (S level))
         (List.map (Json.dumps_at (S level)) (x :: xs))
    ++ Json.newline_indent level ++ [93%N].
Proof. reflexivity. Qed.

Lemma dumps_at_obj (level : nat) (m : pystr * Json.value)
    (ms : list (pystr * Json.value)) :
  Json.dumps_at level (Json.JObj (m :: ms))
  = 123%N :: Json.newline_indent (S level)
    ++ join (item_separator (S level))
         (List.map (member_text (S level)) (m :: ms))
    ++ Json.newline_indent level ++ [125%N].
Proof. reflexivity. Qed.

Lemma dict_set_fresh (pairs : list (pystr * Json.value)) (k : pystr)
    (v : Json.value) :
  ~ In k (List.map fst pairs) -> Json.dict_set pairs k v = pairs ++ [(k, v)].
Proof.
  induction pairs as [|[k' v'] pairs IH]; intros Hk; [reflexivity |].
  cbn [Json.dict_set app]. destruct (decide (k' = k)) as [-> | Hne].
  - exfalso. apply Hk. left. reflexivity.
  - rewrite IH; [reflexivity |]. intros H. apply Hk. right. exact H.
Qed.

Lemma array_items_dumps (xs : list Json.value) :
  Forall Printable xs -> Forall ScansBack xs -> xs <> [] ->
  forall level acc rest fuel,
    3 * length (join (item_separator (S level))
                  (List.map (Json.dumps_at (S level)) xs)
                ++ Json.newline_indent level ++ 93%N :: rest) + 2 <= fuel ->
    Json.array_items fuel
      (join (item_separator (S level)) (List.map (Json.dumps_at (S level)) xs)
       ++ Json.newline_indent level ++ 93%N :: rest) acc
    = Some (inr (Json.JArr (acc ++ xs), rest)).
Proof.
  induction xs as [|x xs IH]; [congruence |].
  intros HP HS _ level acc rest fuel Hfuel.
  inversion HP as [|? ? HPx HPxs]; subst.
  inversion HS as [|? ? HSx HSxs]; subst.
  destruct fuel as [|fuel]; [lia |].
  destruct xs as [|y ys].
  - cbn [List.map join] in *. cbn [Json.array_items].
    rewrite HSx; [| apply newline_indent_delimited | lia].
    cbv zeta. rewrite skip_ws_newline_indent.
    cbn [Json.skip_ws]. change (Json.is_ws 93) with false. cbv iota.
    rewrite N.eqb_refl. reflexivity.
  - change (join (item_separator (S level))
              (List.map (Json.dumps_at (S level)) (x :: y :: ys)))
      with (Json.dumps_at (S level) x ++ item_separator (S level)
            ++ join (item_separator (S level))
                 (List.map (Json.dumps_at (S level)) (y :: ys))) in *.
    rewrite <- !app_assoc in *.
    set (next := join (item_separator (S level))
                   (List.map (Json.dumps_at (S level)) (y :: ys))
                 ++ Json.newline_indent level ++ 93%N :: rest) in *.
    cbn [Json.array_items].
    rewrite HSx; [| apply item_separator_delimited | lia].
    cbv zeta. unfold item_separator at 1.
    change (str ",") with [44%N]. cbn [app Json.skip_ws].
    change (Json.is_ws 44) with false. cbv iota.
    change (44 =? 93)%N with false. change (44 =? 44)%N with true. cbv iota.
    rewrite skip_ws_newline_indent.
    assert (Hstart : ValueStart next).
    { subst next. inversion HPxs as [|? ? HPy _]; subst.
      destruct ys; cbn [List.map join]; [| rewrite <- app_assoc];
        apply dumps_start; exact HPy. }
    rewrite (skip_ws_start next Hstart).
    replace (acc ++ x :: y :: ys) with ((acc ++ [x]) ++ y :: ys)
      by (rewrite <- app_assoc; reflexivity).
    apply IH; [exact HPxs | exact HSxs | discriminate |].
    pose proof (dumps_nonempty x (S level) HPx) as Hx.
    rewrite !length_app in Hfuel. unfold item_separator in Hfuel.
    rewrite !length_app in Hfuel. change (length (str ",")) with 1 in Hfuel.
    change (3 * length next + 2 <= fuel). lia.
Qed.

Lemma member_text_shape (level : nat) (k : pystr) (v : Json.value)
    (tail : pystr) :
  member_text level (k, v) ++ tail
  = 34%N :: (flat_map Json.escape_char k
             ++ 34%N :: 58%N :: 32%N :: Json.dumps_at level v ++ tail).
Proof.
  unfold member_text, Json.encode_string, dq. cbn [fst snd].
  change (str ": ") with [58%N; 32%N].
  rewrite <- !app_assoc. reflexivity.
Qed.

Lemma member_text_start (level : nat) (kv : pystr * Json.value)
    (tail : pystr) :
  ValueStart (member_text level kv ++ tail).
Proof.
  destruct kv as [k v]. rewrite member_text_shape.
  repeat split; discriminate.
Qed.

Lemma object_items_dumps (ms : list (pystr * Json.value)) :
  Forall (fun kv => ValidText (fst kv)) ms ->
  Forall (fun kv => Printable (snd kv)) ms ->
  Forall (fun kv => ScansBack (snd kv)) ms ->
  ms <> [] ->
  forall level pairs rest fuel,
    List.NoDup (List.map fst pairs ++ List.map fst ms) ->
    3 * length (join (item_separator (S level))
                  (List.map (member_text (S level)) ms)
                ++ Json.newline_indent level ++ 125%N :: rest) + 2 <= fuel ->
    Json.object_items fuel
      (join (item_separator (S level)) (List.map (member_text (S level)) ms)
       ++ Json.newline_indent level ++ 125%N :: rest) pairs
    = Some (inr (Json.JObj (pairs ++ ms), rest)).
Proof.
  induction ms as [|[k v] ms IH]; [congruence |].
  intros HK HP HS _ level pairs rest fuel Hdup Hfuel.
  inversion HK as [|? ? HKx HKxs]; subst.
  inversion HP as [|? ? HPx HPxs]; subst.
  inversion HS as [|? ? HSx HSxs]; subst.
  cbn [fst snd] in HKx, HPx, HSx.
  assert (Hfresh : ~ In k (List.map fst pairs)).
  { cbn [List.map fst] in Hdup. apply NoDup_remove_2 in Hdup.
    intros H. apply Hdup. apply in_or_app. left. exact H. }
  assert (Hdup' : List.NoDup (List.map fst (pairs ++ [(k, v)]) ++ List.map fst ms)).
  { rewrite map_app, <- app_assoc. exact Hdup. }
  destruct fuel as [|fuel]; [lia |].
  pose proof (dumps_nonempty v (S level) HPx) as Hlen.
  destruct ms as [|m ms'].
  - cbn [List.map join] in *.
    rewrite member_text_shape in *.
    cbn [Json.object_items]. rewrite N.eqb_refl.
    rewrite (scanstring_encoded k HKx). cbv zeta. cbn [app].
    cbn [Json.skip_ws]. change (Json.is_ws 58) with false. cbv iota.
    rewrite N.eqb_refl.
    cbn [Json.skip_ws]. change (Json.is_ws 32) with true. cbv iota.
    rewrite (skip_ws_start _ (dumps_start v (S level) _ HPx)).
    rewrite HSx; [| apply newline_indent_delimited |].
    + rewrite skip_ws_newline_indent.
      cbn [Json.skip_ws]. change (Json.is_ws 125) with false. cbv iota.
      rewrite N.eqb_refl. rewrite dict_set_fresh by exact Hfresh.
      reflexivity.
    + cbn [length] in Hfuel. rewrite length_app in Hfuel.
      cbn [length] in Hfuel. lia.
  - change (join (item_separator (S level))
              (List.map (member_text (S level)) ((k, v) :: m :: ms')))
      with (member_text (S level) (k, v) ++ item_separator (S level)
            ++ join (item_separator (S level))
                 (List.map (member_text (S level)) (m :: ms'))) in *.
    rewrite <- !app_assoc in *.
    set (next := join (item_separator (S level))
                   (List.map (member_text (S level)) (m :: ms'))
                 ++ Json.newline_indent level ++ 125%N :: rest) in *.
    rewrite member_text_shape in *.
    cbn [Json.object_items]. rewrite N.eqb_refl.
    rewrite (scanstring_encoded k HKx). cbv zeta. cbn [app].
    cbn [Json.skip_ws]. change (Json.is_ws 58) with false. cbv iota.
    rewrite N.eqb_refl.
    cbn [Json.skip_ws]. change (Json.is_ws 32) with true. cbv iota.
    rewrite (skip_ws_start _ (dumps_start v (S level) _ HPx)).
    rewrite HSx; [| apply item_separator_delimited |].
    + unfold item_separator at 1.
      change (str ",") with [44%N]. cbn [app Json.skip_ws].
      change (Json.is_ws 44) with false. cbv iota.
      change (44 =? 125)%N with false. change (44 =? 44)%N with true.
      cbv iota.
      rewrite skip_ws_newline_indent.
      assert (Hstart : ValueStart next).
      { subst next. destruct ms'; cbn [List.map join];
          [| rewrite <- app_assoc]; apply member_text_start. }
      rewrite (skip_ws_start next Hstart).
      rewrite dict_set_fresh by exact Hfresh.
      replace (pairs ++ (k, v) :: m :: ms')
        with ((pairs ++ [(k, v)]) ++ m :: ms')
        by (rewrite <- app_assoc; reflexivity).
      apply IH; [exact HKxs | exact HPxs | exact HSxs | discriminate
                | exact Hdup' |].
      cbn [length] in Hfuel. rewrite !length_app in Hfuel.
      cbn [length] in Hfuel. rewrite !length_app in Hfuel.
      change (3 * length next + 2 <= fuel). lia.
    + cbn [length] in Hfuel. rewrite length_app in Hfuel.
      cbn [length] in Hfuel. lia.
Qed.

(** Every printable document is scanned back from its encoding. *)
Lemma printable_scans_back (v : Json.value) : Printable v -> ScansBack v.
Proof.
  induction v as [| b | z | q | k | s | items IH | members IH]
    using value_induction;
    intros Hv level rest fuel Hrest Hfuel;
    (destruct fuel as [|fuel]; [lia |]);
    inversion Hv
      as [| ? | ? | ? Hq | ? | ? Hs | ? Hitems | ? Hdup Hkeys Hvals];
    subst.
  - reflexivity.
  - destruct b; reflexivity.
  - apply scan_once_number. apply match_number_int. exact Hrest.
  - apply scan_once_number. apply decimal_round_trips; assumption.
  - destruct k; reflexivity.
  - cbn [Json.dumps_at]. unfold Json.encode_string, dq.
    rewrite <- !app_assoc. cbn [app Json.scan_once]. rewrite N.eqb_refl.
    rewrite (scanstring_encoded s Hs). reflexivity.
  - destruct items as [|x xs].
    { destruct fuel as [|fuel]; [| reflexivity].
      rewrite length_app in Hfuel.
      change (length (Json.dumps_at level (Json.JArr []))) with 2 in Hfuel.
      lia. }
    rewrite dumps_at_arr in *. cbn [app] in *.
    rewrite <- !app_assoc in *. cbn [app Json.scan_once] in *.
    change (91 =? 34)%N with false. change (91 =? 123)%N with false.
    rewrite N.eqb_refl. cbv iota.
    destruct fuel as [|fuel]; [cbn [length] in Hfuel; lia |].
    cbn [Json.JSONArray]. cbv zeta. rewrite skip_ws_newline_indent.
    set (body := join (item_separator (S level))
                   (List.map (Json.dumps_at (S level)) (x :: xs))
                 ++ Json.newline_indent level ++ 93%N :: rest) in *.
    assert (Hstart : ValueStart body).
    { subst body. inversion Hitems as [|? ? Hx _]; subst.
      destruct xs; cbn [List.map join]; [| rewrite <- app_assoc];
        apply dumps_start; exact Hx. }
    rewrite (skip_ws_start body Hstart).
    assert (Hbody : Json.array_items fuel body []
                    = Some (inr (Json.JArr (x :: xs), rest))).
    { apply (array_items_dumps (x :: xs)); [exact Hitems | | discriminate |].
      - clear -IH Hitems. induction IH as [|a l Ha _ IHl]; constructor.
        + apply Ha. inversion Hitems; assumption.
        + apply IHl. inversion Hitems; assumption.
      - cbn [length] in Hfuel. rewrite length_app in Hfuel.
        change (3 * length body + 2 <= fuel). lia. }
    destruct body as [|c tail]; [contradiction |].
    destruct Hstart as [_ [H93 _]].
    rewrite (proj2 (N.eqb_neq c 93) H93). exact Hbody.
  - destruct members as [|m ms].
    { destruct fuel as [|fuel]; [| reflexivity].
      rewrite length_app in Hfuel.
      change (length (Json.dumps_at level (Json.JObj []))) with 2 in Hfuel.
      lia. }
    rewrite dumps_at_obj in *. cbn [app] in *.
    rewrite <- !app_assoc in *. cbn [app Json.scan_once] in *.
    change (123 =? 34)%N with false. rewrite N.eqb_refl. cbv iota.
    destruct fuel as [|fuel]; [cbn [length] in Hfuel; lia |].
    cbn [Json.JSONObject]. cbv zeta. rewrite skip_ws_newline_indent.
    set (body := join (item_separator (S level))
                   (List.map (member_text (S level)) (m :: ms))
                 ++ Json.newline_indent level ++ 125%N :: rest) in *.
    assert (Hstart : ValueStart body).
    { subst body. destruct ms; cbn [List.map join];
        [| rewrite <- app_assoc]; apply member_text_start. }
    rewrite (skip_ws_start body Hstart).
    assert (Hbody : Json.object_items fuel body []
                    = Some (inr (Json.JObj (m :: ms), rest))).
    { apply (object_items_dumps (m :: ms));
        [exact Hkeys | exact Hvals | | discriminate | exact Hdup |].
      - clear -IH Hvals. induction IH as [|a l Ha _ IHl]; constructor.
        + apply Ha. inversion Hvals; assumption.
        + apply IHl. inversion Hvals; assumption.
      - cbn [length] in Hfuel. rewrite length_app in Hfuel.
        change (3 * length body + 2 <= fuel). lia. }
    destruct body as [|c tail]; [contradiction |].
    destruct Hstart as [_ [_ H125]].
    rewrite (proj2 (N.eqb_neq c 125) H125). exact Hbody.
Qed.

(** [json.loads(json.dumps(v, indent=2))] is [v]. *)
Lemma loads_dumps (v : Json.value) :
  Printable v -> Json.loads (Json.dumps v) = inr v.
Proof.
  intros Hv. unfold Json.loads, Json.loads_fuel, Json.dumps.
  pose proof (dumps_start v 0 [] Hv) as Hstart.
  rewrite app_nil_r in Hstart. rewrite (skip_ws_start _ Hstart).
  pose proof (printable_scans_back v Hv 0 [] (Json.fuel_for (Json.dumps_at 0 v)) I)
    as H.
  rewrite app_nil_r in H. rewrite H; [reflexivity |].
  unfold Json.fuel_for. lia.
Qed.

(* ===================================================================== *)
(** * The decoder terminates within its fuel *)
(* ===================================================================== *)

Lemma skip_ws_length (s : pystr) : length (Json.skip_ws s) <= length s.
Proof.
  induction s as [|c t IH]; [reflexivity |]. cbn [Json.skip_ws].
  destruct (Json.is_ws c); simpl; lia.
Qed.

Lemma span_digits_length (s : pystr) :
  length (fst (Json.span_digits s)) + length (snd (Json.span_digits s))
  = length s.
Proof.
  induction s as [|c t IH]; [reflexivity |]. cbn [Json.span_digits].
  destruct (Json.is_digit c); [| reflexivity].
  destruct (Json.span_digits t) as [d r]. simpl in *. lia.
Qed.

Lemma strip_prefix_length (p s r : pystr) :
  Json.strip_prefix p s = Some r -> length s = length p + length r.
Proof.
  revert s. induction p as [|a p IH]; intros s H.
  - injection H as <-. reflexivity.
  - destruct s as [|b s]; [discriminate |]. cbn [Json.strip_prefix] in H.
    destruct (a =? b)%N; [| discriminate].
    apply IH in H. simpl. lia.
Qed.

(** Case analysis on every test of a hypothesis, closing the branches
    that are contradictory. *)
Ltac split_cases H :=
  repeat (cbv beta match in H;
          match type of H with
          | context [match ?x with _ => _ end] => destruct x eqn:?
          | inl _ = inr _ => discriminate H
          | None = Some _ => discriminate H
          end).

Lemma match_integer_length (s : pystr) (neg : bool) (int r : pystr) :
  Json.match_integer s = Some (neg, int, r) -> length r < length s.
Proof.
  unfold Json.match_integer. intros H.
  destruct s as [|c t]; [discriminate |].
  destruct (c =? 45)%N.
  - destruct t as [|c' t']; [discriminate |].
    destruct (c' =? 48)%N; [injection H as _ _ <-; simpl; lia |].
    destruct (Json.is_digit c'); [| discriminate].
    pose proof (span_digits_length (c' :: t')) as Hl.
    destruct (Json.span_digits (c' :: t')) as [d r'] eqn:E.
    injection H as _ _ <-. simpl in *. lia.
  - destruct (c =? 48)%N; [injection H as _ _ <-; simpl; lia |].
    destruct (Json.is_digit c) eqn:Hd; [| discriminate].
    pose proof (span_digits_length (c :: t)) as Hl.
    cbn [Json.span_digits] in *. rewrite Hd in *.
    destruct (Json.span_digits t) as [d r'] eqn:E.
    injection H as _ _ <-. simpl in *. lia.
Qed.

Lemma match_frac_length (s d r : pystr) :
  Json.match_frac s = Some (d, r) -> length r <= length s.
Proof.
  unfold Json.match_frac. intros H.
  destruct s as [|c t]; [discriminate |].
  destruct (c =? 46)%N; [| discriminate].
  pose proof (span_digits_length t) as Hl.
  destruct (Json.span_digits t) as [d' r'].
  destruct d'; [discriminate |]. injection H as _ <-. simpl in *. lia.
Qed.

Lemma match_exp_length (s : pystr) (e : Z) (r : pystr) :
  Json.match_exp s = Some (e, r) -> length r <= length s.
Proof.
  unfold Json.match_exp. intros H.
  destruct s as [|c t]; [discriminate |].
  destruct ((c =? 101) || (c =? 69))%N; [| discriminate].
  destruct t as [|sign u].
  - cbn in H. discriminate.
  - pose proof (span_digits_length u) as Hu.
    pose proof (span_digits_length (sign :: u)) as Hsu.
    destruct (sign =? 45)%N; [| destruct (sign =? 43)%N].
    + destruct (Json.span_digits u) as [d' r']. destruct d'; [discriminate |].
      injection H as _ <-. simpl in *. lia.
    + destruct (Json.span_digits u) as [d' r']. destruct d'; [discriminate |].
      injection H as _ <-. simpl in *. lia.
    + destruct (Json.span_digits (sign :: u)) as [d' r'].
      destruct d'; [discriminate |].
      injection H as _ <-. simpl in *. lia.
Qed.

Lemma match_number_length (s : pystr) (v : Json.value) (r : pystr) :
  Json.match_number s = Some (v, r) -> length r < length s.
Proof.
  unfold Json.match_number. intros H.
  destruct (Json.match_integer s) as [[[neg int] r0] |] eqn:Ei; [| discriminate].
  apply match_integer_length in Ei.
  assert (H1 : forall f r1,
             match Json.match_frac r0 with
             | Some (f0, r) => (Some f0, r)
             | None => (None, r0)
             end = (f, r1) -> length r1 <= length r0).
  { intros f r1 E. destruct (Json.match_frac r0) as [[f0 r'] |] eqn:Ef.
    - apply match_frac_length in Ef. injection E as _ <-. exact Ef.
    - injection E as _ <-. lia. }
  destruct (match Json.match_frac r0 with
            | Some (f0, r) => (Some f0, r)
            | None => (None, r0)
            end) as [frac r1] eqn:E1.
  specialize (H1 _ _ eq_refl).
  assert (H2 : forall e r2,
             match Json.match_exp r1 with
             | Some (e0, r) => (Some e0, r)
             | None => (None, r1)
             end = (e, r2) -> length r2 <= length r1).
  { intros e r2 E. destruct (Json.match_exp r1) as [[e0 r'] |] eqn:Ee.
    - apply match_exp_length in Ee. injection E as _ <-. exact Ee.
    - injection E as _ <-. lia. }
  destruct (match Json.match_exp r1 with
            | Some (e0, r) => (Some e0, r)
            | None => (None, r1)
            end) as [exp r2] eqn:E2.
  specialize (H2 _ _ eq_refl).
  destruct frac, exp; injection H as _ <-; lia.
Qed.

Lemma scanstring_length (n : nat) :
  forall begin s acc x r,
    length s <= n ->
    Json.scanstring begin s acc = inr (x, r) -> length r < length s.
Proof.
  induction n as [|n IH]; intros begin s acc x r Hn H.
  - destruct s; [discriminate | simpl in Hn; lia].
  - destruct s as [|c t]; [discriminate |].
    cbn [Json.scanstring] in H.
    split_cases H; subst;
      try (injection H as _ <-; simpl; lia);
      (apply IH in H; [| simpl in *; lia]); simpl in *; lia.
Qed.

Lemma progress_longer (s s' : pystr)
    (r : option (Json.scan_result Json.value)) :
  Progress s r -> length s <= length s' -> Progress s' r.
Proof.
  destruct r as [[e | [v rest]] |]; simpl; [auto | lia | auto].
Qed.

Lemma decoder_progress (fuel : nat) :
  (forall s, 3 * length s + 1 <= fuel -> Progress s (Json.scan_once fuel s))
  /\ (forall s, 3 * length s + 3 <= fuel ->
                Progress s (Json.JSONArray fuel s))
  /\ (forall s acc, 3 * length s + 2 <= fuel ->
                    Progress s (Json.array_items fuel s acc))
  /\ (forall s, 3 * length s + 3 <= fuel ->
                Progress s (Json.JSONObject fuel s))
  /\ (forall s acc, 3 * length s + 2 <= fuel ->
                    Progress s (Json.object_items fuel s acc)).
Proof.
  induction fuel as [|fuel [IHscan [IHarr [IHitems [IHobj IHmembers]]]]].
  - repeat split; intros; lia.
  - split; [| split; [| split; [| split]]].
    + (* scan_once *)
      intros s Hfuel. destruct s as [|c rest]; [exact I |].
      cbn [Json.scan_once length] in *.
      destruct (c =? 34)%N.
      { destruct (Json.scanstring (c :: rest) rest []) as [e | [x r]] eqn:E;
          [exact I |].
        apply (scanstring_length _ _ _ _ _ _ (le_n _)) in E. simpl. lia. }
      destruct (c =? 123)%N.
      { apply (progress_longer rest); [apply IHobj; lia | simpl; lia]. }
      destruct (c =? 91)%N.
      { apply (progress_longer rest); [apply IHarr; lia | simpl; lia]. }
      destruct (Json.strip_prefix (str "null") (c :: rest)) eqn:E1.
      { apply strip_prefix_length in E1. simpl in *. lia. }
      destruct (Json.strip_prefix (str "true") (c :: rest)) eqn:E2.
      { apply strip_prefix_length in E2. simpl in *. lia. }
      destruct (Json.strip_prefix (str "false") (c :: rest)) eqn:E3.
      { apply strip_prefix_length in E3. simpl in *. lia. }
      destruct (Json.match_number (c :: rest)) as [[v r] |] eqn:E4.
      { apply match_number_length in E4. exact E4. }
      destruct (Json.strip_prefix (str "NaN") (c :: rest)) eqn:E5.
      { apply strip_prefix_length in E5. simpl in *. lia. }
      destruct (Json.strip_prefix (str "Infinity") (c :: rest)) eqn:E6.
      { apply strip_prefix_length in E6. simpl in *. lia. }
      destruct (Json.strip_prefix (str "-Infinity") (c :: rest)) eqn:E7.
      { apply strip_prefix_length in E7. simpl in *. lia. }
      exact I.
    + (* JSONArray *)
      intros s Hfuel. cbn [Json.JSONArray]. cbv zeta.
      pose proof (skip_ws_length s) as Hws.
      destruct (Json.skip_ws s) as [|c rest] eqn:E.
      { apply (progress_longer []); [apply IHitems; simpl; lia | simpl; lia]. }
      destruct (c =? 93)%N; [simpl in *; lia |].
      apply (progress_longer (c :: rest)); [apply IHitems; lia | lia].
    + (* array_items *)
      intros s acc Hfuel. cbn [Json.array_items].
      pose proof (IHscan s ltac:(lia)) as Hscan.
      destruct (Json.scan_once fuel s) as [[e | [v s1]] |];
        [exact I | | contradiction].
      simpl in Hscan. cbv zeta.
      pose proof (skip_ws_length s1) as Hws.
      destruct (Json.skip_ws s1) as [|c rest] eqn:E; [exact I |].
      destruct (c =? 93)%N; [simpl in *; lia |].
      destruct (c =? 44)%N; [| exact I].
      pose proof (skip_ws_length rest) as Hws'. simpl in Hws.
      apply (progress_longer (Json.skip_ws rest)); [apply IHitems; lia | lia].
    + (* JSONObject *)
      intros s Hfuel. cbn [Json.JSONObject]. cbv zeta.
      pose proof (skip_ws_length s) as Hws.
      destruct (Json.skip_ws s) as [|c rest] eqn:E.
      { apply (progress_longer []); [apply IHmembers; simpl; lia | simpl; lia]. }
      destruct (c =? 125)%N; [simpl in *; lia |].
      apply (progress_longer (c :: rest)); [apply IHmembers; lia | lia].
    + (* object_items *)
      intros s acc Hfuel. cbn [Json.object_items].
      destruct s as [|c after_quote]; [exact I |].
      destruct (c =? 34)%N; [| exact I].
      destruct (Json.scanstring (c :: after_quote) after_quote [])
        as [e | [key s1]] eqn:E; [exact I |].
      apply (scanstring_length _ _ _ _ _ _ (le_n _)) in E. cbv zeta.
      pose proof (skip_ws_length s1) as Hws1.
      destruct (Json.skip_ws s1) as [|c2 s3] eqn:E2; [exact I |].
      destruct (c2 =? 58)%N; [| exact I].
      pose proof (skip_ws_length s3) as Hws3. simpl in Hws1, Hfuel.
      pose proof (IHscan (Json.skip_ws s3) ltac:(lia)) as Hscan.
      destruct (Json.scan_once fuel (Json.skip_ws s3)) as [[e | [v s4]] |];
        [exact I | | contradiction].
      simpl in Hscan.
      pose proof (skip_ws_length s4) as Hws4.
      destruct (Json.skip_ws s4) as [|c3 rest] eqn:E4; [exact I |].
      destruct (c3 =? 125)%N; [simpl in *; lia |].
      destruct (c3 =? 44)%N; [| exact I].
      pose proof (skip_ws_length rest) as Hws'. simpl in Hws4.
      apply (progress_longer (Json.skip_ws rest));
        [apply IHmembers; lia | simpl; lia].
Qed.

(** The fuel that [json.loads] provides is always enough. *)
Lemma loads_fuel_enough (s : pystr) :
  exists r, Json.loads_fuel (Json.fuel_for s) s = Some r /\ Json.loads s = r.
Proof.
  unfold Json.loads, Json.loads_fuel.
  pose proof (skip_ws_length s) as Hws.
  pose proof (proj1 (decoder_progress (Json.fuel_for s)) (Json.skip_ws s)
                ltac:(unfold Json.fuel_for; lia)) as H.
  destruct (Json.scan_once (Json.fuel_for s) (Json.skip_ws s))
    as [[[m rest] | [v rest]] |]; [| | contradiction].
  - eexists. split; reflexivity.
  - destruct (Json.skip_ws rest); eexists; split; reflexivity.
Qed.

(* ===================================================================== *)
(** * The persisted transcript *)
(* ===================================================================== *)

(** Literal keys are distinct and made of scalar values. *)
Ltac literal_keys :=
  vm_compute;
  repeat first
    [ apply List.NoDup_nil
    | apply List.NoDup_cons;
      [ let H := fresh in
        intros H; repeat (destruct H as [H | H]; [discriminate H |]);
        exact H
      | ]
    | apply List.Forall_nil
    | apply List.Forall_cons; [reflexivity |] ].

(** One goal per member of a literal list. *)
Ltac each_member tac :=
  repeat (apply List.Forall_cons; [cbn [fst snd]; tac |]);
  try apply List.Forall_nil.

Lemma literal_valid (s : string) :
  forallb is_scalar (str s) = true -> ValidText (str s).
Proof.
  unfold ValidText. intros H. apply List.Forall_forall. intros c Hc.
  exact (proj1 (forallb_forall _ _) H c Hc).
Qed.

Lemma dump_segment_printable (seg : TranscriptSegment.t) :
  SegmentSafe seg -> Printable (Dump.segment seg).
Proof.
  intros [Hs [He Ht]]. unfold Dump.segment. apply Printable_obj.
  - literal_keys.
  - each_member ltac:(apply literal_valid; reflexivity).
  - each_member ltac:(constructor; assumption).
Qed.

Lemma dump_word_printable (w : WordTimestamp.t) :
  WordSafe w -> Printable (Dump.word w).
Proof.
  intros [Hw [Hs [He Hp]]]. unfold Dump.word. apply Printable_obj.
  - literal_keys.
  - each_member ltac:(apply literal_valid; reflexivity).
  - each_member ltac:(constructor; assumption).
Qed.

Lemma dump_transcript_printable (T : Transcript.t) :
  RoundTripSafe T -> Printable (Dump.transcript T).
Proof.
  intros [Hsegs [Hwords [Hlang Hdur]]]. unfold Dump.transcript.
  apply Printable_obj.
  - literal_keys.
  - each_member ltac:(apply literal_valid; reflexivity).
  - each_member ltac:(constructor; try assumption).
    + induction Hsegs as [|seg l Hseg _ IH]; constructor;
        [apply dump_segment_printable; exact Hseg | exact IH].
    + induction Hwords as [|w l Hw _ IH]; constructor;
        [apply dump_word_printable; exact Hw | exact IH].
Qed.

Lemma validate_dump_segment (seg : TranscriptSegment.t) :
  Validate.segment (Dump.segment seg) = Some seg.
Proof. destruct seg. vm_compute. reflexivity. Qed.

Lemma validate_dump_word (w : WordTimestamp.t) :
  Validate.word (Dump.word w) = Some w.
Proof. destruct w. vm_compute. reflexivity. Qed.

Lemma all_some_map {A B : Type} (dump : A -> B) (validate : B -> option A)
    (l : list A) :
  (forall x, validate (dump x) = Some x) ->
  Validate.all_some (List.map validate (List.map dump l)) = Some l.
Proof.
  intros H. induction l as [|x l IH]; [reflexivity |].
  cbn [List.map Validate.all_some]. rewrite H, IH. reflexivity.
Qed.

(** [Transcript.model_validate(T.model_dump())] is [T]. *)
Lemma validate_dump_transcript (T : Transcript.t) :
  Validate.transcript (Dump.transcript T) = inr T.
Proof.
  destruct T as [segs words lang dur].
  unfold Validate.transcript, Dump.transcript.
  cbn [Transcript.segments Transcript.words Transcript.language
       Transcript.duration].
  replace (Validate.lookup_key _ (str "segments"))
    with (Some (Json.JArr (List.map Dump.segment segs)))
    by (vm_compute; reflexivity).
  replace (Validate.lookup_key _ (str "words"))
    with (Some (Json.JArr (List.map Dump.word words)))
    by (vm_compute; reflexivity).
  replace (Validate.lookup_key _ (str "language")) with (Some (Json.JStr lang))
    by (vm_compute; reflexivity).
  replace (Validate.lookup_key _ (str "duration")) with (Some (Json.JFloat dur))
    by (vm_compute; reflexivity).
  cbn [Validate.with_default Validate.list_of Pydantic.validate_str
       Pydantic.validate_float].
  rewrite (all_some_map Dump.segment Validate.segment segs validate_dump_segment).
  rewrite (all_some_map Dump.word Validate.word words validate_dump_word).
  reflexivity.
Qed.

Lemma save_outputs_transcript_json (output_dir : Path) (T : Transcript.t)
    (content : option GeneratedContent.t) (fs : FileSystem) :
  files (_save_outputs output_dir T content fs)
    !! path_join output_dir (str "transcript.json")
  = Some (Json.dumps (Dump.transcript T)).
Proof.
  unfold _save_outputs. destruct content as [content |].
  - destruct (GeneratedContent.description content),
      (GeneratedContent.titles content),
      (GeneratedContent.chapters content);
      rewrite ?lookup_write_other by names_differ;
      apply lookup_write_same.
  - rewrite lookup_write_other by names_differ. apply lookup_write_same.
Qed.


Lemma whole_number_decimal (n : Z) : Decimal (inject_Z n).
Proof.
  split; [| exists 0; reflexivity].
  unfold Qred, inject_Z.
  pose proof (Z.ggcd_gcd n 1) as Hg.
  pose proof (Z.ggcd_correct_divisors n 1) as Hd.
  destruct (Z.ggcd n 1) as [g [a b]]. cbn [fst snd] in *.
  rewrite Z.gcd_1_r in Hg. subst g. destruct Hd as [Ha Hb].
  replace a with n by lia. replace b with 1%Z by lia. reflexivity.
Qed.

Lemma hello_world_safe : RoundTripSafe hello_world_transcript.
Proof.
  assert (Hseg : forall a b text,
             forallb is_scalar (str text) = true ->
             SegmentSafe (TranscriptSegment.mk (inject_Z a) (inject_Z b)
                            (str text))).
  { intros a b text Htext. split; [apply whole_number_decimal |].
    split; [apply whole_number_decimal | apply literal_valid, Htext]. }
  unfold RoundTripSafe, hello_world_transcript. cbn [Transcript.segments
    Transcript.words Transcript.language Transcript.duration].
  split; [| split; [| split]].
  - apply List.Forall_cons; [exact (Hseg 0%Z 30%Z "Hello"%string eq_refl) |].
    apply List.Forall_cons; [exact (Hseg 30%Z 65%Z "World"%string eq_refl) |].
    apply List.Forall_nil.
  - apply List.Forall_nil.
  - apply literal_valid. reflexivity.
  - exact (whole_number_decimal 65).
Qed.


(* ===================================================================== *)
(** * The text at a time *)
(* ===================================================================== *)

(** X1.  [get_text_at_time] returns the text, as it is, of the first segment
    in transcript order whose span from start to end, both included,
    holds the time; it returns nothing exactly when no segment does. *)
Theorem get_text_at_time_first_span (T : Transcript.t) (time_seconds : Q) :
  match Transcript.get_text_at_time T time_seconds with
  | Some text =>
      exists before segment after,
        Transcript.segments T = before ++ segment :: after
        /\ Forall (fun s => ~ Spans s time_seconds) before
        /\ Spans segment time_seconds
        /\ text = TranscriptSegment.text segment
  | None => Forall (fun s => ~ Spans s time_seconds) (Transcript.segments T)
  end.
Proof.
  unfold Transcript.get_text_at_time.
  induction (Transcript.segments T) as [|seg rest IH]; cbn [Transcript.text_at].
  - apply List.Forall_nil.
  - destruct (float_lt_spec time_seconds (TranscriptSegment.start seg))
      as [Hbefore | Hstart]; cbn [negb andb].
    + assert (Hout : ~ Spans seg time_seconds).
      { intros [H _]. apply (Qlt_irrefl time_seconds).
        eapply Qlt_le_trans; eassumption. }
      destruct (Transcript.text_at rest time_seconds) as [text |].
      * destruct IH as [before [segment [after [Hsplit [Hpre [Hin Htext]]]]]].
        exists (seg :: before), segment, after. rewrite Hsplit.
        repeat split; try assumption; try apply Hin.
        apply List.Forall_cons; assumption.
      * apply List.Forall_cons; assumption.
    + destruct (float_lt_spec (TranscriptSegment.end_ seg) time_seconds)
        as [Hafter | Hend]; cbn [negb].
      * assert (Hout : ~ Spans seg time_seconds).
        { intros [_ H]. apply (Qlt_irrefl time_seconds).
          eapply Qle_lt_trans; eassumption. }
        destruct (Transcript.text_at rest time_seconds) as [text |].
        -- destruct IH as [before [segment [after [Hsplit [Hpre [Hin Htext]]]]]].
           exists (seg :: before), segment, after. rewrite Hsplit.
           repeat split; try assumption; try apply Hin.
           apply List.Forall_cons; assumption.
        -- apply List.Forall_cons; assumption.
      * exists [], seg, rest. repeat split; try assumption.
        apply List.Forall_nil.
Qed.

(* ===================================================================== *)
(** * Timestamps and whole seconds *)
(* ===================================================================== *)

Lemma two_digits_value (n : N) : Json.digits_value (two_digits n) = n.
Proof.
  unfold two_digits. destruct (N.ltb_spec n 10).
  - unfold Json.digits_value, digit_char. cbn [fold_left]. lia.
  - apply digits_value_digits.
Qed.

Lemma two_digits_inj (a b : N) : two_digits a = two_digits b -> a = b.
Proof.
  intros H. rewrite <- (two_digits_value a), <- (two_digits_value b), H.
  reflexivity.
Qed.

Lemma timestamp_clock (c : Chapter.t) :
  Chapter.timestamp c = clock (py_int (Chapter.start_time c)).
Proof.
  unfold Chapter.timestamp, clock.
  set (total := py_int (Chapter.start_time c)).
  assert (Hm : (0 <= (total mod 3600) / 60)%Z).
  { apply Z.div_pos; [apply Z.mod_pos_bound |]; lia. }
  assert (Hs : (0 <= total mod 60)%Z) by (apply Z.mod_pos_bound; lia).
  rewrite (format_02d_nonneg _ Hm), (format_02d_nonneg _ Hs).
  change (str ":") with [58%N].
  rewrite Z.gtb_ltb. destruct (Z.ltb_spec 0 (total / 3600)) as [Hh | Hh].
  - rewrite format_02d_nonneg by lia. rewrite <- !app_assoc. reflexivity.
  - reflexivity.
Qed.

Lemma clock_inj (a b : Z) :
  (0 <= a)%Z -> (0 <= b)%Z -> clock a = clock b -> a = b.
Proof.
  intros Ha Hb H.
  assert (Hlen : forall t : Z,
             length (two_digits (Z.to_N ((t mod 3600) / 60)) ++ [58%N]
                     ++ two_digits (Z.to_N (t mod 60))) = 5).
  { intros t. rewrite !length_app, !two_digits_small; [reflexivity | |].
    - pose proof (Z.mod_pos_bound t 60). lia.
    - pose proof (Z.mod_pos_bound t 3600).
      assert ((t mod 3600) / 60 < 60)%Z
        by (apply Z.div_lt_upper_bound; lia).
      assert (0 <= (t mod 3600) / 60)%Z by (apply Z.div_pos; lia).
      lia. }
  assert (Hparts : forall t : Z,
             (0 <= t)%Z ->
             t = (t / 3600 * 3600 + (t mod 3600) / 60 * 60 + t mod 60)%Z).
  { intros t Ht.
    pose proof (Z.div_mod t 3600 ltac:(lia)) as H1.
    pose proof (Z.div_mod (t mod 3600) 60 ltac:(lia)) as H2.
    assert (H3 : ((t mod 3600) mod 60 = t mod 60)%Z).
    { apply (Z.mod_mod_divide t 3600 60). exists 60%Z. reflexivity. }
    lia. }
  assert (Htail : forall x y : Z,
             (0 <= x)%Z -> (0 <= y)%Z ->
             two_digits (Z.to_N ((x mod 3600) / 60)) ++ [58%N]
               ++ two_digits (Z.to_N (x mod 60))
             = two_digits (Z.to_N ((y mod 3600) / 60)) ++ [58%N]
               ++ two_digits (Z.to_N (y mod 60)) ->
             ((x mod 3600) / 60 = (y mod 3600) / 60
              /\ x mod 60 = y mod 60)%Z).
  { intros x y Hx Hy Heq.
    apply app_inj_1 in Heq.
    - destruct Heq as [Hmin Hsec]. injection Hsec as Hsec.
      apply two_digits_inj in Hmin, Hsec.
      pose proof (Z.mod_pos_bound x 60). pose proof (Z.mod_pos_bound y 60).
      pose proof (Z.mod_pos_bound x 3600). pose proof (Z.mod_pos_bound y 3600).
      assert (0 <= (x mod 3600) / 60)%Z by (apply Z.div_pos; lia).
      assert (0 <= (y mod 3600) / 60)%Z by (apply Z.div_pos; lia).
      lia.
    - rewrite !two_digits_small; [reflexivity | |].
      + pose proof (Z.mod_pos_bound y 3600).
        assert ((y mod 3600) / 60 < 60)%Z by (apply Z.div_lt_upper_bound; lia).
        assert (0 <= (y mod 3600) / 60)%Z by (apply Z.div_pos; lia). lia.
      + pose proof (Z.mod_pos_bound x 3600).
        assert ((x mod 3600) / 60 < 60)%Z by (apply Z.div_lt_upper_bound; lia).
        assert (0 <= (x mod 3600) / 60)%Z by (apply Z.div_pos; lia). lia. }
  assert (Hha : (0 <= a / 3600)%Z) by (apply Z.div_pos; lia).
  assert (Hhb : (0 <= b / 3600)%Z) by (apply Z.div_pos; lia).
  unfold clock in H.
  destruct (Z.ltb_spec 0 (a / 3600)) as [Ha3 | Ha3],
           (Z.ltb_spec 0 (b / 3600)) as [Hb3 | Hb3].
  - rewrite <- !app_assoc in H. apply app_inj_2 in H.
    + destruct H as [Hh H]. injection H as H.
      apply two_digits_inj in Hh. destruct (Htail a b Ha Hb H) as [Hm Hs].
      rewrite (Hparts a Ha), (Hparts b Hb). lia.
    + rewrite !(length_app [58%N]), (Hlen a), (Hlen b). reflexivity.
  - exfalso. apply (f_equal (@length N)) in H.
    rewrite app_nil_l, (Hlen b), length_app, (Hlen a), length_app in H.
    pose proof (two_digits_length (Z.to_N (a / 3600))). cbn [length] in H. lia.
  - exfalso. apply (f_equal (@length N)) in H.
    rewrite app_nil_l, (Hlen a), length_app, (Hlen b), length_app in H.
    pose proof (two_digits_length (Z.to_N (b / 3600))). cbn [length] in H. lia.
  - rewrite !app_nil_l in H. destruct (Htail a b Ha Hb H) as [Hm Hs].
    rewrite (Hparts a Ha), (Hparts b Hb). lia.
Qed.

(** X2.  Two chapters whose start times are not negative have the same
    timestamp exactly when their start times have the same whole
    seconds: the timestamp loses the fraction of a second and nothing
    else. *)
Theorem timestamp_tells_whole_seconds (a b : Chapter.t) :
  (0 <= Chapter.start_time a)%Q ->
  (0 <= Chapter.start_time b)%Q ->
  (Chapter.timestamp a = Chapter.timestamp b
   <-> Qfloor (Chapter.start_time a) = Qfloor (Chapter.start_time b)).
Proof.
  intros Ha Hb. rewrite !timestamp_clock, !(py_int_nonneg _ Ha), !(py_int_nonneg _ Hb).
  split.
  - apply clock_inj.
    + change 0%Z with (Qfloor 0). apply Qfloor_resp_le. exact Ha.
    + change 0%Z with (Qfloor 0). apply Qfloor_resp_le. exact Hb.
  - intros ->. reflexivity.
Qed.

Lemma timestamp_tells_whole_seconds_witness :
  Chapter.timestamp (Chapter.mk (659 # 10) (str "A") [])
  = Chapter.timestamp (Chapter.mk (131 # 2) (str "B") [])
  /\ Chapter.timestamp (Chapter.mk (659 # 10) (str "A") [])
     <> Chapter.timestamp (Chapter.mk 66 (str "A") []).
Proof.
  split.
  - apply (timestamp_tells_whole_seconds
             (Chapter.mk (659 # 10) (str "A") [])
             (Chapter.mk (131 # 2) (str "B") [])); [discriminate .. | reflexivity].
  - intros H.
    apply (timestamp_tells_whole_seconds
             (Chapter.mk (659 # 10) (str "A") [])
             (Chapter.mk 66 (str "A") [])) in H; [discriminate H | discriminate ..].
Defined.

(* ===================================================================== *)
(** * The extracted text, extracted again *)
(* ===================================================================== *)

Lemma match_tail_closed (mid : pystr) :
  match_tail (mid ++ [93%N]) = Some (mid ++ [93%N]).
Proof.
  pose proof (match_tail_spec (mid ++ [93%N])) as H.
  destruct (match_tail (mid ++ [93%N])) as [m |].
  - destruct H as [mid' [post [Hs [Hm Hpost]]]].
    destruct (rev post) as [|c rpost] eqn:Hrev.
    + apply (f_equal (@rev N)) in Hrev. rewrite rev_involutive in Hrev.
      cbn [rev] in Hrev. subst post. rewrite app_nil_r in Hs. congruence.
    + exfalso. apply (f_equal (@rev N)) in Hrev. rewrite rev_involutive in Hrev.
      cbn [rev] in Hrev. subst post.
      rewrite !app_assoc in Hs. apply app_inj_tail in Hs. destruct Hs as [_ Hc].
      subst c. apply Hpost, in_or_app. right. left. reflexivity.
  - exfalso. apply H, in_or_app. right. left. reflexivity.
Qed.

Lemma re_search_bracketed (mid : pystr) :
  re_search ([91%N] ++ mid ++ [93%N]) = Some ([91%N] ++ mid ++ [93%N]).
Proof.
  cbn [app]. unfold re_search, match_here.
  destruct mid as [|c t].
  - reflexivity.
  - cbn [app]. change (91 =? 91)%N with true. cbv iota.
    change (c :: t ++ [93%N]) with ((c :: t) ++ [93%N]).
    rewrite match_tail_closed. reflexivity.
Qed.

Lemma extract_json_bracketed (mid : pystr) :
  _extract_json ([91%N] ++ mid ++ [93%N]) = [91%N] ++ mid ++ [93%N].
Proof. unfold _extract_json. rewrite re_search_bracketed. reflexivity. Qed.

(** X3.  Extraction is idempotent: what [_extract_json] returns, it returns
    unchanged when applied again.  A text that begins with an opening
    bracket and ends with a closing one is returned as it is. *)
Theorem extract_json_idempotent :
  (forall text : pystr, _extract_json (_extract_json text) = _extract_json text)
  /\ (forall mid : pystr,
         _extract_json ([91%N] ++ mid ++ [93%N]) = [91%N] ++ mid ++ [93%N]).
Proof.
  split; [| exact extract_json_bracketed].
  intros text. unfold _extract_json at 2 3.
  pose proof (re_search_spec text) as H.
  destruct (re_search text) as [m |] eqn:Hsearch.
  - destruct H as [pre [mid [post [_ [_ [_ ->]]]]]].
    apply extract_json_bracketed.
  - unfold _extract_json. rewrite Hsearch. reflexivity.
Qed.

(* ===================================================================== *)
(** * The two timestamp formats *)
(* ===================================================================== *)

Lemma Qfloor_div_60 (x : Q) : Qfloor (x / 60) = (Qfloor x / 60)%Z.
Proof.
  destruct x as [a b].
  assert (E : ((a # b) / 60 == a # (b * 60))%Q).
  { unfold Qeq, Qdiv, Qmult, Qinv. cbn. lia. }
  rewrite (Qfloor_comp _ _ E). cbn [Qfloor].
  rewrite Pos2Z.inj_mul, Z.div_div by lia. reflexivity.
Qed.

Lemma Qfloor_mod_60 (x : Q) : Qfloor (float_mod x 60) = (Qfloor x mod 60)%Z.
Proof.
  unfold float_mod. rewrite Z.mod_eq by lia. rewrite <- Qfloor_div_60.
  set (k := Qfloor (x / 60)). destruct x as [a b].
  assert (E : ((a # b) - 60 * inject_Z k == (a - 60 * k * Z.pos b) # b)%Q).
  { unfold Qeq, Qminus, Qplus, Qopp, Qmult, inject_Z. cbn. lia. }
  rewrite (Qfloor_comp _ _ E). cbn [Qfloor].
  replace (a - 60 * k * Z.pos b)%Z with (a + (- (60 * k)) * Z.pos b)%Z by lia.
  rewrite Z.div_add by lia. lia.
Qed.

(** X4.  Below one hour the two formats agree: for a segment that starts at a
    time from [0] to less than [3600] seconds, the bracketed timestamp
    of its line in the chapter prompt is the timestamp that a chapter
    with the same start time shows. *)
Theorem prompt_timestamp_is_chapter_timestamp (segment : TranscriptSegment.t)
    (title description : pystr) :
  (0 <= TranscriptSegment.start segment)%Q ->
  (TranscriptSegment.start segment < 3600)%Q ->
  timestamp_line segment
  = str "["
    ++ Chapter.timestamp
         (Chapter.mk (TranscriptSegment.start segment) title description)
    ++ str "] " ++ strip (TranscriptSegment.text segment).
Proof.
  intros Hpos Hhour. unfold timestamp_line, Chapter.timestamp.
  cbn [Chapter.start_time].
  set (x := TranscriptSegment.start segment) in *.
  rewrite minutes_of_floordiv, (proj1 (seconds_of_float_mod x)).
  rewrite Qfloor_div_60, Qfloor_mod_60, (py_int_nonneg x Hpos).
  assert (H0 : (0 <= Qfloor x)%Z).
  { change 0%Z with (Qfloor 0). apply Qfloor_resp_le. exact Hpos. }
  assert (H1 : (Qfloor x < 3600)%Z).
  { rewrite Zlt_Qlt. eapply Qle_lt_trans; [apply Qfloor_le | exact Hhour]. }
  rewrite (Z.div_small (Qfloor x) 3600), (Z.mod_small (Qfloor x) 3600) by lia.
  change (0 >? 0)%Z with false. cbv iota.
  change (str "] ") with (str "]" ++ str " ").
  rewrite <- !app_assoc. reflexivity.
Qed.

Lemma prompt_timestamp_is_chapter_timestamp_witness :
  timestamp_line (TranscriptSegment.mk (1545 # 10) 200 (str " Hello "))
  = str "[" ++ Chapter.timestamp (Chapter.mk (1545 # 10) (str "Main Topic") [])
    ++ str "] " ++ str "Hello".
Proof.
  exact (prompt_timestamp_is_chapter_timestamp
           (TranscriptSegment.mk (1545 # 10) 200 (str " Hello "))
           (str "Main Topic") [] ltac:(discriminate) ltac:(reflexivity)).
Defined.

(* ===================================================================== *)
(** * The size of the prompts *)
(* ===================================================================== *)

Ltac literal_lengths :=
  repeat match goal with
         | |- context [length (str ?s)] =>
             let n := eval vm_compute in (length (str s)) in
             replace (length (str s)) with n by (vm_compute; reflexivity)
         end.

Lemma truncation_marker_length : length truncation_marker = 43.
Proof. vm_compute. reflexivity. Qed.

Lemma cut_length (text : pystr) :
  (Z.of_nat (length (firstn (N.to_nat 50000) text ++ truncation_marker))
   <= 50043)%Z.
Proof.
  rewrite length_app, length_firstn, truncation_marker_length.
  assert (Z.of_nat (N.to_nat 50000) = 50000%Z) by (rewrite N_nat_Z; reflexivity).
  lia.
Qed.

Lemma cut_or_whole_length (text : pystr) :
  (Z.of_nat (length
     (if (50000 <? N.of_nat (length text))%N
      then firstn (N.to_nat 50000) text ++ truncation_marker
      else text)) <= 50043)%Z.
Proof.
  destruct (N.ltb_spec 50000 (N.of_nat (length text))).
  - apply cut_length.
  - lia.
Qed.

Lemma truncate_transcript_length (T : Transcript.t) :
  (Z.of_nat (length (_truncate_transcript T 50000)) <= 50043)%Z.
Proof.
  unfold _truncate_transcript, slice_to.
  destruct (N.leb_spec (N.of_nat (length (Transcript.full_text T))) 50000).
  - lia.
  - apply cut_length.
Qed.

(** X5.  The prompts stay within fixed sizes whatever the length of the
    transcript: at most 50 000 characters of the transcript and the
    43 characters of the truncation marker are put into the template,
    so the description prompt has at most 50 710 characters, the titles
    prompt at most 50 934, and the chapters prompt at most 50 825 and
    the digits of the chapter count.  A transcript text of at most
    50 000 characters is part of the description and titles prompts as
    a whole. *)
Theorem prompts_are_bounded (T : Transcript.t) (chapter_count : Z) :
  (Z.of_nat (length (call_prompt (description_call T))) <= 50710)%Z
  /\ (Z.of_nat (length (call_prompt (titles_call T))) <= 50934)%Z
  /\ (Z.of_nat (length (call_prompt (chapters_call T chapter_count)))
      <= 50825 + Z.of_nat (length (str_int chapter_count)))%Z
  /\ ((Z.of_nat (length (Transcript.full_text T)) <= 50000)%Z ->
      Contains (call_prompt (description_call T)) (Transcript.full_text T)
      /\ Contains (call_prompt (titles_call T)) (Transcript.full_text T)).
Proof.
  pose proof (truncate_transcript_length T) as Hcut.
  assert (Hdq : length dq = 1) by reflexivity.
  split; [| split; [| split]].
  - unfold description_call, call_prompt, DESCRIPTION_PROMPT.
    rewrite !length_app. literal_lengths. lia.
  - unfold titles_call, call_prompt, TITLES_PROMPT.
    rewrite !length_app, !Hdq. literal_lengths. lia.
  - pose proof (cut_or_whole_length (_format_transcript_with_timestamps T))
      as Htext.
    unfold chapters_call, call_prompt, CHAPTERS_PROMPT.
    rewrite !length_app, !Hdq. literal_lengths. lia.
  - intros Hshort.
    assert (Hwhole : _truncate_transcript T 50000 = Transcript.full_text T).
    { unfold _truncate_transcript.
      destruct (N.leb_spec (N.of_nat (length (Transcript.full_text T))) 50000);
        [reflexivity | lia]. }
    unfold description_call, titles_call, call_prompt. rewrite Hwhole.
    split.
    + unfold DESCRIPTION_PROMPT. eexists _, _. reflexivity.
    + unfold TITLES_PROMPT. eexists _, _. reflexivity.
Qed.

Lemma prompts_are_bounded_witness :
  Contains (call_prompt (description_call hello_world_transcript))
    (str "Hello World").
Proof.
  exact (proj1 (proj2 (proj2 (proj2
           (prompts_are_bounded hello_world_transcript 10)))
           ltac:(vm_compute; discriminate))).
Defined.

(* ===================================================================== *)
(** * Decodable answers: what becomes of them *)
(* ===================================================================== *)

Lemma mapM_inr {A B : Type} (f : A -> result B) (l : list A) (ys : list B) :
  mapM f l = inr ys <-> Forall2 (fun x y => f x = inr y) l ys.
Proof.
  revert ys. induction l as [|x l IH]; intros ys; cbn [mapM].
  - split.
    + intros [= <-]. constructor.
    + intros H. inversion H. reflexivity.
  - split.
    + destruct (f x) as [e | y] eqn:Hx; [discriminate |].
      destruct (mapM f l) as [e | rest]; [discriminate |].
      intros [= <-]. constructor; [exact Hx | apply IH; reflexivity].
    + intros H. inversion H as [| ? y ? rest Hx Hrest]; subst.
      rewrite Hx. rewrite (proj2 (IH rest) Hrest). reflexivity.
Qed.

Lemma mapM_inl {A B : Type} (f : A -> result B) (l : list A) (e : exn) :
  mapM f l = inl e -> exists x, In x l /\ f x = inl e.
Proof.
  induction l as [|x l IH]; cbn [mapM]; [discriminate |].
  destruct (f x) as [e' | y] eqn:Hx.
  - intros [= <-]. exists x. split; [left; reflexivity | exact Hx].
  - destruct (mapM f l) as [e' | rest]; [| discriminate].
    intros [= <-]. destruct (IH eq_refl) as [x' [Hin Hx']].
    exists x'. split; [right; exact Hin | exact Hx'].
Qed.

Lemma title_of_entry (item : Json.value) (t : Title.t) :
  title_of item = inr t <-> TitleEntry item t.
Proof.
  unfold title_of, TitleEntry, Pydantic.get, make_Title, Pydantic.validate_str.
  split.
  - destruct item as [| | | | | | | members]; try discriminate.
    destruct (Json.dict_get members (str "title") _) eqn:H1;
      cbv beta iota; try discriminate.
    destruct (Json.dict_get members (str "thumbnail_text") _) eqn:H2;
      cbv beta iota; try discriminate.
    destruct (Json.dict_get members (str "reasoning") _) eqn:H3;
      cbv beta iota; try discriminate.
    intros [= <-]. exists members. repeat split; assumption.
  - intros [members [-> [H1 [H2 H3]]]]. rewrite H1, H2, H3.
    destruct t; reflexivity.
Qed.

Lemma title_of_error (item : Json.value) (e : exn) :
  title_of item = inl e -> ShapeError e.
Proof.
  unfold title_of, Pydantic.get, make_Title, Pydantic.validate_str.
  destruct item as [| | | | | | | members]; try (intros [= <-]; exact I).
  repeat (match goal with
          | |- context [Json.dict_get ?m ?k ?d] =>
              destruct (Json.dict_get m k d)
          end; cbv beta iota);
    intros [= <-]; exact I.
Qed.



Lemma iterate_error (data : Json.value) (e : exn) :
  Pydantic.iterate data = inl e -> ShapeError e.
Proof.
  destruct data; cbn [Pydantic.iterate]; try discriminate;
    intros [= <-]; exact I.
Qed.


(** X6.  A decodable answer to the titles call never raises
    [GenerationError].  Titles are returned exactly when the decoded
    value can be iterated and each of its elements is a dict whose
    [title], [thumbnail_text] and [reasoning] are strings or absent:
    one title per element, in order, an absent field being the empty
    string.  Any other decodable answer raises [TypeError],
    [AttributeError] or pydantic's [ValidationError]. *)
Theorem decodable_titles_answer {S : Type} (client : ClaudeClient S)
    (transcript : Transcript.t) (w : World S) (response : pystr) (s' : S)
    (data : Json.value) :
  answer client (titles_call transcript) (llm_state w) = (inr response, s') ->
  Json.loads (_extract_json response) = inr data ->
  (forall titles,
      fst (generate_titles client transcript w) = inr titles
      <-> exists items,
            Pydantic.iterate data = inr items
            /\ Forall2 TitleEntry items titles)
  /\ (forall e,
         fst (generate_titles client transcript w) = inl e -> ShapeError e).
Proof.
  intros Hanswer Hdata. rewrite generate_titles_run. cbn [fst].
  rewrite Hanswer. cbn [fst titles_outcome]. rewrite Hdata.
  unfold titles_of_data. split.
  - intros titles. split.
    + destruct (Pydantic.iterate data) as [e | items]; [discriminate |].
      intros H. exists items. split; [reflexivity |].
      apply mapM_inr in H.
      eapply Forall2_impl; [exact H |]. intros x y. apply title_of_entry.
    + intros [items [-> H]]. apply mapM_inr.
      eapply Forall2_impl; [exact H |]. intros x y. apply title_of_entry.
  - intros e. destruct (Pydantic.iterate data) as [e' | items] eqn:Hit.
    + intros [= <-]. exact (iterate_error _ _ Hit).
    + intros H. destruct (mapM_inl _ _ _ H) as [x [_ Hx]].
      exact (title_of_error _ _ Hx).
Qed.

Lemma decodable_titles_answer_witness :
  fst (generate_titles (constant_client prose_response) empty_transcript
         fresh_world)
  = inr [Title.mk (str "A") [] []].
Proof.
  apply (proj1 (decodable_titles_answer (constant_client prose_response)
                  empty_transcript fresh_world prose_response tt
                  (Json.JArr [Json.JObj [(str "title", Json.JStr (str "A"))]])
                  eq_refl ltac:(vm_compute; reflexivity))
           [Title.mk (str "A") [] []]).
  exists [Json.JObj [(str "title", Json.JStr (str "A"))]].
  split; [reflexivity |].
  constructor; [| constructor].
  exists [(str "title", Json.JStr (str "A"))]. repeat split.
Defined.



(* ===================================================================== *)
(** * The client: attempts and requests *)
(* ===================================================================== *)

Lemma attempt_outcome {B : Type} (service : Anthropic.Service B)
    (self : Llm.ClaudeClient) (prompt : pystr) (max_tokens : Z)
    (temperature : Q) (b : Llm.Backend B) :
  let key := Llm.self_api_key self in
  let request :=
    Anthropic.mkRequest (Llm.self_model self) max_tokens temperature prompt in
  Llm.attempt service self prompt max_tokens temperature b
  = (outcome_answer
       (fst (Anthropic.messages_create service key request
               (Llm.service_state b))),
     Llm.mkBackend
       (snd (Anthropic.messages_create service key request
               (Llm.service_state b)))
       (Llm.requests b ++ [(key, request)])).
Proof.
  intros key request. unfold Llm.attempt. fold key. fold request.
  destruct (Anthropic.messages_create service key request
              (Llm.service_state b)) as [outcome s'].
  cbn [fst snd]. destruct outcome as [[|block more] | e | e | e | e];
    reflexivity.
Qed.

(** The run of [generate], attempt by attempt. *)
Lemma generate_attempts {B : Type} (service : Anthropic.Service B)
    (self : Llm.ClaudeClient) (prompt : pystr) (max_tokens : Z)
    (temperature : Q) (b : Llm.Backend B) :
  let key := Llm.self_api_key self in
  let request :=
    Anthropic.mkRequest (Llm.self_model self) max_tokens temperature prompt in
  let outcome k :=
    fst (later_outcome service key request k (Llm.service_state b)) in
  let after k :=
    Llm.mkBackend
      (snd (later_outcome service key request k (Llm.service_state b)))
      (Llm.requests b ++ repeat (key, request) (Datatypes.S k)) in
  Llm.generate service self prompt max_tokens temperature b
  = match outcome_answer (outcome 0) with
    | inr text => (inr text, after 0)
    | inl _ =>
        match outcome_answer (outcome 1) with
        | inr text => (inr text, after 1)
        | inl _ => (outcome_answer (outcome 2), after 2)
        end
    end.
Proof.
  intros key request outcome after. subst outcome after. cbv beta.
  unfold Llm.generate. cbn [Llm.retrying later_outcome].
  rewrite attempt_outcome. fold key. fold request.
  destruct (outcome_answer _) as [e1 | text1]; [| reflexivity].
  rewrite attempt_outcome. fold key. fold request.
  cbn [Llm.service_state Llm.requests].
  rewrite <- app_assoc.
  destruct (outcome_answer _) as [e2 | text2]; [| reflexivity].
  rewrite attempt_outcome. fold key. fold request.
  cbn [Llm.service_state Llm.requests].
  rewrite <- app_assoc.
  destruct (outcome_answer _) as [e3 | text3]; reflexivity.
Qed.

Lemma outcome_answer_text (outcome : Anthropic.Outcome) (text : pystr) :
  outcome_answer outcome = inr text ->
  exists more, outcome = Anthropic.Message (text :: more).
Proof.
  destruct outcome as [[|block more] | e | e | e | e]; try discriminate.
  intros [= <-]. exists more. reflexivity.
Qed.

Lemma outcome_answer_error (outcome : Anthropic.Outcome) (e : exn) :
  outcome_answer outcome = inl e ->
  match outcome with
  | Anthropic.Message content =>
      content = [] /\ e = LLMError (str "Empty response from Claude API")
  | Anthropic.APIConnectionError text =>
      e = LLMError (str "Failed to connect to Anthropic API: " ++ text)
  | Anthropic.RateLimitError text =>
      e = LLMError (str "Rate limit exceeded: " ++ text)
  | Anthropic.APIStatusError text => e = LLMError (str "API error: " ++ text)
  | Anthropic.Raises raised => e = raised
  end.
Proof.
  destruct outcome as [[|block more] | text | text | text | raised];
    try discriminate; intros [= <-]; try split; reflexivity.
Qed.

(** X8.  [generate] returns the text of the first content block of the first
    request that brings a message with content.  It makes that request
    after at most two requests that failed, repeats the same request
    with the same key each time, and makes no request after it. *)
Theorem generate_returns_first_answer {B : Type}
    (service : Anthropic.Service B) (self : Llm.ClaudeClient)
    (prompt : pystr) (max_tokens : Z) (temperature : Q)
    (b : Llm.Backend B) (text : pystr) :
  let key := Llm.self_api_key self in
  let request :=
    Anthropic.mkRequest (Llm.self_model self) max_tokens temperature prompt in
  let outcome k :=
    fst (later_outcome service key request k (Llm.service_state b)) in
  let run := Llm.generate service self prompt max_tokens temperature b in
  fst run = inr text ->
  exists k more,
    k < 3
    /\ outcome k = Anthropic.Message (text :: more)
    /\ (forall j, j < k -> exists e, outcome_answer (outcome j) = inl e)
    /\ Llm.requests (snd run)
       = Llm.requests b ++ repeat (key, request) (Datatypes.S k)
    /\ Llm.service_state (snd run)
       = snd (later_outcome service key request k (Llm.service_state b)).
Proof.
  intros key request outcome run. subst run.
  rewrite generate_attempts. fold key. fold request.
  change (fun k => fst (later_outcome service key request k
                          (Llm.service_state b))) with outcome.
  cbv zeta.
  fold (outcome 0). fold (outcome 1). fold (outcome 2).
  destruct (outcome_answer (outcome 0)) as [e0 | t0] eqn:H0.
  - destruct (outcome_answer (outcome 1)) as [e1 | t1] eqn:H1.
    + cbn [fst snd]. intros H2.
      destruct (outcome_answer_text _ _ H2) as [more Hmore].
      exists 2, more. repeat split; try assumption; try lia.
      intros j Hj. destruct j as [|[|j]]; [eauto | eauto | lia].
    + cbn [fst snd]. intros [= ->].
      destruct (outcome_answer_text _ _ H1) as [more Hmore].
      exists 1, more. repeat split; try assumption; try lia.
      intros j Hj. destruct j as [|j]; [eauto | lia].
  - cbn [fst snd]. intros [= ->].
    destruct (outcome_answer_text _ _ H0) as [more Hmore].
    exists 0, more. repeat split; try assumption; try lia.
Qed.

Lemma generate_returns_first_answer_witness :
  fst (later_outcome (busy_service 1 (str "OK")) (str "sk-test")
         (Anthropic.mkRequest (str "claude-sonnet-4-5") 4096 (7 # 10)
            (str "Hi")) 1 0)
  = Anthropic.Message [str "OK"]
  /\ length
       (Llm.requests
          (snd (Llm.generate (busy_service 1 (str "OK")) example_client
                  (str "Hi") 4096 (7 # 10) (Llm.mkBackend 0 []))))
     = 2.
Proof.
  destruct (generate_returns_first_answer (busy_service 1 (str "OK"))
              example_client (str "Hi") 4096 (7 # 10) (Llm.mkBackend 0 [])
              (str "OK") eq_refl)
    as [k [more [Hk [Hout [Hfail [Hreq Hstate]]]]]].
  destruct k as [|[|k]].
  - discriminate Hout.
  - split; [reflexivity | rewrite Hreq; reflexivity].
  - destruct (Hfail 1 ltac:(lia)) as [e He]. discriminate He.
Defined.

(** X9.  [generate] raises only after three requests, each the same and each
    failed, and it raises what the third one gave: [LLMError] for an
    empty message, a connection error, a rate limit or another status
    error, with the texts of the source, and any other exception as it
    is. *)
Theorem generate_raises_after_three {B : Type}
    (service : Anthropic.Service B) (self : Llm.ClaudeClient)
    (prompt : pystr) (max_tokens : Z) (temperature : Q)
    (b : Llm.Backend B) (e : exn) :
  let key := Llm.self_api_key self in
  let request :=
    Anthropic.mkRequest (Llm.self_model self) max_tokens temperature prompt in
  let outcome k :=
    fst (later_outcome service key request k (Llm.service_state b)) in
  let run := Llm.generate service self prompt max_tokens temperature b in
  fst run = inl e ->
  Llm.requests (snd run) = Llm.requests b ++ repeat (key, request) 3
  /\ (forall j, j < 3 -> exists e', outcome_answer (outcome j) = inl e')
  /\ match outcome 2 with
     | Anthropic.Message content =>
         content = [] /\ e = LLMError (str "Empty response from Claude API")
     | Anthropic.APIConnectionError text =>
         e = LLMError (str "Failed to connect to Anthropic API: " ++ text)
     | Anthropic.RateLimitError text =>
         e = LLMError (str "Rate limit exceeded: " ++ text)
     | Anthropic.APIStatusError text =>
         e = LLMError (str "API error: " ++ text)
     | Anthropic.Raises raised => e = raised
     end.
Proof.
  intros key request outcome run. subst run.
  rewrite generate_attempts. fold key. fold request.
  change (fun k => fst (later_outcome service key request k
                          (Llm.service_state b))) with outcome.
  cbv zeta.
  fold (outcome 0). fold (outcome 1). fold (outcome 2).
  destruct (outcome_answer (outcome 0)) as [e0 | t0] eqn:H0;
    [| discriminate].
  destruct (outcome_answer (outcome 1)) as [e1 | t1] eqn:H1;
    [| discriminate].
  cbn [fst snd]. intros H2. split; [reflexivity |]. split.
  - intros j Hj. destruct j as [|[|[|j]]]; [eauto | eauto | eauto | lia].
  - exact (outcome_answer_error _ _ H2).
Qed.

Lemma generate_raises_after_three_witness :
  length
    (Llm.requests
       (snd (Llm.generate (busy_service 5 (str "OK")) example_client
               (str "Hi") 4096 (7 # 10) (Llm.mkBackend 0 []))))
  = 3.
Proof.
  rewrite (proj1 (generate_raises_after_three (busy_service 5 (str "OK"))
                    example_client (str "Hi") 4096 (7 # 10)
                    (Llm.mkBackend 0 [])
                    (LLMError (str "Rate limit exceeded: 429")) eq_refl)).
  reflexivity.
Defined.

Lemma call_requests {B : Type} (service : Anthropic.Service B)
    (self : Llm.ClaudeClient) (c : Call) (b : Llm.Backend B) :
  exists n,
    1 <= n <= 3
    /\ Llm.requests (snd (answer (client_of service self) c b))
       = Llm.requests b ++ repeat (request_of_call self c) n.
Proof.
  unfold answer, client_of. cbn [generate].
  rewrite generate_attempts. cbv zeta. unfold request_of_call.
  destruct (outcome_answer _) as [e0 | t0].
  - destruct (outcome_answer _) as [e1 | t1].
    + exists 3. split; [lia | reflexivity].
    + exists 2. split; [lia | reflexivity].
  - exists 1. split; [lia | reflexivity].
Qed.

Lemma generation_requests {B : Type}
    (service : Anthropic.Service B) (self : Llm.ClaudeClient)
    (transcript : Transcript.t) (chapter_count : Z)
    (w : World (Llm.Backend B)) :
  let run :=
    generate_all_content (client_of service self) transcript
      chapter_count w in
  exists n1 n2 n3,
    Llm.requests (llm_state (snd run))
    = Llm.requests (llm_state w)
      ++ repeat (request_of_call self (description_call transcript)) n1
      ++ repeat (request_of_call self (titles_call transcript)) n2
      ++ repeat (request_of_call self (chapters_call transcript chapter_count))
           n3
    /\ 1 <= n1 <= 3 /\ n2 <= 3 /\ n3 <= 3
    /\ (n2 = 0 -> n3 = 0)
    /\ (forall content, fst run = inr content -> 1 <= n2 /\ 1 <= n3)
    /\ call_max_tokens (description_call transcript) = 4096%Z
    /\ call_max_tokens (titles_call transcript) = 4096%Z
    /\ call_max_tokens (chapters_call transcript chapter_count) = 4096%Z.
Proof.
  intros run. subst run.
  set (client := client_of service self).
  unfold generate_all_content, bind.
  rewrite generate_description_run.
  destruct (call_requests service self (description_call transcript)
              (llm_state w)) as [n1 [Hn1 Hr1]].
  fold client in Hr1.
  set (s1 := snd (answer client (description_call transcript) (llm_state w)))
    in *.
  destruct (description_outcome _) as [e1 | description].
  { exists n1, 0, 0. cbn [snd llm_state repeat]. rewrite !app_nil_r.
    repeat split; try lia; try assumption; try discriminate. }
  rewrite generate_titles_run. cbn [llm_state calls].
  destruct (call_requests service self (titles_call transcript) s1)
    as [n2 [Hn2 Hr2]].
  fold client in Hr2.
  set (s2 := snd (answer client (titles_call transcript) s1)) in *.
  destruct (titles_outcome _) as [e2 | titles].
  { exists n1, n2, 0. cbn [snd llm_state repeat]. rewrite !app_nil_r.
    rewrite Hr2, Hr1, <- app_assoc.
    repeat split; try lia; try discriminate. }
  rewrite generate_chapters_run. cbn [llm_state calls].
  destruct (call_requests service self
              (chapters_call transcript chapter_count) s2)
    as [n3 [Hn3 Hr3]].
  fold client in Hr3.
  set (s3 := snd (answer client (chapters_call transcript chapter_count) s2))
    in *.
  exists n1, n2, n3.
  assert (Hreq : Llm.requests s3
                 = Llm.requests (llm_state w)
                   ++ repeat (request_of_call self (description_call transcript)) n1
                   ++ repeat (request_of_call self (titles_call transcript)) n2
                   ++ repeat (request_of_call self
                                (chapters_call transcript chapter_count)) n3).
  { rewrite Hr3, Hr2, Hr1, <- !app_assoc. reflexivity. }
  destruct (chapters_outcome _) as [e3 | chapters];
    cbn [snd fst llm_state ret]; repeat split; try lia; exact Hreq.
Qed.

Lemma client_requests {B : Type} (service : Anthropic.Service B)
    (self : Llm.ClaudeClient) (transcript : Transcript.t) (chapter_count : Z)
    (w : World (Llm.Backend B)) :
  exists made,
    Llm.requests
      (llm_state (snd (generate_all_content (client_of service self)
                         transcript chapter_count w)))
    = Llm.requests (llm_state w) ++ made
    /\ length made <= 9
    /\ Forall (fun kr : pystr * Anthropic.Request =>
                 fst kr = Llm.self_api_key self
                 /\ Anthropic.model (snd kr) = Llm.self_model self
                 /\ Anthropic.max_tokens (snd kr) = 4096%Z) made.
Proof.
  destruct (generation_requests service self transcript chapter_count w)
    as [n1 [n2 [n3 [Hreq [H1 [H2 [H3 _]]]]]]].
  eexists. split; [exact Hreq |]. split.
  - rewrite !length_app, !repeat_length. lia.
  - repeat (apply Forall_app; split);
      apply List.Forall_forall; intros kr Hin; apply repeat_spec in Hin;
      subst kr; repeat split.
Qed.



(* ===================================================================== *)
(** * Saving, and saving again *)
(* ===================================================================== *)

Lemma save_outputs_dirs (output_dir : Path) (T : Transcript.t)
    (content : option GeneratedContent.t) (fs : FileSystem) :
  dirs (_save_outputs output_dir T content fs)
  = list_to_set (ancestors output_dir) ∪ dirs fs.
Proof.
  unfold _save_outputs. destruct content as [content |]; [| reflexivity].
  destruct (GeneratedContent.description content),
    (GeneratedContent.titles content),
    (GeneratedContent.chapters content); reflexivity.
Qed.

Lemma other_name (d : Path) (a b : pystr) :
  a <> b -> path_join d a <> path_join d b.
Proof. intros Hne H. apply Hne. exact (path_join_inj d a b H). Qed.

Lemma save_outputs_lookup (output_dir : Path) (T : Transcript.t)
    (content : option GeneratedContent.t) (fs : FileSystem) (q : Path) :
  files (_save_outputs output_dir T content fs) !! q
  = match saved_file output_dir T content q with
    | Some text => Some text
    | None => files fs !! q
    end.
Proof.
  assert (Hother : forall (name : string) (c : pystr) (g : FileSystem),
             q <> path_join output_dir (str name) ->
             files (write_file (path_join output_dir (str name)) c g) !! q
             = files g !! q).
  { intros name c g H. apply lookup_write_other. congruence. }
  unfold _save_outputs, saved_file.
  destruct content as [content |];
    [destruct (GeneratedContent.description content),
       (GeneratedContent.titles content),
       (GeneratedContent.chapters content) |];
    repeat case_decide;
    rewrite ?Hother by assumption;
    try reflexivity;
    subst q;
    repeat first [ rewrite lookup_write_same
                 | rewrite lookup_write_other
                     by (apply other_name; vm_compute; discriminate) ];
    reflexivity.
Qed.

Lemma file_system_eq (a b : FileSystem) :
  dirs a = dirs b -> files a = files b -> a = b.
Proof. destruct a, b. cbn. intros -> ->. reflexivity. Qed.

(** X11.  Saving is idempotent: a second call of [_save_outputs] with the
    same directory, transcript and content leaves the file system as
    the first call made it. *)
Theorem save_outputs_idempotent (output_dir : Path) (T : Transcript.t)
    (content : option GeneratedContent.t) (fs : FileSystem) :
  _save_outputs output_dir T content (_save_outputs output_dir T content fs)
  = _save_outputs output_dir T content fs.
Proof.
  apply file_system_eq.
  - rewrite !save_outputs_dirs. apply set_eq. intros x.
    rewrite !elem_of_union. tauto.
  - apply map_eq. intros q. rewrite !save_outputs_lookup.
    destruct (saved_file output_dir T content q); reflexivity.
Qed.


(* ===================================================================== *)
(** * The saved titles, read back *)
(* ===================================================================== *)

Lemma dump_title_printable (t : Title.t) :
  TitleSafe t -> Printable (Dump.title t).
Proof.
  intros [H1 [H2 H3]]. unfold Dump.title. apply Printable_obj.
  - literal_keys.
  - each_member ltac:(apply literal_valid; reflexivity).
  - each_member ltac:(constructor; assumption).
Qed.

Lemma dump_titles_printable (titles : list Title.t) :
  Forall TitleSafe titles ->
  Printable (Json.JArr (List.map Dump.title titles)).
Proof.
  intros H. constructor.
  induction H as [|t l Ht _ IH]; constructor;
    [apply dump_title_printable; exact Ht | exact IH].
Qed.

Lemma title_entry_of_dump (t : Title.t) : TitleEntry (Dump.title t) t.
Proof.
  destruct t as [a b c]. unfold Dump.title.
  eexists. split; [reflexivity |]. repeat split; vm_compute; reflexivity.
Qed.

Lemma titles_of_dump (titles : list Title.t) :
  titles_of_data (Json.JArr (List.map Dump.title titles)) = inr titles.
Proof.
  unfold titles_of_data. cbn [Pydantic.iterate]. apply mapM_inr.
  induction titles as [|t l IH]; constructor; [| exact IH].
  apply title_of_entry, title_entry_of_dump.
Qed.

Lemma dumps_array_bracketed (items : list Json.value) :
  exists mid, Json.dumps (Json.JArr items) = [91%N] ++ mid ++ [93%N].
Proof.
  unfold Json.dumps. destruct items as [|x l].
  - exists []. reflexivity.
  - cbn [Json.dumps_at]. change (str "[") with [91%N].
    change (str "]") with [93%N].
    exists (Json.newline_indent 1
            ++ join (str "," ++ Json.newline_indent 1)
                 (List.map (Json.dumps_at 1) (x :: l))
            ++ Json.newline_indent 0).
    rewrite <- !app_assoc. reflexivity.
Qed.

(** X13.  The file [titles.json] can be fed back: when the titles of a
    content are not empty and their strings are made of scalar values,
    a model that answers the titles call with the text that
    [_save_outputs] wrote to [titles.json] makes [generate_titles]
    return these titles again. *)
Theorem saved_titles_read_back {S : Type} (client : ClaudeClient S)
    (output_dir : Path) (saved later : Transcript.t)
    (content : GeneratedContent.t) (fs : FileSystem) (w : World S)
    (text : pystr) (s' : S) :
  GeneratedContent.titles content <> [] ->
  Forall TitleSafe (GeneratedContent.titles content) ->
  files (_save_outputs output_dir saved (Some content) fs)
    !! path_join output_dir (str "titles.json") = Some text ->
  answer client (titles_call later) (llm_state w) = (inr text, s') ->
  fst (generate_titles client later w) = inr (GeneratedContent.titles content).
Proof.
  intros Hsome Hsafe Hfile Hanswer.
  rewrite save_outputs_lookup in Hfile. unfold saved_file in Hfile.
  rewrite decide_False in Hfile by (apply other_name; vm_compute; discriminate).
  rewrite decide_True in Hfile by reflexivity.
  destruct (GeneratedContent.titles content) as [|t0 rest] eqn:Htitles;
    [congruence |].
  injection Hfile as <-.
  rewrite generate_titles_run. cbn [fst]. rewrite Hanswer.
  cbn [fst titles_outcome].
  destruct (dumps_array_bracketed (List.map Dump.title (t0 :: rest)))
    as [mid Hmid].
  change (Dump.title t0 :: List.map Dump.title rest)
    with (List.map Dump.title (t0 :: rest)).
  rewrite Hmid, extract_json_bracketed, <- Hmid.
  rewrite (loads_dumps _ (dump_titles_printable _ Hsafe)).
  apply titles_of_dump.
Qed.

Lemma saved_titles_read_back_witness :
  fst (generate_titles
         (constant_client
            (Json.dumps
               (Json.JArr
                  (List.map Dump.title
                     (GeneratedContent.titles one_title_content)))))
         hello_world_transcript fresh_world)
  = inr (GeneratedContent.titles one_title_content).
Proof.
  apply (saved_titles_read_back _ [str "out"] empty_transcript
           hello_world_transcript one_title_content empty_fs fresh_world
           (Json.dumps
              (Json.JArr
                 (List.map Dump.title
                    (GeneratedContent.titles one_title_content)))) tt).
  - discriminate.
  - repeat constructor; apply literal_valid; reflexivity.
  - vm_compute. reflexivity.
  - reflexivity.
Defined.

(* ===================================================================== *)
(** * The first line of the chapters file *)
(* ===================================================================== *)





(* ===================================================================== *)
(** * The JSON files are ASCII *)
(* ===================================================================== *)

Lemma ascii_app (a b : pystr) : IsAscii a -> IsAscii b -> IsAscii (a ++ b).
Proof. intros Ha Hb. apply Forall_app. split; assumption. Qed.

Lemma ascii_literal (s : string) :
  forallb (fun c => (c <? 128)%N) (str s) = true -> IsAscii (str s).
Proof.
  intros H. apply List.Forall_forall. intros c Hc.
  apply N.ltb_lt. exact (proj1 (forallb_forall _ _) H c Hc).
Qed.

Lemma ascii_repeat (c : N) (n : nat) : (c < 128)%N -> IsAscii (repeat c n).
Proof.
  intros Hc. apply List.Forall_forall. intros x Hx.
  apply repeat_spec in Hx. subst x. exact Hc.
Qed.

Lemma ascii_digits (n : N) : IsAscii (digits n).
Proof.
  eapply List.Forall_impl; [| apply digits_all_digits].
  intros c Hc. unfold Json.is_digit in Hc. cbv beta in Hc.
  apply andb_prop in Hc. destruct Hc as [_ Hc]. apply N.leb_le in Hc. lia.
Qed.

Lemma ascii_str_int (z : Z) : IsAscii (str_int z).
Proof.
  unfold str_int. destruct (z <? 0)%Z; [apply ascii_app |];
    try apply ascii_digits.
  apply ascii_literal. reflexivity.
Qed.

Lemma ascii_format_02d (z : Z) : IsAscii (format_02d z).
Proof.
  unfold format_02d, format_0d, digit_char.
  destruct (z <? 0)%Z; repeat apply ascii_app;
    first [ apply ascii_digits
          | apply ascii_repeat; reflexivity
          | apply ascii_literal; reflexivity ].
Qed.

Lemma ascii_strip_zeros (l : pystr) (d : nat) :
  IsAscii l -> IsAscii (fst (Json.strip_zeros l d)).
Proof.
  intros H. destruct (strip_zeros_spec l d) as [j [_ [Hl _]]].
  rewrite Hl in H. apply Forall_app in H. apply H.
Qed.

Lemma ascii_float_digits (q : Q) : IsAscii (fst (Json.float_digits q)).
Proof.
  unfold Json.float_digits.
  set (m := (Z.abs (Qnum (Qred q)) * 10 ^ _ / _)%Z).
  pose proof (ascii_strip_zeros (rev (digits (Z.to_N m))) 0) as H.
  destruct (Json.strip_zeros (rev (digits (Z.to_N m))) 0) as [rd zeros].
  cbn [fst] in H. destruct (m =? 0)%Z; cbn [fst].
  - apply ascii_literal. reflexivity.
  - apply Forall_rev, H, Forall_rev, ascii_digits.
Qed.

Lemma ascii_float_repr (q : Q) : IsAscii (Json.float_repr q).
Proof.
  unfold Json.float_repr. pose proof (ascii_float_digits q) as H.
  destruct (Json.float_digits q) as [ds decpt]. cbn [fst] in H.
  assert (Hfirst : forall n, IsAscii (firstn n ds)) by (intros n; apply Forall_take, H).
  assert (Hskip : forall n, IsAscii (skipn n ds)) by (intros n; apply Forall_drop, H).
  apply ascii_app.
  - destruct (float_lt q 0); [apply ascii_literal; reflexivity | constructor].
  - destruct ((decpt <=? -4) || (16 <? decpt))%Z.
    + repeat apply ascii_app; try apply Hfirst; try apply ascii_format_02d;
        try (apply ascii_literal; reflexivity).
      * pose proof (Hskip 1) as H1. destruct (skipn 1 ds); [constructor |].
        apply ascii_app; [apply ascii_literal; reflexivity | exact H1].
      * destruct (decpt - 1 <? 0)%Z; apply ascii_literal; reflexivity.
    + destruct (decpt <=? 0)%Z; [| destruct (Z.of_nat (length ds) <=? decpt)%Z];
        repeat apply ascii_app;
        first [ exact H | apply Hfirst | apply Hskip
              | apply ascii_repeat; reflexivity
              | apply ascii_literal; reflexivity ].
Qed.

Lemma hex_digit_ascii (d : N) : (d < 16)%N -> (Json.hex_digit d < 128)%N.
Proof. unfold Json.hex_digit. destruct (d <? 10)%N; lia. Qed.

Lemma ascii_hex4_chars (n : N) : IsAscii (Json.hex4_chars n).
Proof.
  unfold Json.hex4_chars.
  repeat (apply List.Forall_cons;
          [apply hex_digit_ascii, N.mod_lt; discriminate |]).
  apply List.Forall_nil.
Qed.

Lemma ascii_escape_char (c : N) : IsAscii (Json.escape_char c).
Proof.
  assert (Hpair : forall a b : N,
             (a < 128)%N -> (b < 128)%N -> IsAscii [a; b]).
  { intros a b Ha Hb. repeat constructor; assumption. }
  unfold Json.escape_char.
  repeat match goal with
         | |- IsAscii (if ?b then _ else _) => destruct b eqn:?
         end;
    try (apply Hpair; reflexivity).
  - apply andb_prop in Heqb1. destruct Heqb1 as [_ H].
    apply N.leb_le in H. repeat constructor. lia.
  - apply ascii_app; [apply Hpair; reflexivity | apply ascii_hex4_chars].
  - cbv zeta.
    repeat apply ascii_app;
      first [ apply Hpair; reflexivity | apply ascii_hex4_chars ].
Qed.

Lemma ascii_encode_string (s : pystr) : IsAscii (Json.encode_string s).
Proof.
  unfold Json.encode_string.
  assert (Hdq : IsAscii dq) by (repeat constructor).
  repeat apply ascii_app; try exact Hdq.
  induction s as [|c t IH]; cbn [flat_map]; [constructor |].
  apply ascii_app; [apply ascii_escape_char | exact IH].
Qed.

Lemma ascii_newline_indent (level : nat) : IsAscii (Json.newline_indent level).
Proof.
  unfold Json.newline_indent. apply ascii_app.
  - repeat constructor.
  - apply ascii_repeat. reflexivity.
Qed.

Lemma ascii_join (sep : pystr) (items : list pystr) :
  IsAscii sep -> Forall IsAscii items -> IsAscii (join sep items).
Proof.
  intros Hsep H. induction H as [|x l Hx Hl IH]; [constructor |].
  destruct l as [|y l']; [exact Hx |].
  change (join sep (x :: y :: l')) with (x ++ sep ++ join sep (y :: l')).
  repeat apply ascii_app; assumption.
Qed.

Lemma ascii_dumps_at (v : Json.value) :
  forall level, IsAscii (Json.dumps_at level v).
Proof.
  assert (Hsep : forall level,
             IsAscii (str "," ++ Json.newline_indent level)).
  { intros level. apply ascii_app;
      [apply ascii_literal; reflexivity | apply ascii_newline_indent]. }
  induction v as [| b | z | q | k | s | items IH | members IH]
    using value_induction; intros level.
  - apply ascii_literal. reflexivity.
  - destruct b; apply ascii_literal; reflexivity.
  - apply ascii_str_int.
  - apply ascii_float_repr.
  - destruct k; apply ascii_literal; reflexivity.
  - apply ascii_encode_string.
  - destruct items as [|x l]; [apply ascii_literal; reflexivity |].
    cbn [Json.dumps_at].
    apply ascii_app; [apply ascii_literal; reflexivity |].
    apply ascii_app; [apply ascii_newline_indent |].
    apply ascii_app; [| apply ascii_app;
                          [apply ascii_newline_indent
                          | apply ascii_literal; reflexivity]].
    apply ascii_join; [apply Hsep |].
    apply Forall_map. eapply List.Forall_impl; [| exact IH].
    intros a Ha. apply Ha.
  - destruct members as [|x l]; [apply ascii_literal; reflexivity |].
    cbn [Json.dumps_at].
    apply ascii_app; [apply ascii_literal; reflexivity |].
    apply ascii_app; [apply ascii_newline_indent |].
    apply ascii_app; [| apply ascii_app;
                          [apply ascii_newline_indent
                          | apply ascii_literal; reflexivity]].
    apply ascii_join; [apply Hsep |].
    apply Forall_map. eapply List.Forall_impl; [| exact IH].
    intros a Ha. cbv beta.
    apply ascii_app; [apply ascii_encode_string |].
    apply ascii_app; [apply ascii_literal; reflexivity | apply Ha].
Qed.

(** X15.  The JSON files hold ASCII characters only, whatever the text of the
    transcript and of the titles: [transcript.json] after every save,
    [titles.json] after a save with titles.  Characters outside the
    printable ASCII range are written as escapes. *)
Theorem json_files_are_ascii (output_dir : Path) (T : Transcript.t)
    (content : option GeneratedContent.t) (fs : FileSystem) :
  let fs' := _save_outputs output_dir T content fs in
  (exists text,
      files fs' !! path_join output_dir (str "transcript.json") = Some text
      /\ IsAscii text)
  /\ (forall c,
         content = Some c -> GeneratedContent.titles c <> [] ->
         exists text,
           files fs' !! path_join output_dir (str "titles.json") = Some text
           /\ IsAscii text).
Proof.
  intros fs'. subst fs'. split.
  - rewrite save_outputs_lookup. unfold saved_file.
    rewrite !decide_False by (apply other_name; vm_compute; discriminate).
    rewrite decide_True by reflexivity.
    eexists. split; [reflexivity | apply ascii_dumps_at].
  - intros c -> Hsome. rewrite save_outputs_lookup. unfold saved_file.
    rewrite decide_False by (apply other_name; vm_compute; discriminate).
    rewrite decide_True by reflexivity.
    destruct (GeneratedContent.titles c) as [|t0 rest] eqn:Ht; [congruence |].
    eexists. split; [reflexivity | apply ascii_dumps_at].
Qed.

Lemma json_files_are_ascii_witness :
  exists text,
    files (_save_outputs [str "out"] empty_transcript (Some one_title_content)
             empty_fs)
      !! path_join [str "out"] (str "titles.json") = Some text
    /\ IsAscii text.
Proof.
  apply (proj2 (json_files_are_ascii [str "out"] empty_transcript
                  (Some one_title_content) empty_fs) one_title_content).
  - reflexivity.
  - discriminate.
Defined.

(* ===================================================================== *)
(** * The summary *)
(* ===================================================================== *)

Lemma add_rows {A : Type} (step : Rich.Table -> A -> Rich.Table)
    (row : A -> list pystr) (l : list A) (table : Rich.Table) :
  (forall t x, step t x = Rich.add_row t (row x)) ->
  fold_left step l table
  = Rich.mkTable (Rich.title table) (Rich.show_header table)
      (Rich.header_style table) (Rich.columns table)
      (Rich.rows table ++ List.map row l).
Proof.
  intros Hstep. revert table.
  induction l as [|x l IH]; intros table; cbn [fold_left List.map].
  - rewrite app_nil_r. destruct table; reflexivity.
  - rewrite IH, Hstep. unfold Rich.add_row. cbn. rewrite <- app_assoc.
    reflexivity.
Qed.

Lemma enumerate_length {A : Type} (start : Z) (l : list A) :
  length (enumerate start l) = length l.
Proof.
  revert start. induction l as [|x l IH]; intros start; cbn; [reflexivity |].
  rewrite IH. reflexivity.
Qed.

Lemma enumerate_nth {A : Type} (start : Z) (l : list A) (i : nat) (x : A) :
  nth_error l i = Some x ->
  nth_error (enumerate start l) i = Some ((start + Z.of_nat i)%Z, x).
Proof.
  revert start i. induction l as [|y l IH]; intros start i.
  - destruct i; discriminate.
  - destruct i as [|i]; cbn [nth_error enumerate].
    + intros [= ->]. rewrite Z.add_0_r. reflexivity.
    + intros H. rewrite (IH (start + 1)%Z i H). do 2 f_equal. lia.
Qed.

Lemma titles_table_rows (titles : list Title.t) :
  Rich.rows (titles_table titles)
  = List.map
      (fun numbered : Z * Title.t =>
         [str_int (fst numbered); Title.title (snd numbered);
          Title.thumbnail_text (snd numbered)])
      (enumerate 1 (firstn 5 titles))
    ++ (if (5 <? Z.of_nat (length titles))%Z
        then [[str "...";
               str "(+" ++ str_int (Z.of_nat (length titles) - 5)
               ++ str " more in titles.json)";
               []]]
        else []).
Proof.
  unfold titles_table.
  rewrite (add_rows _
             (fun numbered : Z * Title.t =>
                [str_int (fst numbered); Title.title (snd numbered);
                 Title.thumbnail_text (snd numbered)]))
    by (intros t [i title]; reflexivity).
  cbn [Rich.rows Rich.add_column Rich.title Rich.show_header
       Rich.header_style Rich.columns app].
  destruct (5 <? Z.of_nat (length titles))%Z.
  - reflexivity.
  - rewrite app_nil_r. reflexivity.
Qed.

(** X16.  The table of titles in the summary has at most six rows: one for
    each of the first five titles, numbered from one, with the title and
    the thumbnail text, and, when there are more than five titles, a
    last row that gives the number of the titles left out. *)
Theorem summary_shows_five_titles (titles : list Title.t) :
  let rows := Rich.rows (titles_table titles) in
  length rows
  = Nat.min (length titles) 5 + (if 5 <? length titles then 1 else 0)
  /\ (forall i title,
         i < 5 -> nth_error titles i = Some title ->
         nth_error rows i
         = Some [str_int (Z.of_nat i + 1); Title.title title;
                 Title.thumbnail_text title])
  /\ (5 < length titles ->
      nth_error rows 5
      = Some [str "...";
              str "(+" ++ str_int (Z.of_nat (length titles) - 5)
              ++ str " more in titles.json)";
              []]).
Proof.
  intros rows. subst rows. rewrite titles_table_rows.
  assert (Hlen : length (enumerate 1 (firstn 5 titles))
                 = Nat.min (length titles) 5).
  { rewrite enumerate_length, length_firstn. lia. }
  split; [| split].
  - rewrite length_app, length_map, Hlen.
    destruct (Nat.ltb_spec 5 (length titles)),
      (Z.ltb_spec 5 (Z.of_nat (length titles))); cbn [length]; lia.
  - intros i title Hi Hnth.
    assert (Hshown : nth_error (firstn 5 titles) i = Some title).
    { rewrite nth_error_firstn.
      destruct (Nat.ltb_spec i 5); [exact Hnth | lia]. }
    rewrite nth_error_app1.
    + rewrite nth_error_map, (enumerate_nth 1 _ i title Hshown).
      cbn [option_map fst snd]. do 3 f_equal. lia.
    + rewrite length_map, Hlen.
      assert (i < length titles) by (apply nth_error_Some; congruence). lia.
  - intros Hmore. rewrite nth_error_app2; rewrite length_map, Hlen;
      [| lia].
    replace (5 - Nat.min (length titles) 5) with 0 by lia.
    destruct (Z.ltb_spec 5 (Z.of_nat (length titles))); [reflexivity | lia].
Qed.

Lemma summary_shows_five_titles_witness :
  nth_error
    (Rich.rows (titles_table (GeneratedContent.titles one_title_content))) 0
  = Some [str "1"; str "Why X is Actually Wrong"; str "WRONG"].
Proof.
  exact (proj1 (proj2 (summary_shows_five_titles
                         (GeneratedContent.titles one_title_content)))
           0 _ ltac:(lia) eq_refl).
Defined.


(* ===================================================================== *)
(** * The commands *)
(* ===================================================================== *)

Lemma later_outcome_fails {B : Type} (service : Anthropic.Service B)
    (key : pystr) (request : Anthropic.Request) (k : nat) (s : B) :
  AlwaysFails service ->
  exists msg,
    outcome_answer (fst (later_outcome service key request k s))
    = inl (LLMError msg).
Proof.
  intros Hfails. revert s. induction k as [|k IH]; intros s.
  - apply Hfails.
  - cbn [later_outcome]. apply IH.
Qed.


(** A call to a service that always fails: three requests, then the
    error. *)
Lemma failing_call {B : Type} (service : Anthropic.Service B)
    (self : Llm.ClaudeClient) (c : Call) (b : Llm.Backend B) :
  AlwaysFails service ->
  exists msg,
    fst (answer (client_of service self) c b) = inl (LLMError msg)
    /\ Llm.requests (snd (answer (client_of service self) c b))
       = Llm.requests b ++ repeat (request_of_call self c) 3.
Proof.
  intros Hfails. unfold answer, client_of. cbn [generate].
  rewrite generate_attempts. cbv zeta. unfold request_of_call.
  destruct (later_outcome_fails service (Llm.self_api_key self)
              (Anthropic.mkRequest (Llm.self_model self) (call_max_tokens c)
                 (call_temperature c) (call_prompt c))
              0 (Llm.service_state b) Hfails) as [m0 ->].
  destruct (later_outcome_fails service (Llm.self_api_key self)
              (Anthropic.mkRequest (Llm.self_model self) (call_max_tokens c)
                 (call_temperature c) (call_prompt c))
              1 (Llm.service_state b) Hfails) as [m1 ->].
  destruct (later_outcome_fails service (Llm.self_api_key self)
              (Anthropic.mkRequest (Llm.self_model self) (call_max_tokens c)
                 (call_temperature c) (call_prompt c))
              2 (Llm.service_state b) Hfails) as [m2 ->].
  exists m2. split; reflexivity.
Qed.


Lemma nonempty_key (key model : pystr) :
  key <> [] -> Llm.__init__ key model = inr (Llm.mkClaudeClient model key).
Proof. destruct key; [congruence | reflexivity]. Qed.

(** [process] once the key is there and the audio is transcribed. *)
Lemma process_transcribed {B W : Type} (service : Anthropic.Service B)
    (transcriber : Transcriber.t W) (stem : Path -> pystr)
    (audio_file : Path) (output : option Path) (whisper_model : pystr)
    (chapters : Z) (api_key : option pystr) (settings : Settings.t)
    (st : Cli.State B W) (transcript : Transcript.t) (whisper' : W) :
  Cli.resolved_api_key api_key settings <> [] ->
  Transcriber.transcribe transcriber whisper_model audio_file (Cli.fs st)
    (Cli.whisper st) = (Transcriber.Transcribed transcript, whisper') ->
  let client :=
    Llm.mkClaudeClient (Settings.claude_model settings)
      (Cli.resolved_api_key api_key settings) in
  let run :=
    generate_all_content (client_of service client) transcript
      chapters (Cli.generation st) in
  Cli.process service transcriber stem audio_file output whisper_model
    chapters api_key settings st
  = match fst run with
    | inl e =>
        (Cli.process_handler e, Cli.mkState (Cli.fs st) (snd run) whisper')
    | inr content =>
        (Cli.Returned,
         Cli.mkState
           (_save_outputs (audio_output_dir stem audio_file output settings)
              transcript (Some content) (Cli.fs st))
           (snd run) whisper')
    end.
Proof.
  intros Hkey Htranscribed client run. subst run client.
  unfold Cli.process.
  destruct (Cli.resolved_api_key api_key settings) as [|c key] eqn:Hresolved;
    [congruence |].
  rewrite Htranscribed. cbn [Llm.__init__].
  destruct (generate_all_content _ transcript chapters (Cli.generation st))
    as [[e | content] generation']; reflexivity.
Qed.

(** [generate] once the key is there and the transcript is loaded. *)
Lemma generate_loaded {B W : Type} (service : Anthropic.Service B)
    (parent : Path -> Path) (transcript_file : Path) (output : option Path)
    (chapters : Z) (api_key : option pystr) (settings : Settings.t)
    (st : Cli.State B W) (transcript : Transcript.t) :
  Cli.resolved_api_key api_key settings <> [] ->
  load_transcript transcript_file (Cli.fs st) = Some (inr transcript) ->
  let client :=
    Llm.mkClaudeClient (Settings.claude_model settings)
      (Cli.resolved_api_key api_key settings) in
  let run :=
    generate_all_content (client_of service client) transcript
      chapters (Cli.generation st) in
  Cli.generate service parent transcript_file output chapters api_key
    settings st
  = match fst run with
    | inl e =>
        (Cli.generate_handler e,
         Cli.mkState (Cli.fs st) (snd run) (Cli.whisper st))
    | inr content =>
        (Cli.Returned,
         Cli.mkState
           (_save_outputs
              (match output with
               | Some output => output
               | None => parent transcript_file
               end)
              transcript (Some content) (Cli.fs st))
           (snd run) (Cli.whisper st))
    end.
Proof.
  intros Hkey Hloaded client run. subst run client.
  unfold Cli.generate.
  destruct (Cli.resolved_api_key api_key settings) as [|c key] eqn:Hresolved;
    [congruence |].
  assert (Hexists : path_exists transcript_file (Cli.fs st) = true).
  { unfold path_exists. apply bool_decide_eq_true. left.
    unfold load_transcript in Hloaded.
    destruct (files (Cli.fs st) !! transcript_file); [eauto | discriminate]. }
  rewrite Hexists, Hloaded. cbn [negb Llm.__init__].
  destruct (generate_all_content _ transcript chapters (Cli.generation st))
    as [[e | content] generation']; reflexivity.
Qed.


(** X19.  When every request to the service fails, [process] gives up after
    the third request of the first call, the one for the description:
    it exits with code 1 and saves nothing, the transcript that the
    transcriber returned being lost with the rest. *)
Theorem process_gives_up_after_three_requests {B W : Type}
    (service : Anthropic.Service B) (transcriber : Transcriber.t W)
    (stem : Path -> pystr) (audio_file : Path) (output : option Path)
    (whisper_model : pystr) (chapters : Z) (api_key : option pystr)
    (settings : Settings.t) (st : Cli.State B W)
    (transcript : Transcript.t) (whisper' : W) :
  AlwaysFails service ->
  Cli.resolved_api_key api_key settings <> [] ->
  Transcriber.transcribe transcriber whisper_model audio_file (Cli.fs st)
    (Cli.whisper st) = (Transcriber.Transcribed transcript, whisper') ->
  let run :=
    Cli.process service transcriber stem audio_file output whisper_model
      chapters api_key settings st in
  let client :=
    Llm.mkClaudeClient (Settings.claude_model settings)
      (Cli.resolved_api_key api_key settings) in
  fst run = Cli.Exit 1
  /\ Cli.fs (snd run) = Cli.fs st
  /\ Llm.requests (llm_state (Cli.generation (snd run)))
     = Llm.requests (llm_state (Cli.generation st))
       ++ repeat (request_of_call client (description_call transcript)) 3
  /\ calls (Cli.generation (snd run))
     = calls (Cli.generation st) ++ [description_call transcript].
Proof.
  intros Hfails Hkey Htranscribed run client. subst run.
  rewrite (process_transcribed service transcriber stem audio_file output
             whisper_model chapters api_key settings st transcript whisper'
             Hkey Htranscribed).
  cbv zeta. fold client.
  unfold generate_all_content, bind. rewrite generate_description_run.
  destruct (failing_call service client (description_call transcript)
              (llm_state (Cli.generation st)) Hfails) as [msg [Hfst Hreq]].
  rewrite Hfst. cbn [description_outcome fst snd Cli.process_handler
                     Cli.fs Cli.generation llm_state calls].
  repeat split. exact Hreq.
Qed.

Lemma process_gives_up_after_three_requests_witness :
  fst (Cli.process unreachable_service
         (fixed_transcriber hello_world_transcript) (fun _ => str "episode")
         [str "episode.mp3"] None (str "medium") 10 None example_settings
         fresh_state)
  = Cli.Exit 1.
Proof.
  refine (proj1 (process_gives_up_after_three_requests unreachable_service
                   (fixed_transcriber hello_world_transcript)
                   (fun _ => str "episode") [str "episode.mp3"] None
                   (str "medium") 10 None example_settings fresh_state
                   hello_world_transcript tt _ _ eq_refl)).
  - intros key request s. eexists. reflexivity.
  - discriminate.
Defined.

Lemma load_saved_transcript (output_dir : Path) (T : Transcript.t)
    (content : option GeneratedContent.t) (fs : FileSystem) :
  RoundTripSafe T ->
  load_transcript (path_join output_dir (str "transcript.json"))
    (_save_outputs output_dir T content fs)
  = Some (inr T).
Proof.
  intros Hsafe. unfold load_transcript.
  rewrite save_outputs_transcript_json.
  rewrite (loads_dumps _ (dump_transcript_printable T Hsafe)).
  rewrite validate_dump_transcript. reflexivity.
Qed.





Lemma process_generation {B W : Type} (service : Anthropic.Service B)
    (transcriber : Transcriber.t W) (stem : Path -> pystr)
    (audio_file : Path) (output : option Path) (whisper_model : pystr)
    (chapters : Z) (api_key : option pystr) (settings : Settings.t)
    (st : Cli.State B W) :
  let client :=
    Llm.mkClaudeClient (Settings.claude_model settings)
      (Cli.resolved_api_key api_key settings) in
  let run :=
    Cli.process service transcriber stem audio_file output whisper_model
      chapters api_key settings st in
  Cli.generation (snd run) = Cli.generation st
  \/ exists transcript,
       Cli.generation (snd run)
       = snd (generate_all_content (client_of service client)
                transcript chapters (Cli.generation st)).
Proof.
  intros client run. subst run client. unfold Cli.process.
  destruct (Cli.resolved_api_key api_key settings) as [|c key];
    [left; reflexivity |].
  destruct (Transcriber.transcribe transcriber whisper_model audio_file
              (Cli.fs st) (Cli.whisper st)) as [[T | msg | e] whisper'];
    try (left; reflexivity).
  right. exists T. cbn [Llm.__init__].
  destruct (generate_all_content _ T chapters (Cli.generation st))
    as [[e | content] generation']; reflexivity.
Qed.

Lemma generate_generation {B W : Type} (service : Anthropic.Service B)
    (parent : Path -> Path) (transcript_file : Path) (output : option Path)
    (chapters : Z) (api_key : option pystr) (settings : Settings.t)
    (st : Cli.State B W) :
  let client :=
    Llm.mkClaudeClient (Settings.claude_model settings)
      (Cli.resolved_api_key api_key settings) in
  let run :=
    Cli.generate service parent transcript_file output chapters api_key
      settings st in
  Cli.generation (snd run) = Cli.generation st
  \/ exists transcript,
       Cli.generation (snd run)
       = snd (generate_all_content (client_of service client)
                transcript chapters (Cli.generation st)).
Proof.
  intros client run. subst run client. unfold Cli.generate.
  destruct (Cli.resolved_api_key api_key settings) as [|c key];
    [left; reflexivity |].
  destruct (path_exists transcript_file (Cli.fs st));
    [| left; reflexivity].
  cbn [negb].
  destruct (load_transcript transcript_file (Cli.fs st)) as [[e | T] |];
    try (left; reflexivity).
  right. exists T. cbn [Llm.__init__].
  destruct (generate_all_content _ T chapters (Cli.generation st))
    as [[e | content] generation']; reflexivity.
Qed.

(** X22.  The requests of [process] and of [generate] are at most nine, and
    each is made with the resolved key -- the key of the command line
    when one is given and not empty, the key of the settings
    otherwise -- with the model of the settings and [max_tokens]
    4096. *)
Theorem commands_use_resolved_key {B W : Type}
    (service : Anthropic.Service B) (transcriber : Transcriber.t W)
    (stem : Path -> pystr) (parent : Path -> Path)
    (audio_file transcript_file : Path) (output : option Path)
    (whisper_model : pystr) (chapters : Z) (api_key : option pystr)
    (settings : Settings.t) (st : Cli.State B W) :
  let key := Cli.resolved_api_key api_key settings in
  let ByTheBook (made : list (pystr * Anthropic.Request)) :=
    length made <= 9
    /\ Forall (fun kr : pystr * Anthropic.Request =>
                 fst kr = key
                 /\ Anthropic.model (snd kr) = Settings.claude_model settings
                 /\ Anthropic.max_tokens (snd kr) = 4096%Z) made in
  key = match api_key with
        | Some (c :: given) => c :: given
        | _ => Settings.anthropic_api_key settings
        end
  /\ (exists made,
         Llm.requests
           (llm_state
              (Cli.generation
                 (snd (Cli.process service transcriber stem audio_file output
                         whisper_model chapters api_key settings st))))
         = Llm.requests (llm_state (Cli.generation st)) ++ made
         /\ ByTheBook made)
  /\ (exists made,
         Llm.requests
           (llm_state
              (Cli.generation
                 (snd (Cli.generate service parent transcript_file output
                         chapters api_key settings st))))
         = Llm.requests (llm_state (Cli.generation st)) ++ made
         /\ ByTheBook made).
Proof.
  intros key ByTheBook.
  assert (Hnone : ByTheBook []).
  { split; [cbn; lia | constructor]. }
  split; [| split].
  - subst key. unfold Cli.resolved_api_key.
    destruct api_key as [[|c given] |]; reflexivity.
  - destruct (process_generation service transcriber stem audio_file output
                whisper_model chapters api_key settings st) as [-> | [T ->]].
    + exists []. rewrite app_nil_r. split; [reflexivity | exact Hnone].
    + destruct (client_requests service
                  (Llm.mkClaudeClient (Settings.claude_model settings) key)
                  T chapters (Cli.generation st)) as [made [Hreq [Hlen Hall]]].
      exists made. split; [exact Hreq |]. split; assumption.
  - destruct (generate_generation (W := W) service parent transcript_file
                output chapters api_key settings st) as [-> | [T ->]].
    + exists []. rewrite app_nil_r. split; [reflexivity | exact Hnone].
    + destruct (client_requests service
                  (Llm.mkClaudeClient (Settings.claude_model settings) key)
                  T chapters (Cli.generation st)) as [made [Hreq [Hlen Hall]]].
      exists made. split; [exact Hreq |]. split; assumption.
Qed.

(* ===================================================================== *)
(** * The transcriber *)
(* ===================================================================== *)

Lemma collect_words (words : list FasterWhisper.Word.t)
    (words_list : list WordTimestamp.t) :
  fold_left
    (fun words_list word =>
       words_list
       ++ [WordTimestamp.mk (FasterWhisper.Word.word word)
             (FasterWhisper.Word.start word) (FasterWhisper.Word.end_ word)
             (FasterWhisper.Word.probability word)])
    words words_list
  = words_list ++ List.map word_of words.
Proof. exact (fold_left_append word_of words words_list). Qed.

Lemma collect_segments (segments : list FasterWhisper.Segment.t)
    (segments_list : list TranscriptSegment.t)
    (words_list : list WordTimestamp.t) :
  fold_left WhisperLocalTranscriber.collect_segment segments
    (segments_list, words_list)
  = (segments_list ++ List.map segment_of segments,
     words_list ++ flat_map words_of segments).
Proof.
  revert segments_list words_list.
  induction segments as [|segment rest IH]; intros segments_list words_list.
  - cbn. rewrite !app_nil_r. reflexivity.
  - cbn [fold_left List.map flat_map].
    unfold WhisperLocalTranscriber.collect_segment at 2.
    unfold words_of at 1.
    destruct (FasterWhisper.Segment.words segment) as [[|word words] |].
    + rewrite IH. cbn [List.map app]. rewrite <- !app_assoc. reflexivity.
    + rewrite collect_words, IH. rewrite <- !app_assoc. reflexivity.
    + rewrite IH. cbn [app]. rewrite <- !app_assoc. reflexivity.
Qed.

(** X23.  For an audio file that exists and has a supported extension, once
    the model is loaded and the library has returned its segments, the
    transcript holds one segment for each segment of the library, in
    order and with the same start, end and text; its words are the
    words of the segments, in the order of the segments and then of
    the words, a segment without words giving none; its language and
    duration are those of the information. *)
Theorem transcriber_assembles_transcript {L H : Type}
    (library : FasterWhisper.Library L H) (path_str suffix : Path -> pystr)
    (lower : pystr -> pystr) (formats_in_order : list pystr)
    (self : WhisperLocalTranscriber.t H) (audio_path : Path)
    (language : option pystr) (fs : FileSystem) (l l1 l2 : L)
    (self1 : WhisperLocalTranscriber.t H) (model : H)
    (segments : list FasterWhisper.Segment.t)
    (info : FasterWhisper.TranscriptionInfo.t) :
  path_exists audio_path fs = true ->
  In (lower (suffix audio_path)) SUPPORTED_FORMATS ->
  WhisperLocalTranscriber._load_model library self l
  = (inr model, self1, l1) ->
  FasterWhisper.transcribe library model (path_str audio_path) language l1
  = (FasterWhisper.Segments segments info, l2) ->
  WhisperLocalTranscriber.transcribe library path_str suffix lower
    formats_in_order self audio_path language fs l
  = (Transcriber.Transcribed
       (Transcript.mk (List.map segment_of segments)
          (flat_map words_of segments)
          (FasterWhisper.TranscriptionInfo.language info)
          (FasterWhisper.TranscriptionInfo.duration info)),
     self1, l2).
Proof.
  intros Hexists Hformat Hload Hheard.
  unfold WhisperLocalTranscriber.transcribe.
  rewrite Hexists. cbn [negb].
  rewrite bool_decide_eq_true_2 by (apply list_elem_of_In; exact Hformat).
  cbn [negb]. rewrite Hload, Hheard, collect_segments. reflexivity.
Qed.

Lemma transcriber_assembles_transcript_witness :
  fst (Transcriber.transcribe
         (WhisperLocalTranscriber.for_commands example_library
            (fun _ => str "episode.mp3") (fun _ => str ".MP3")
            (fun _ => str ".mp3") SUPPORTED_FORMATS)
         (str "medium") [str "episode.mp3"] audio_fs tt)
  = Transcriber.Transcribed
      (Transcript.mk
         [TranscriptSegment.mk 0 30 (str " Hello");
          TranscriptSegment.mk 30 65 (str " World")]
         [WordTimestamp.mk (str " Hello") 0 1 (9 # 10)]
         (str "en") 65).
Proof.
  unfold WhisperLocalTranscriber.for_commands. cbn [Transcriber.transcribe].
  rewrite (transcriber_assembles_transcript example_library
             (fun _ => str "episode.mp3") (fun _ => str ".MP3")
             (fun _ => str ".mp3") SUPPORTED_FORMATS
             (WhisperLocalTranscriber.__init__ (str "medium") (str "auto")
                (str "auto"))
             [str "episode.mp3"] None audio_fs tt tt tt
             (WhisperLocalTranscriber.mk (str "medium") (str "auto")
                (str "auto") (Some tt))
             tt _ _ ltac:(vm_compute; reflexivity)
             ltac:(left; reflexivity) eq_refl eq_refl).
  reflexivity.
Defined.

(** X24.  An audio file that does not exist, or whose extension in lower case
    is not one of the supported ones, is refused with a
    [TranscriptionError] before the model is loaded: [process] with
    this transcriber then exits with code 1 and leaves the library, the
    service and the file system as they were.  The missing file is
    reported first, whatever its extension. *)
Theorem process_refuses_audio_before_loading {B L H : Type}
    (service : Anthropic.Service B) (library : FasterWhisper.Library L H)
    (path_str suffix : Path -> pystr) (lower : pystr -> pystr)
    (formats_in_order : list pystr) (stem : Path -> pystr)
    (audio_file : Path) (output : option Path) (whisper_model : pystr)
    (chapters : Z) (api_key : option pystr) (settings : Settings.t)
    (st : Cli.State B L) :
  let transcriber :=
    WhisperLocalTranscriber.for_commands library path_str suffix lower
      formats_in_order in
  Cli.resolved_api_key api_key settings <> [] ->
  (path_exists audio_file (Cli.fs st) = false
   \/ ~ In (lower (suffix audio_file)) SUPPORTED_FORMATS) ->
  Cli.process service transcriber stem audio_file output whisper_model
    chapters api_key settings st
  = (Cli.Exit 1, st)
  /\ (path_exists audio_file (Cli.fs st) = false ->
      fst (Transcriber.transcribe transcriber whisper_model audio_file
             (Cli.fs st) (Cli.whisper st))
      = Transcriber.TranscriptionError
          (str "Audio file not found: " ++ path_str audio_file)).
Proof.
  intros transcriber Hkey Hrefused.
  assert (Hout : exists msg,
             Transcriber.transcribe transcriber whisper_model audio_file
               (Cli.fs st) (Cli.whisper st)
             = (Transcriber.TranscriptionError msg, Cli.whisper st)
             /\ (path_exists audio_file (Cli.fs st) = false ->
                 msg = str "Audio file not found: " ++ path_str audio_file)).
  { subst transcriber. unfold WhisperLocalTranscriber.for_commands.
    cbn [Transcriber.transcribe]. unfold WhisperLocalTranscriber.transcribe.
    destruct (path_exists audio_file (Cli.fs st)) eqn:Hexists; cbn [negb].
    - destruct Hrefused as [Hno | Hformat]; [discriminate |].
      rewrite bool_decide_eq_false_2
        by (intros Hin; apply Hformat, list_elem_of_In; exact Hin).
      cbn [negb]. eexists. split; [reflexivity | discriminate].
    - eexists. split; [reflexivity | reflexivity]. }
  destruct Hout as [msg [Hrun Hmsg]]. split.
  - unfold Cli.process.
    destruct (Cli.resolved_api_key api_key settings) as [|c key];
      [congruence |].
    rewrite Hrun. destruct st; reflexivity.
  - intros Hmissing. rewrite Hrun. cbn [fst]. rewrite (Hmsg Hmissing).
    reflexivity.
Qed.

Lemma process_refuses_audio_before_loading_witness :
  Cli.process unreachable_service
    (WhisperLocalTranscriber.for_commands example_library
       (fun _ => str "episode.mp3") (fun _ => str ".mp3") (fun s => s)
       SUPPORTED_FORMATS)
    (fun _ => str "episode") [str "episode.mp3"] None (str "medium") 10 None
    example_settings fresh_state
  = (Cli.Exit 1, fresh_state).
Proof.
  refine (proj1 (process_refuses_audio_before_loading unreachable_service
                   example_library (fun _ => str "episode.mp3")
                   (fun _ => str ".mp3") (fun s => s) SUPPORTED_FORMATS
                   (fun _ => str "episode") [str "episode.mp3"] None
                   (str "medium") 10 None example_settings fresh_state _ _)).
  - discriminate.
  - left. vm_compute. reflexivity.
Defined.

(* ===================================================================== *)
(** * One command or two *)
(* ===================================================================== *)

Lemma save_after_transcript_only (output_dir : Path) (T : Transcript.t)
    (content : option GeneratedContent.t) (fs : FileSystem) :
  _save_outputs output_dir T content (_save_outputs output_dir T None fs)
  = _save_outputs output_dir T content fs.
Proof.
  apply file_system_eq.
  - rewrite !save_outputs_dirs. apply set_eq. intros x.
    rewrite !elem_of_union. tauto.
  - apply map_eq. intros q. rewrite !save_outputs_lookup.
    destruct (saved_file output_dir T content q) as [text |] eqn:Hsaved;
      [reflexivity |].
    replace (saved_file output_dir T None q) with (@None pystr);
      [reflexivity |].
    unfold saved_file in *. repeat case_decide; try reflexivity;
      discriminate Hsaved.
Qed.

(** X25.  Two commands do the work of one: when [process] returns for a
    transcript that survives its JSON file, running [transcribe] and
    then [generate] on the [transcript.json] it wrote, with the same
    output directory, key and chapter count, returns as well and ends
    in the very same state -- the same files, the same calls and
    requests. *)
Theorem transcribe_then_generate_is_process {B W : Type}
    (service : Anthropic.Service B) (transcriber : Transcriber.t W)
    (stem : Path -> pystr) (parent : Path -> Path)
    (audio_file : Path) (output : option Path) (whisper_model : pystr)
    (chapters : Z) (api_key : option pystr) (settings : Settings.t)
    (st : Cli.State B W) (transcript : Transcript.t) :
  let output_dir := audio_output_dir stem audio_file output settings in
  let processed :=
    Cli.process service transcriber stem audio_file output whisper_model
      chapters api_key settings st in
  let transcribed :=
    Cli.transcribe transcriber stem audio_file output whisper_model settings
      st in
  fst (Transcriber.transcribe transcriber whisper_model audio_file
         (Cli.fs st) (Cli.whisper st))
  = Transcriber.Transcribed transcript ->
  RoundTripSafe transcript ->
  fst processed = Cli.Returned ->
  fst transcribed = Cli.Returned
  /\ Cli.generate service parent
       (path_join output_dir (str "transcript.json")) (Some output_dir)
       chapters api_key settings (snd transcribed)
     = processed.
Proof.
  intros output_dir processed transcribed Htranscribed Hsafe Hreturned.
  destruct (Transcriber.transcribe transcriber whisper_model audio_file
              (Cli.fs st) (Cli.whisper st)) as [outcome whisper'] eqn:Hrun.
  cbn [fst] in Htranscribed. subst outcome.
  assert (Hkey : Cli.resolved_api_key api_key settings <> []).
  { intros Hempty. subst processed. unfold Cli.process in Hreturned.
    rewrite Hempty in Hreturned. discriminate Hreturned. }
  assert (Hstate : transcribed
                   = (Cli.Returned,
                      Cli.mkState
                        (_save_outputs output_dir transcript None (Cli.fs st))
                        (Cli.generation st) whisper')).
  { subst transcribed. unfold Cli.transcribe. rewrite Hrun. reflexivity. }
  rewrite Hstate. split; [reflexivity |]. cbn [snd].
  subst processed.
  rewrite (process_transcribed service transcriber stem audio_file output
             whisper_model chapters api_key settings st transcript whisper'
             Hkey Hrun) in *.
  rewrite (generate_loaded service parent
             (path_join output_dir (str "transcript.json")) (Some output_dir)
             chapters api_key settings
             (Cli.mkState
                (_save_outputs output_dir transcript None (Cli.fs st))
                (Cli.generation st) whisper')
             transcript Hkey
             (load_saved_transcript output_dir transcript None (Cli.fs st)
                Hsafe)).
  cbv zeta in *. cbn [Cli.fs Cli.generation Cli.whisper].
  destruct (fst (generate_all_content _ transcript chapters
                   (Cli.generation st))) as [e | content].
  - exfalso. cbn [fst] in Hreturned. destruct e; discriminate Hreturned.
  - rewrite save_after_transcript_only. reflexivity.
Qed.

Lemma transcribe_then_generate_is_process_witness :
  fst (Cli.generate (fixed_service (str "[]")) (@removelast pystr)
         [str "output"; str "episode"; str "transcript.json"]
         (Some [str "output"; str "episode"]) 10 None example_settings
         (snd (Cli.transcribe (fixed_transcriber hello_world_transcript)
                 (fun _ => str "episode") [str "episode.mp3"] None
                 (str "medium") example_settings fresh_state)))
  = Cli.Returned.
Proof.
  refine (eq_trans
            (f_equal fst
               (proj2 (transcribe_then_generate_is_process
                         (fixed_service (str "[]"))
                         (fixed_transcriber hello_world_transcript)
                         (fun _ => str "episode") (@removelast pystr)
                         [str "episode.mp3"] None (str "medium") 10 None
                         example_settings fresh_state hello_world_transcript
                         eq_refl hello_world_safe _)))
            _);
    vm_compute; reflexivity.
Defined.
